(** * TSDuck: the plugin executor ring, restart, bitrate monitor and LCN store

    A shallow embedding of
    - [ts::tsp::PluginExecutor] (initBuffer, passPackets, waitWork, setAbort,
      restart, pendingRestart, processPendingRestart),
    - [ts::BitrateMonitorPlugin] (start, computeBitrate, checkTime,
      handlePacketTimeout, processPacket),
    - [ts::LogicalChannelNumbers] (addLCN, addFromAbstractLCN, findLCN,
      getLCN, getVisible, getLCNs),
    followed by the properties of these functions.

    Conventions.  A [size_t] is a [Z] in [0, 2^64) and every arithmetic
    operation on it is followed by its wrap-around [size_t].  All the window
    fields of all executors are protected by one global mutex: an operation
    that holds it is one atomic transformation of the shared [Ring]. *)

From stdpp Require Import base numbers list relations strings gmap.
From Stdlib Require Import ZArith Lia.

Local Open Scope Z_scope.

(** ** Machine integers *)

Definition SIZE_MAX1 : Z := 2 ^ 64.

(** Wrap-around of an unsigned 64-bit [size_t]. *)
Definition size_t (z : Z) : Z := z mod SIZE_MAX1.

(** Size in bytes of a TS packet. *)
Definition PKT_SIZE : Z := 188.

(** Size in bits of a TS packet. *)
Definition PKT_SIZE_BITS : Z := 8 * PKT_SIZE.

(** ** Outcome of an operation on the shared state *)

(** [Ok a]: the call returned [a].  [Fault]: the process was stopped (a failed
    [assert], a division by zero, an executor that does not exist).
    [Blocked]: the thread waits on its condition variable and nobody wakes
    it up any more. *)
Inductive outcome (A : Type) : Type :=
| Ok (a : A)
| Fault
| Blocked.
Arguments Ok {A} a.
Arguments Fault {A}.
Arguments Blocked {A}.

Module Tsp.

Inductive PluginType := INPUT | PROCESSOR | OUTPUT.

Definition is_output (t : PluginType) : bool :=
  match t with OUTPUT => true | _ => false end.

Section Executor.

(** [BitRate] and [BitRateConfidence] are declared in headers which are not
    part of the sources: the executor only copies their values. *)
Variables BitRate BitRateConfidence : Type.

(** The window fields of one [PluginExecutor] (all under the global mutex).
    [buffer_count] is [_buffer->count()], the capacity of the packet buffer
    the executor points to. *)
Record Executor : Type := mkExecutor {
  plugin_type : PluginType;
  buffer_count : Z;
  pkt_first : Z;
  pkt_cnt : Z;
  input_end : bool;
  tsp_aborting : bool;
  bitrate : BitRate;
  br_confidence : BitRateConfidence;
  tsp_bitrate : BitRate;
  tsp_bitrate_confidence : BitRateConfidence;
  tsp_timeout : Z
}.

Definition set_window (first cnt : Z) (e : Executor) : Executor :=
  mkExecutor (plugin_type e) (buffer_count e) first cnt (input_end e)
    (tsp_aborting e) (bitrate e) (br_confidence e) (tsp_bitrate e)
    (tsp_bitrate_confidence e) (tsp_timeout e).

Definition set_pkt_first (first : Z) (e : Executor) : Executor :=
  set_window first (pkt_cnt e) e.

Definition set_pkt_cnt (cnt : Z) (e : Executor) : Executor :=
  set_window (pkt_first e) cnt e.

Definition set_bitrate (b : BitRate) (c : BitRateConfidence) (e : Executor) : Executor :=
  mkExecutor (plugin_type e) (buffer_count e) (pkt_first e) (pkt_cnt e)
    (input_end e) (tsp_aborting e) b c (tsp_bitrate e)
    (tsp_bitrate_confidence e) (tsp_timeout e).

Definition set_input_end (b : bool) (e : Executor) : Executor :=
  mkExecutor (plugin_type e) (buffer_count e) (pkt_first e) (pkt_cnt e)
    b (tsp_aborting e) (bitrate e) (br_confidence e) (tsp_bitrate e)
    (tsp_bitrate_confidence e) (tsp_timeout e).

Definition set_tsp_aborting (b : bool) (e : Executor) : Executor :=
  mkExecutor (plugin_type e) (buffer_count e) (pkt_first e) (pkt_cnt e)
    (input_end e) b (bitrate e) (br_confidence e) (tsp_bitrate e)
    (tsp_bitrate_confidence e) (tsp_timeout e).

(** The shared state: the executors in chain order (input first, output
    last) and the trace of [_to_do.notify_one()] calls, latest first, each
    with the index of the executor whose condition it signals. *)
Record Ring : Type := mkRing {
  stages : list Executor;
  notified : list nat
}.

(** Modelled from the spec: the ring links of [RingNode] ([ringNext] and
    [ringPrevious], declared in a header which is not part of the sources);
    the stages are "linked previous-next in a cycle", here by index. *)
Definition ringNext (n i : nat) : nat :=
  if decide (S i < n)%nat then S i else 0%nat.

Definition ringPrevious (n i : nat) : nat :=
  match i with
  | O => (n - 1)%nat
  | S k => k
  end.

(** *** Operations under the global mutex *)

Definition M (A : Type) : Type := Ring -> outcome (A * Ring).

Definition ret {A} (a : A) : M A := fun r => Ok (a, r).

Definition bind {A B} (m : M A) (k : A -> M B) : M B :=
  fun r =>
    match m r with
    | Ok (a, r') => k a r'
    | Fault => Fault
    | Blocked => Blocked
    end.

Definition fault {A} : M A := fun _ => Fault.

(** Read the fields of executor [i]. *)
Definition self (i : nat) : M Executor :=
  fun r =>
    match stages r !! i with
    | Some e => Ok (e, r)
    | None => Fault
    end.

(** Assign fields of executor [i] in place. *)
Definition update (i : nat) (f : Executor -> Executor) : M unit :=
  fun r =>
    match stages r !! i with
    | Some e => Ok (tt, mkRing (<[i := f e]> (stages r)) (notified r))
    | None => Fault
    end.

(** [_to_do.notify_one()] on executor [i]. *)
Definition notify_one (i : nat) : M unit :=
  fun r => Ok (tt, mkRing (stages r) (i :: notified r)).

Definition ring_size : M nat := fun r => Ok (length (stages r), r).

Definition when (b : bool) (m : M unit) : M unit :=
  if b then m else ret tt.

Notation "'let*' x ':=' m 'in' k" := (bind m (fun x => k))
  (at level 10, x name, m at level 100, k at level 200).
Notation "m >> k" := (bind m (fun _ => k))
  (at level 90, right associativity).

(** *** initBuffer *)

(** [buffer_cnt] stands for the [buffer] argument: all that the executor
    ever asks of it is [buffer->count()]. *)
Definition initBuffer (this : nat) (buffer_cnt : Z) (first cnt : Z)
    (input_end_arg aborted : bool) (br : BitRate) (conf : BitRateConfidence) : M unit :=
  update this (fun e =>
    mkExecutor (plugin_type e) buffer_cnt first cnt input_end_arg aborted
      br conf br conf (tsp_timeout e)).

(** *** setAbort *)

Definition setAbort (this : nat) : M unit :=
  update this (set_tsp_aborting true) >>
  let* n := ring_size in
  notify_one (ringPrevious n this).

(** *** passPackets *)

Definition passPackets (this : nat) (count : Z) (br : BitRate)
    (conf : BitRateConfidence) (input_end_arg aborted : bool) : M bool :=
  let* me := self this in
  (* assert(count <= _pkt_cnt) *)
  if negb (count <=? pkt_cnt me) then fault else
  (* the modulo below divides by _buffer->count() *)
  if buffer_count me =? 0 then fault else
  update this (fun e =>
    set_pkt_first (size_t (pkt_first e + count) mod buffer_count e) e) >>
  update this (fun e => set_pkt_cnt (size_t (pkt_cnt e - count)) e) >>
  let* n := ring_size in
  let next := ringNext n this in
  update next (fun e => set_pkt_cnt (size_t (pkt_cnt e + count)) e) >>
  update next (set_bitrate br conf) >>
  update next (fun e => set_input_end (input_end e || input_end_arg) e) >>
  when ((0 <? count) || input_end_arg) (notify_one next) >>
  let* me := self this in
  let* nx := self next in
  let aborted :=
    if is_output (plugin_type me) then aborted
    else aborted || tsp_aborting nx in
  when aborted
    (update this (set_tsp_aborting true) >>
     notify_one (ringPrevious n this)) >>
  ret (negb input_end_arg && negb aborted).

(** *** waitWork *)

(** What the other threads may do to the shared state while an executor
    waits on its condition (the mutex is released during the wait). *)
Inductive op : Type :=
| OpPassPackets (i : nat) (count : Z) (br : BitRate) (conf : BitRateConfidence)
    (input_end_arg aborted : bool)
| OpSetAbort (i : nat).

Definition run_op (o : op) : M unit :=
  match o with
  | OpPassPackets i count br conf ie ab =>
      passPackets i count br conf ie ab >> ret tt
  | OpSetAbort i => setAbort i
  end.

Fixpoint run_ops (os : list op) : M unit :=
  match os with
  | [] => ret tt
  | o :: os' => run_op o >> run_ops os'
  end.

(** One return of [_to_do.wait] or [_to_do.wait_for]: the operations the
    other threads completed meanwhile and, when the wait timed out, the
    answer of the plugin's [handlePacketTimeout()]. *)
Inductive wake : Type :=
| Notified (others : list op)
| TimedOut (others : list op) (handlePacketTimeout : bool).

Definition wake_ops (w : wake) : list op :=
  match w with
  | Notified os => os
  | TimedOut os _ => os
  end.

(** [wait_for(...) == std::cv_status::timeout && !plugin()->handlePacketTimeout()] *)
Definition wake_timeout (w : wake) : bool :=
  match w with
  | Notified _ => false
  | TimedOut _ h => negb h
  end.

(** The value of [Infinite], a constant of a header which is not part of
    the sources. *)
Variable Infinite : Z.

(** The condition of the [while] loop. *)
Definition wait_cond (me nx : Executor) (min_pkt_cnt : Z) (timeout : bool) : bool :=
  (pkt_cnt me <? min_pkt_cnt) && negb (input_end me) && negb timeout
  && negb (tsp_aborting nx).

Fixpoint wait_loop (this : nat) (min_pkt_cnt : Z) (timeout : bool)
    (wakes : list wake) : M bool :=
  let* me := self this in
  let* n := ring_size in
  let* nx := self (ringNext n this) in
  if wait_cond me nx min_pkt_cnt timeout then
    match wakes with
    | [] => fun _ => Blocked
    | w :: wakes' =>
        run_ops (wake_ops w) >>
        wait_loop this min_pkt_cnt
          (if tsp_timeout me =? Infinite then timeout else wake_timeout w)
          wakes'
    end
  else ret timeout.

(** The output parameters of [waitWork]. *)
Record Work : Type := mkWork {
  w_pkt_first : Z;
  w_pkt_cnt : Z;
  w_bitrate : BitRate;
  w_br_confidence : BitRateConfidence;
  w_input_end : bool;
  w_aborted : bool;
  w_timeout : bool
}.

(** "Cannot allocate more than the buffer size." *)
Definition clamp_min (me : Executor) (min_pkt_cnt : Z) : Z :=
  if buffer_count me <? min_pkt_cnt then buffer_count me else min_pkt_cnt.

(** The number of returned packets, once the loop is over. *)
Definition returned_cnt (me : Executor) (min_pkt_cnt : Z) (timeout : bool) : Z :=
  if timeout then 0
  else if size_t (pkt_first me + min_pkt_cnt) <=? buffer_count me then
    Z.min (pkt_cnt me) (size_t (buffer_count me - pkt_first me))
  else pkt_cnt me.

Definition waitWork (this : nat) (min_pkt_cnt : Z) (wakes : list wake) : M Work :=
  let* me0 := self this in
  let min_pkt_cnt := clamp_min me0 min_pkt_cnt in
  let* timeout := wait_loop this min_pkt_cnt false wakes in
  let* me := self this in
  let* n := ring_size in
  let* nx := self (ringNext n this) in
  let cnt := returned_cnt me min_pkt_cnt timeout in
  ret (mkWork (pkt_first me) cnt (bitrate me) (br_confidence me)
         (input_end me && (cnt =? pkt_cnt me))
         (negb (is_output (plugin_type me)) && tsp_aborting nx)
         timeout).

(** *** Start-up *)

(** Modelled from the spec: the start-up of the pipeline, which calls
    [initBuffer] on every executor before any thread starts (its code is not
    part of the sources).  "Input gets the full buffer as its window with
    input_end=false, aborted=false; all other stages get count=0 and first
    set to the position immediately following their predecessor's window."
    The executors are initialised in chain order, from [k]. *)
Fixpoint initOthers (B : Z) (k : nat) (others : nat) (br : BitRate)
    (conf : BitRateConfidence) : M unit :=
  match others with
  | O => ret tt
  | S others' =>
      let* prev := self (k - 1) in
      initBuffer k B ((pkt_first prev + pkt_cnt prev) mod B) 0 false false br conf >>
      initOthers B (S k) others' br conf
  end.

Definition initAllBuffers (B first : Z) (br : BitRate) (conf : BitRateConfidence) : M unit :=
  initBuffer 0 B first B false false br conf >>
  let* n := ring_size in
  initOthers B 1 (n - 1) br conf.

(** The states of a running pipeline: the one the start-up installs, then
    any operation of any executor ([count] is a [size_t]; [passPackets]
    returns only when [count] is at most the count of the caller). *)
Inductive reachable (B first : Z) (r0 : Ring) : Ring -> Prop :=
| reach_start br conf r :
    initAllBuffers B first br conf r0 = Ok (tt, r) ->
    reachable B first r0 r
| reach_passPackets r i count br conf ie ab res r' :
    reachable B first r0 r ->
    0 <= count < SIZE_MAX1 ->
    passPackets i count br conf ie ab r = Ok (res, r') ->
    reachable B first r0 r'
| reach_setAbort r i r' :
    reachable B first r0 r ->
    setAbort i r = Ok (tt, r') ->
    reachable B first r0 r'.

End Executor.

Arguments mkExecutor {BitRate BitRateConfidence}.
Arguments plugin_type {BitRate BitRateConfidence} e.
Arguments buffer_count {BitRate BitRateConfidence} e.
Arguments pkt_first {BitRate BitRateConfidence} e.
Arguments pkt_cnt {BitRate BitRateConfidence} e.
Arguments input_end {BitRate BitRateConfidence} e.
Arguments tsp_aborting {BitRate BitRateConfidence} e.
Arguments bitrate {BitRate BitRateConfidence} e.
Arguments br_confidence {BitRate BitRateConfidence} e.
Arguments tsp_bitrate {BitRate BitRateConfidence} e.
Arguments tsp_bitrate_confidence {BitRate BitRateConfidence} e.
Arguments tsp_timeout {BitRate BitRateConfidence} e.
Arguments set_window {BitRate BitRateConfidence} first cnt e.
Arguments set_pkt_first {BitRate BitRateConfidence} first e.
Arguments set_pkt_cnt {BitRate BitRateConfidence} cnt e.
Arguments set_bitrate {BitRate BitRateConfidence} b c e.
Arguments set_input_end {BitRate BitRateConfidence} b e.
Arguments set_tsp_aborting {BitRate BitRateConfidence} b e.
Arguments mkRing {BitRate BitRateConfidence}.
Arguments stages {BitRate BitRateConfidence} r.
Arguments notified {BitRate BitRateConfidence} r.
Arguments M BitRate BitRateConfidence A : clear implicits.
Arguments ret {BitRate BitRateConfidence A} a.
Arguments bind {BitRate BitRateConfidence A B} m k.
Arguments fault {BitRate BitRateConfidence A}.
Arguments self {BitRate BitRateConfidence} i.
Arguments update {BitRate BitRateConfidence} i f.
Arguments notify_one {BitRate BitRateConfidence} i.
Arguments ring_size {BitRate BitRateConfidence}.
Arguments when {BitRate BitRateConfidence} b m.
Arguments initBuffer {BitRate BitRateConfidence} this buffer_cnt first cnt input_end_arg aborted br conf.
Arguments setAbort {BitRate BitRateConfidence} this.
Arguments passPackets {BitRate BitRateConfidence} this count br conf input_end_arg aborted.
Arguments OpPassPackets {BitRate BitRateConfidence}.
Arguments OpSetAbort {BitRate BitRateConfidence}.
Arguments run_op {BitRate BitRateConfidence} o.
Arguments run_ops {BitRate BitRateConfidence} os.
Arguments Notified {BitRate BitRateConfidence}.
Arguments TimedOut {BitRate BitRateConfidence}.
Arguments wake_ops {BitRate BitRateConfidence} w.
Arguments wake_timeout {BitRate BitRateConfidence} w.
Arguments wait_cond {BitRate BitRateConfidence} me nx min_pkt_cnt timeout.
Arguments wait_loop {BitRate BitRateConfidence} Infinite this min_pkt_cnt timeout wakes.
Arguments mkWork {BitRate BitRateConfidence}.
Arguments w_pkt_first {BitRate BitRateConfidence} w.
Arguments w_pkt_cnt {BitRate BitRateConfidence} w.
Arguments w_bitrate {BitRate BitRateConfidence} w.
Arguments w_br_confidence {BitRate BitRateConfidence} w.
Arguments w_input_end {BitRate BitRateConfidence} w.
Arguments w_aborted {BitRate BitRateConfidence} w.
Arguments w_timeout {BitRate BitRateConfidence} w.
Arguments clamp_min {BitRate BitRateConfidence} me min_pkt_cnt.
Arguments returned_cnt {BitRate BitRateConfidence} me min_pkt_cnt timeout.
Arguments waitWork {BitRate BitRateConfidence} Infinite this min_pkt_cnt wakes.
Arguments initOthers {BitRate BitRateConfidence} B k others br conf.
Arguments initAllBuffers {BitRate BitRateConfidence} B first br conf.
Arguments reachable {BitRate BitRateConfidence} B first r0.

End Tsp.

(** ** Vocabulary of the properties of the ring *)

Section RingSpec.

Import Tsp.

Context {BitRate BitRateConfidence : Type}.

Abbreviation Executor := (Tsp.Executor BitRate BitRateConfidence).
Abbreviation Ring := (Tsp.Ring BitRate BitRateConfidence).

Implicit Types (r : Ring) (e s n : Executor) (i j k : nat).

(** The state of the caller after [passPackets], wrap-around included. *)
Definition passed_self (count : Z) (aborted : bool) s : Executor :=
  set_tsp_aborting (tsp_aborting s || aborted)
    (set_window (size_t (pkt_first s + count) mod buffer_count s)
                (size_t (pkt_cnt s - count)) s).

(** The state of the next executor after [passPackets]. *)
Definition passed_next (count : Z) (br : BitRate) (conf : BitRateConfidence)
    (ie : bool) n : Executor :=
  set_input_end (input_end n || ie)
    (set_bitrate br conf (set_pkt_cnt (size_t (pkt_cnt n + count)) n)).

(** The abort flag which [passPackets] acts upon: the argument, OR-ed with
    the abort flag of the next executor unless the caller is the output. *)
Definition effective_abort (aborted : bool) s n : bool :=
  if is_output (plugin_type s) then aborted else aborted || tsp_aborting n.

(** A packet buffer of [B] packets which fits in the address space. *)
Definition buffer_fits (B : Z) : Prop :=
  0 < B /\ B * PKT_SIZE < SIZE_MAX1.

(** The window of an executor lies in a buffer of [B] packets. *)
Definition window_fits (B : Z) e : Prop :=
  buffer_count e = B /\ 0 <= pkt_first e < B /\ 0 <= pkt_cnt e <= B.

(** Sum of [count] over all stages. *)
Definition total_count (l : list Executor) : Z :=
  foldr (fun e acc => pkt_cnt e + acc) 0 l.

(** Contiguity as the specification words it: the window of a stage is
    followed by the window of the next stage. *)
Definition next_follows (B : Z) r : Prop :=
  forall i s n,
    stages r !! i = Some s ->
    stages r !! ringNext (length (stages r)) i = Some n ->
    (pkt_first s + pkt_cnt s) mod B = pkt_first n.

(** Contiguity as the code keeps it: packets leave the head of a window
    for the tail of the window of the next stage, so that the window of the
    next stage ends where the window of the stage begins. *)
Definition next_precedes (B : Z) r : Prop :=
  forall i s n,
    stages r !! i = Some s ->
    stages r !! ringNext (length (stages r)) i = Some n ->
    (pkt_first n + pkt_cnt n) mod B = pkt_first s.

(** What holds of the windows under the mutex: there are at least two
    stages (input and output), every window lies in the buffer, the counts
    add up to the capacity and the windows follow each other. *)
Definition ring_inv (B : Z) r : Prop :=
  (2 <= length (stages r))%nat
  /\ Forall (window_fits B) (stages r)
  /\ total_count (stages r) = B
  /\ next_precedes B r.

(** What no operation of a running pipeline undoes: the kind of plugin,
    the buffer and the timeout of a stage stay, and both flags only go
    from false to true. *)
Definition flags_le e e' : Prop :=
  plugin_type e = plugin_type e'
  /\ buffer_count e = buffer_count e'
  /\ tsp_timeout e = tsp_timeout e'
  /\ (input_end e = true -> input_end e' = true)
  /\ (tsp_aborting e = true -> tsp_aborting e' = true).

Definition ring_flags_le r r' : Prop :=
  length (stages r') = length (stages r)
  /\ forall k e, stages r !! k = Some e ->
       exists e', stages r' !! k = Some e' /\ flags_le e e'.

(** A computation which only raises flags. *)
Definition only_raises {A} (m : M BitRate BitRateConfidence A) : Prop :=
  forall r a r', m r = Ok (a, r') -> ring_flags_le r r'.

(** The window which the start-up gives to stage [m]. *)
Definition started (B first : Z) (m : nat) e : Prop :=
  buffer_count e = B /\ pkt_first e = first
  /\ pkt_cnt e = match m with O => B | S _ => 0 end.

(** One operation of one executor on the shared state. *)
Inductive executor_step (Infinite : Z) r r' : Prop :=
| step_passPackets i count br conf ie ab res :
    passPackets i count br conf ie ab r = Ok (res, r') ->
    executor_step Infinite r r'
| step_setAbort i :
    setAbort i r = Ok (tt, r') ->
    executor_step Infinite r r'
| step_waitWork i min_pkt_cnt wakes w :
    waitWork Infinite i min_pkt_cnt wakes r = Ok (w, r') ->
    executor_step Infinite r r'.

(** The calls to [notify_one] which [passPackets] makes, latest first: the
    previous stage when the caller aborts, the next stage when packets or
    the end of input are passed. *)
Definition passed_notified (len i : nat) (count : Z) (ie aborted : bool) : list nat :=
  (if aborted then [ringPrevious len i] else [])
  ++ (if (0 <? count) || ie then [ringNext len i] else []).

(** The slot of the buffer which holds packet [a] of the window of [e]. *)
Definition slot (B : Z) e (a : Z) : Z := (pkt_first e + a) mod B.

(** The stages from [k - 1] down to the input pass no packet, in that
    order. *)
Definition pass_nothing_back (k : nat) (br : BitRate) (conf : BitRateConfidence)
    : list (Tsp.op BitRate BitRateConfidence) :=
  (fun i => OpPassPackets i 0 br conf false false) <$> reverse (seq 0 k).

End RingSpec.

(** Concrete pipelines, for the examples. *)
Module Examples.

Import Tsp.

Definition exec (t : PluginType) (B first cnt : Z) (ie ab : bool) : Tsp.Executor Z nat :=
  mkExecutor t B first cnt ie ab 0 0%nat 0 0%nat 1000.

(** B = 8, N = 3, before the start-up. *)
Definition ring3_new : Tsp.Ring Z nat :=
  mkRing [exec INPUT 0 0 0 false false; exec PROCESSOR 0 0 0 false false;
          exec OUTPUT 0 0 0 false false] [].

(** B = 8, N = 3: the input owns the whole buffer. *)
Definition ring3 : Tsp.Ring Z nat :=
  mkRing [exec INPUT 8 0 8 false false; exec PROCESSOR 8 0 0 false false;
          exec OUTPUT 8 0 0 false false] [].

(** B = 8, N = 3: the window of the processor wraps (slots 6, 7, 0, 1, 2)
    and its input has ended. *)
Definition ring3_wrapped : Tsp.Ring Z nat :=
  mkRing [exec INPUT 8 3 2 false false; exec PROCESSOR 8 6 5 true false;
          exec OUTPUT 8 5 1 false false] [].

(** [ring3] after the input passed 3 packets to the processor. *)
Definition ring3_passed : Tsp.Ring Z nat :=
  mkRing [exec INPUT 8 3 5 false false; exec PROCESSOR 8 0 3 false false;
          exec OUTPUT 8 0 0 false false] [1%nat].

(** [ring3_passed] when the output has aborted. *)
Definition ring3_aborting : Tsp.Ring Z nat :=
  mkRing [exec INPUT 8 3 5 false false; exec PROCESSOR 8 0 3 false false;
          exec OUTPUT 8 0 0 false true] [].

(** [ring3_passed] once the input has passed the end of input, the output
    has aborted and the processor, told so, has aborted too: both flags of
    the processor are set. *)
Definition ring3_flagged : Tsp.Ring Z nat :=
  mkRing [exec INPUT 8 3 5 false false; exec PROCESSOR 8 0 3 true true;
          exec OUTPUT 8 0 0 false true] [0%nat; 1%nat; 1%nat].

(** [ring3] when the input has aborted. *)
Definition ring3_input_aborting : Tsp.Ring Z nat :=
  mkRing [exec INPUT 8 0 8 false true; exec PROCESSOR 8 0 0 false false;
          exec OUTPUT 8 0 0 false false] [].

(** The value of [Infinite] in the examples. *)
Definition Infinite : Z := -1.

End Examples.

(** ** Restart of a plugin *)

Module Restart.

Definition UString : Type := string.
Definition UStringVector : Type := list string.

(** A [Report] is modelled by the messages it received, oldest first. *)
Inductive Severity := Error | Warning | Info | Verbose | Debug.

Definition Message : Type := Severity * UString.

(** The plugin-facing contract which [processPendingRestart] relies on.
    [P] is the state of the plugin; a call which may report returns the
    messages it sent to the report of the plugin. *)
Class PluginApi (P DuckArgs : Type) : Type := {
  stop : P -> bool * P * list Message;
  resetContext : DuckArgs -> P -> P;
  getCommandArgs : P -> UStringVector;
  getFlags : P -> Z;
  setFlags : Z -> P -> P;
  analyze : UString -> UStringVector -> bool -> P -> bool * P * list Message;
  getOptions : P -> bool * P * list Message;
  start : P -> bool * P * list Message
}.

(** A [RestartData]; [notifications] counts [condition.notify_one()]. *)
Record RestartData : Type := mkRestartData {
  report : list Message;
  same_args : bool;
  args : UStringVector;
  completed : bool;
  notifications : nat
}.

Definition RestartData_new (params : UStringVector) (same : bool)
    (rep : list Message) : RestartData :=
  mkRestartData rep same params false 0.

(** A [Report*]: the executor itself, or the report of a restart record. *)
Inductive ReportPtr :=
| TspReport
| RestartReport (rd : nat).

Section Executor.

Context {P DuckArgs : Type} `{PluginApi P DuckArgs}.

(** [Args::NO_HELP] and [Args::NO_EXIT_ON_ERROR], constants of a header
    which is not part of the sources. *)
Variables NO_HELP NO_EXIT_ON_ERROR : Z.

(** What [restartPluginSession()] does to the session accounting of the
    TSP layer, whose code is not part of the sources. *)
Variable Accounting : Type.
Variable restartPluginSession : Accounting -> Accounting.

(** The part of a [PluginExecutor] which a restart reads and writes.
    [records] is the store of the [RestartData] objects, which the
    executor and the thread which asked for the restart both point to;
    [restart_data] is the [RestartDataPtr] of the executor. *)
Record State : Type := mkState {
  plugin : P;
  plugin_report : ReportPtr;
  tsp_report : list Message;
  pluginName : UString;
  duck_args : DuckArgs;
  accounting : Accounting;
  restart : bool;
  restart_data : option nat;
  records : list RestartData;
  to_do_notified : nat
}.

Definition St (A : Type) : Type := State -> A * State.

Definition ret {A} (a : A) : St A := fun x => (a, x).

Definition bind {A B} (m : St A) (k : A -> St B) : St B :=
  fun x => let (a, x') := m x in k a x'.

Notation "'let*' a ':=' m 'in' k" := (bind m (fun a => k))
  (at level 10, a name, m at level 100, k at level 200).
Notation "m >> k" := (bind m (fun _ => k))
  (at level 90, right associativity).

Definition get : St State := fun x => (x, x).

Definition set_plugin (p : P) : St unit :=
  fun x => (tt, mkState p (plugin_report x) (tsp_report x) (pluginName x)
                  (duck_args x) (accounting x) (restart x) (restart_data x)
                  (records x) (to_do_notified x)).

Definition set_plugin_report (r : ReportPtr) : St unit :=
  fun x => (tt, mkState (plugin x) r (tsp_report x) (pluginName x)
                  (duck_args x) (accounting x) (restart x) (restart_data x)
                  (records x) (to_do_notified x)).

Definition set_tsp_report (l : list Message) : St unit :=
  fun x => (tt, mkState (plugin x) (plugin_report x) l (pluginName x)
                  (duck_args x) (accounting x) (restart x) (restart_data x)
                  (records x) (to_do_notified x)).

Definition set_accounting (a : Accounting) : St unit :=
  fun x => (tt, mkState (plugin x) (plugin_report x) (tsp_report x) (pluginName x)
                  (duck_args x) a (restart x) (restart_data x)
                  (records x) (to_do_notified x)).

Definition set_restart (b : bool) (rd : option nat) : St unit :=
  fun x => (tt, mkState (plugin x) (plugin_report x) (tsp_report x) (pluginName x)
                  (duck_args x) (accounting x) b rd
                  (records x) (to_do_notified x)).

Definition set_records (l : list RestartData) : St unit :=
  fun x => (tt, mkState (plugin x) (plugin_report x) (tsp_report x) (pluginName x)
                  (duck_args x) (accounting x) (restart x) (restart_data x)
                  l (to_do_notified x)).

(** Assign fields of the record which [rd] points to. *)
Definition update_record (rd : nat) (f : RestartData -> RestartData) : St unit :=
  let* x := get in
  match records x !! rd with
  | Some d => set_records (<[rd := f d]> (records x))
  | None => ret tt
  end.

Definition add_report (ms : list Message) (d : RestartData) : RestartData :=
  mkRestartData (report d ++ ms) (same_args d) (args d) (completed d)
    (notifications d).

(** Send messages to the report which [r] points to. *)
Definition log (r : ReportPtr) (ms : list Message) : St unit :=
  match r with
  | TspReport =>
      let* x := get in set_tsp_report (tsp_report x ++ ms)
  | RestartReport rd => update_record rd (add_report ms)
  end.

(** A call of the plugin: its messages go to the current report of the
    plugin. *)
Definition call (f : P -> bool * P * list Message) : St bool :=
  let* x := get in
  let '(ok, p, ms) := f (plugin x) in
  set_plugin p >>
  log (plugin_report x) ms >>
  ret ok.

(** [plugin()->redirectReport(r)] returns the previous report. *)
Definition redirectReport (r : ReportPtr) : St ReportPtr :=
  let* x := get in
  set_plugin_report r >>
  ret (plugin_report x).

(** [plugin()->analyze(pluginName(), a, false) && plugin()->getOptions()
    && plugin()->start()], the second and third calls being made only
    when the previous ones returned true. *)
Definition analyze_getOptions_start (a : UStringVector) : St bool :=
  let* x := get in
  let* ok1 := call (analyze (pluginName x) a false) in
  if ok1 then
    let* ok2 := call getOptions in
    if ok2 then call start else ret false
  else ret false.

Definition restart_warning (name : UString) : Message :=
  (Warning, "failed to restart plugin " +:+ name
            +:+ ", restarting with previous parameters").

Definition restart_debug (name : UString) (success : bool) : Message :=
  (Debug, "restarted plugin " +:+ name +:+ ", status: "
          +:+ (if success then "true" else "false")).

(** [_restart_data->completed = true; _restart_data->condition.notify_one()] *)
Definition complete (d : RestartData) : RestartData :=
  mkRestartData (report d) (same_args d) (args d) true (S (notifications d)).

(** [processPendingRestart(restarted)]: returns [(success, restarted)]. *)
Definition processPendingRestart : St (bool * bool) :=
  let* x := get in
  match restart x, restart_data x with
  | true, Some rd =>
      log TspReport [(Verbose, "restarting due to remote tspcontrol")] >>
      log (RestartReport rd) [(Verbose, "restarting plugin " +:+ pluginName x)] >>
      (* First, stop the current execution. *)
      let* _ := call stop in
      set_accounting (restartPluginSession (accounting x)) >>
      let* x1 := get in
      set_plugin (resetContext (duck_args x) (plugin x1)) >>
      let* previous_report := redirectReport (RestartReport rd) in
      let* d := (fun y => (records y !! rd, y)) in
      let* success :=
        match d with
        | Some (mkRestartData _ true _ _ _) => call start
        | Some (mkRestartData _ false new_args _ _) =>
            let* x2 := get in
            let previous_args := getCommandArgs (plugin x2) in
            set_plugin
              (setFlags (Z.lor (Z.lor (getFlags (plugin x2)) NO_HELP)
                           NO_EXIT_ON_ERROR) (plugin x2)) >>
            let* success := analyze_getOptions_start new_args in
            if success then ret true
            else
              log (RestartReport rd) [restart_warning (pluginName x)] >>
              analyze_getOptions_start previous_args
        | None => ret false
        end in
      let* _ := redirectReport previous_report in
      update_record rd complete >>
      set_restart false None >>
      log TspReport [restart_debug (pluginName x) success] >>
      ret (success, true)
  | _, _ => ret (true, false)
  end.

(** The sequence analyze + getOptions + start as a function of the plugin
    alone: its result, the plugin it leaves and the messages it sent. *)
Definition start_sequence (name : UString) (a : UStringVector) (p : P)
    : bool * P * list Message :=
  let '(ok1, p1, m1) := analyze name a false p in
  if ok1 then
    let '(ok2, p2, m2) := getOptions p1 in
    if ok2 then
      let '(ok3, p3, m3) := start p2 in (ok3, p3, m1 ++ m2 ++ m3)
    else (false, p2, m1 ++ m2)
  else (false, p1, m1).

(** The whole restart attempt as a function of the plugin alone, once the
    plugin is stopped and its context is reset: its status, the plugin it
    leaves and the messages it sent to the report of the restart record. *)
Definition restart_attempt (name : UString) (d : RestartData) (p0 : P)
    : bool * P * list Message :=
  if same_args d then start p0
  else
    let previous_args := getCommandArgs p0 in
    let p1 := setFlags (Z.lor (Z.lor (getFlags p0) NO_HELP) NO_EXIT_ON_ERROR) p0 in
    let '(ok1, p2, m1) := start_sequence name (args d) p1 in
    if ok1 then (true, p2, m1)
    else
      let '(ok, p3, m2) := start_sequence name previous_args p2 in
      (ok, p3, m1 ++ [restart_warning name] ++ m2).

(** *** The side of the thread which asks for a restart *)

(** [RestartDataPtr(new RestartData(params, same, report))]: the pointer
    is the index of the new record in the store. *)
Definition new_RestartData (params : UStringVector) (same : bool)
    (rep : list Message) : St nat :=
  let* x := get in
  set_records (records x ++ [RestartData_new params same rep]) >>
  ret (length (records x)).

Definition set_completed (b : bool) (d : RestartData) : RestartData :=
  mkRestartData (report d) (same_args d) (args d) b (notifications d).

(** [condition.notify_one()] on a record. *)
Definition notify_condition (d : RestartData) : RestartData :=
  mkRestartData (report d) (same_args d) (args d) (completed d)
    (S (notifications d)).

Definition restart_interrupted : Message :=
  (Error, "restart interrupted by another concurrent restart").

(** [_to_do.notify_one()] *)
Definition notify_to_do : St unit :=
  fun x => (tt, mkState (plugin x) (plugin_report x) (tsp_report x) (pluginName x)
                  (duck_args x) (accounting x) (restart x) (restart_data x)
                  (records x) (S (to_do_notified x))).

(** [restart(rd)], up to the wait: what it does under the global mutex. *)
Definition restart_rd (rd : nat) : St unit :=
  let* x := get in
  match restart_data x with
  | Some previous =>
      (* If there was a previous pending restart operation, cancel it. *)
      update_record previous (set_completed true) >>
      log (RestartReport previous) [restart_interrupted] >>
      update_record previous notify_condition
  | None => ret tt
  end >>
  set_restart true (Some rd) >>
  notify_to_do.

(** The predicate of the wait which ends [restart(rd)]: the call returns
    only once it holds. *)
Definition restart_completed (rd : nat) (x : State) : bool :=
  match records x !! rd with
  | Some d => completed d
  | None => false
  end.

(** [restart(report)] and [restart(params, report)], up to the wait; they
    return the pointer they made, which the wait reads. *)
Definition restart_same (rep : list Message) : St nat :=
  let* rd := new_RestartData [] true rep in
  restart_rd rd >>
  ret rd.

Definition restart_params (params : UStringVector) (rep : list Message) : St nat :=
  let* rd := new_RestartData params false rep in
  restart_rd rd >>
  ret rd.

(** [pendingRestart()] *)
Definition pendingRestart : St bool :=
  let* x := get in
  ret (restart x && bool_decide (is_Some (restart_data x))).

End Executor.

Arguments State P DuckArgs Accounting : clear implicits.
Arguments St P DuckArgs Accounting A : clear implicits.
Arguments mkState {P DuckArgs Accounting}.
Arguments plugin {P DuckArgs Accounting} s.
Arguments plugin_report {P DuckArgs Accounting} s.
Arguments tsp_report {P DuckArgs Accounting} s.
Arguments pluginName {P DuckArgs Accounting} s.
Arguments duck_args {P DuckArgs Accounting} s.
Arguments accounting {P DuckArgs Accounting} s.
Arguments restart {P DuckArgs Accounting} s.
Arguments restart_data {P DuckArgs Accounting} s.
Arguments records {P DuckArgs Accounting} s.
Arguments to_do_notified {P DuckArgs Accounting} s.
Arguments ret {P DuckArgs Accounting A} a.
Arguments bind {P DuckArgs Accounting A B} m k.
Arguments get {P DuckArgs Accounting}.
Arguments set_plugin {P DuckArgs Accounting} p.
Arguments set_plugin_report {P DuckArgs Accounting} r.
Arguments set_tsp_report {P DuckArgs Accounting} l.
Arguments set_accounting {P DuckArgs Accounting} a.
Arguments set_restart {P DuckArgs Accounting} b rd.
Arguments set_records {P DuckArgs Accounting} l.
Arguments update_record {P DuckArgs Accounting} rd f.
Arguments log {P DuckArgs Accounting} r ms.
Arguments call {P DuckArgs Accounting} f.
Arguments redirectReport {P DuckArgs Accounting} r.
Arguments analyze_getOptions_start {P DuckArgs _ Accounting} a.
Arguments processPendingRestart {P DuckArgs _} NO_HELP NO_EXIT_ON_ERROR {Accounting}
  restartPluginSession.
Arguments restart_attempt {P DuckArgs _} NO_HELP NO_EXIT_ON_ERROR name d p0.
Arguments new_RestartData {P DuckArgs Accounting} params same rep.
Arguments notify_to_do {P DuckArgs Accounting}.
Arguments restart_rd {P DuckArgs Accounting} rd.
Arguments restart_completed {P DuckArgs Accounting} rd x.
Arguments restart_same {P DuckArgs Accounting} rep.
Arguments restart_params {P DuckArgs Accounting} params rep.
Arguments pendingRestart {P DuckArgs Accounting}.

(** A plugin which knows every option but [--invalid]: [analyze] rejects it
    and reports an error. *)
Module Toy.

Record Plugin : Type := mkPlugin {
  command_args : UStringVector;
  flags : Z;
  running : bool
}.

Definition valid_arg (a : UString) : bool :=
  if decide (a = "--invalid") then false else true.

#[export] Instance api : PluginApi Plugin unit := {
  stop p := (true, mkPlugin (command_args p) (flags p) false, []);
  resetContext _ p := p;
  getCommandArgs p := command_args p;
  getFlags p := flags p;
  setFlags f p := mkPlugin (command_args p) f (running p);
  analyze _ a _ p :=
    if forallb valid_arg a
    then (true, mkPlugin a (flags p) (running p), [])
    else (false, mkPlugin a (flags p) (running p), [(Error, "unknown option")]);
  getOptions p := (true, p, []);
  start p := (true, mkPlugin (command_args p) (flags p) true, [])
}.

(** A running plugin with a pending restart with new, bad arguments. *)
Definition pending : State Plugin unit nat :=
  mkState (mkPlugin ["--ok"] 0 true) TspReport [] "toy" tt 7%nat true (Some 0%nat)
    [RestartData_new ["--invalid"] false []] 0.

(** A running plugin and no restart. *)
Definition idle : State Plugin unit nat :=
  mkState (mkPlugin ["--ok"] 0 true) TspReport [] "toy" tt 7%nat false None [] 0.

(** A pending restart with the same arguments. *)
Definition pending_same : State Plugin unit nat :=
  mkState (mkPlugin ["--ok"] 0 true) TspReport [] "toy" tt 7%nat true (Some 0%nat)
    [RestartData_new [] true []] 0.

(** A pending restart with new arguments which the plugin knows. *)
Definition pending_valid : State Plugin unit nat :=
  mkState (mkPlugin ["--ok"] 0 true) TspReport [] "toy" tt 7%nat true (Some 0%nat)
    [RestartData_new ["--new"] false []] 0.

(** A pending restart, and the record of a second request which is not
    declared yet. *)
Definition pending_two : State Plugin unit nat :=
  mkState (mkPlugin ["--ok"] 0 true) TspReport [] "toy" tt 7%nat true (Some 0%nat)
    [RestartData_new ["--invalid"] false []; RestartData_new [] true []] 0.

End Toy.

End Restart.

(** ** The bitrate monitor plugin *)

Module BitrateMonitor.

(** Modelled from the spec: the unit constants of the platform header,
    which is not part of the sources, with the values their names state
    (durations are in nanoseconds, buckets last one second). *)
Definition NanoSecPerSec : Z := 1000000000.
Definition NanoSecPerMicroSec : Z := 1000.
Definition MicroSecPerSec : Z := 1000000.
Definition MilliSecPerSec : Z := 1000.

Definition PID_NULL : Z := 0x1FFF.

(** Wrap-around of a [PacketCounter], an unsigned 64-bit integer. *)
Definition uint64 (z : Z) : Z := z mod 2 ^ 64.

(** The arithmetic of [BitRate], a type of a header which is not part of
    the sources: construction from an integer, product and quotient by an
    integer, comparison and conversion to [int64_t]. *)
Class BitRateOps (BitRate : Type) : Type := {
  br_of_int : Z -> BitRate;
  br_mul : BitRate -> Z -> BitRate;
  br_div : BitRate -> Z -> BitRate;
  br_ltb : BitRate -> BitRate -> bool;
  br_toInt64 : BitRate -> Z
}.

(** The build where [BitRate] is an integer type: the quotient truncates. *)
#[export] Instance integer_bitrate : BitRateOps Z := {
  br_of_int z := z;
  br_mul := Z.mul;
  br_div := Z.quot;
  br_ltb := Z.ltb;
  br_toInt64 z := z
}.

Inductive RangeStatus := LOWER | IN_RANGE | GREATER.

Definition RangeStatus_eqb (a b : RangeStatus) : bool :=
  match a, b with
  | LOWER, LOWER | IN_RANGE, IN_RANGE | GREATER, GREATER => true
  | _, _ => false
  end.

(** What is received during approximately one second. *)
Record Period : Type := mkPeriod {
  duration : Z;
  packets : Z;
  non_null : Z
}.

Definition Period_clear : Period := mkPeriod 0 0 0.

Section Plugin.

Context {BitRate : Type} `{BitRateOps BitRate}.

(** Command line options.  A [TSPacketLabelSet] is the integer whose bit
    [n] is label [n]; [pids] is the test of the [PIDSet]. *)
Record Options : Type := mkOptions {
  full_ts : bool;
  summary : bool;
  pids : Z -> bool;
  min_bitrate : BitRate;
  max_bitrate : BitRate;
  periodic_bitrate : Z;
  periodic_command : Z;
  window_size : Z;
  alarm_command : string;
  labels_below : Z;
  labels_normal : Z;
  labels_above : Z;
  labels_go_below : Z;
  labels_go_normal : Z;
  labels_go_above : Z
}.

(** What the plugin sends out: the periodic display of the bitrate (with
    the net bitrate when the full TS is monitored), the alarm message,
    the alarm command with the values of its parameters. *)
Inductive Output : Type :=
| InfoBitrate (bitrate : BitRate) (net_bitrate : option BitRate)
| AlarmWarning (status : RangeStatus) (bitrate : BitRate)
| AlarmCommand (state_change : bool) (status : RangeStatus)
    (bitrate min max net_bitrate : BitRate).

(** Working data.  [stats] and [net_stats] are the values fed to the
    statistics, oldest first; [last_second] is a reading of the monotonic
    clock, in nanoseconds; [packet_timeout] is what [setPacketTimeout]
    last asked for. *)
Record Work : Type := mkWork {
  bitrate_countdown : Z;
  command_countdown : Z;
  last_bitrate_status : RangeStatus;
  last_second : Z;
  startup : bool;
  periods_index : nat;
  periods : list Period;
  labels_next : Z;
  stats : list Z;
  net_stats : list Z;
  packet_timeout : Z;
  outputs : list Output
}.

(** *** start *)

Definition start (o : Options) (now : Z) (w : Work) : bool * Work :=
  (true,
   mkWork (periodic_bitrate o) (periodic_command o) IN_RANGE now true 0
     (replicate (Z.to_nat (window_size o)) Period_clear)
     0 [] [] MilliSecPerSec (outputs w)).

(** *** computeBitrate *)

(** "Compute total duration and packets": the loop over [_periods]. *)
Definition window_totals (ps : list Period) : Z * Z * Z :=
  fold_left
    (fun acc p =>
       let '(d, total_pkt_count, non_null_count) := acc in
       (d + duration p, uint64 (total_pkt_count + packets p),
        uint64 (non_null_count + non_null p)))
    ps (0, 0, 0).

(** The bitrate of [count] packets in [duration_us] microseconds. *)
Definition bitrate_of (count duration_us : Z) : BitRate :=
  if 0 <? duration_us then
    br_div (br_mul (br_mul (br_of_int count) PKT_SIZE_BITS) MicroSecPerSec)
      duration_us
  else br_of_int 0.

(** The bitrate and the net bitrate of the window. *)
Definition window_bitrates (ps : list Period) : BitRate * BitRate :=
  let '(d, total_pkt_count, non_null_count) := window_totals ps in
  let duration_us := Z.quot d NanoSecPerMicroSec in
  (bitrate_of total_pkt_count duration_us,
   bitrate_of non_null_count duration_us).

Definition range_status (o : Options) (bitrate : BitRate) : RangeStatus :=
  if br_ltb bitrate (min_bitrate o) then LOWER
  else if br_ltb (max_bitrate o) bitrate then GREATER
  else IN_RANGE.

(** [period > 0 && --countdown <= 0]: the new countdown and the test. *)
Definition tick_countdown (period countdown : Z) : Z * bool :=
  if 0 <? period then
    if countdown - 1 <=? 0 then (period, true) else (countdown - 1, false)
  else (countdown, false).

Definition go_labels (o : Options) (st : RangeStatus) : Z :=
  match st with
  | LOWER => labels_go_below o
  | IN_RANGE => labels_go_normal o
  | GREATER => labels_go_above o
  end.

(** What [computeBitrate] does with the bitrates it computed. *)
Definition report_bitrates (o : Options) (bitrate net_bitrate : BitRate)
    (w : Work) : Work :=
  let stats' := if summary o then stats w ++ [br_toInt64 bitrate] else stats w in
  let net_stats' :=
    if summary o then net_stats w ++ [br_toInt64 net_bitrate] else net_stats w in
  let new_bitrate_status := range_status o bitrate in
  let '(bitrate_countdown', display) :=
    tick_countdown (periodic_bitrate o) (bitrate_countdown w) in
  let out1 :=
    if display then
      [InfoBitrate bitrate (if full_ts o then Some net_bitrate else None)]
    else [] in
  let '(command_countdown', run_command) :=
    tick_countdown (periodic_command o) (command_countdown w) in
  let state_change :=
    negb (RangeStatus_eqb new_bitrate_status (last_bitrate_status w)) in
  if state_change || run_command then
    let labels_next' :=
      if state_change then Z.lor (labels_next w) (go_labels o new_bitrate_status)
      else labels_next w in
    let out2 :=
      if state_change then [AlarmWarning new_bitrate_status bitrate] else [] in
    let out3 :=
      if decide (alarm_command o = "") then []
      else [AlarmCommand state_change new_bitrate_status bitrate
              (min_bitrate o) (max_bitrate o) net_bitrate] in
    mkWork bitrate_countdown' command_countdown' new_bitrate_status
      (last_second w) (startup w) (periods_index w) (periods w) labels_next'
      stats' net_stats' (packet_timeout w) (outputs w ++ out1 ++ out2 ++ out3)
  else
    mkWork bitrate_countdown' command_countdown' (last_bitrate_status w)
      (last_second w) (startup w) (periods_index w) (periods w) (labels_next w)
      stats' net_stats' (packet_timeout w) (outputs w ++ out1).

Definition computeBitrate (o : Options) (w : Work) : Work :=
  let '(bitrate, net_bitrate) := window_bitrates (periods w) in
  report_bitrates o bitrate net_bitrate w.

(** *** checkTime *)

Definition set_periods (ps : list Period) (last : Z) (w : Work) : Work :=
  mkWork (bitrate_countdown w) (command_countdown w) (last_bitrate_status w)
    last (startup w) (periods_index w) ps (labels_next w)
    (stats w) (net_stats w) (packet_timeout w) (outputs w).

(** "update index, and reset packet count", then "we are no more at
    startup if the index cycles". *)
Definition next_period (w : Work) : Work :=
  let index := ((periods_index w + 1) mod length (periods w))%nat in
  mkWork (bitrate_countdown w) (command_countdown w) (last_bitrate_status w)
    (last_second w)
    (if startup w then negb (index =? 0)%nat else false)
    index
    (<[index := Period_clear]> (periods w))
    (labels_next w) (stats w) (net_stats w) (packet_timeout w) (outputs w).

(** [now] is the reading of the monotonic clock which the call makes.
    [None]: [_periods] has no element at [_periods_index]. *)
Definition checkTime (o : Options) (now : Z) (w : Work) : option Work :=
  let since_last_second := now - last_second w in
  if NanoSecPerSec <=? since_last_second then
    match periods w !! periods_index w with
    | None => None
    | Some p =>
        let w1 :=
          set_periods
            (<[periods_index w :=
                 mkPeriod since_last_second (packets p) (non_null p)]>
               (periods w))
            now w in
        let w2 := if startup w1 then w1 else computeBitrate o w1 in
        Some (next_period w2)
    end
  else Some w.

(** *** handlePacketTimeout and processPacket *)

Definition handlePacketTimeout (o : Options) (now : Z) (w : Work)
    : option (bool * Work) :=
  match checkTime o now w with
  | Some w' => Some (true, w')
  | None => None
  end.

Definition state_labels (o : Options) (st : RangeStatus) : Z :=
  match st with
  | LOWER => labels_below o
  | IN_RANGE => labels_normal o
  | GREATER => labels_above o
  end.

Definition count_packet (pid : Z) (p : Period) : Period :=
  mkPeriod (duration p) (uint64 (packets p + 1))
    (if pid =? PID_NULL then non_null p else uint64 (non_null p + 1)).

(** Returns the labels of the packet after the call (the status is always
    [TSP_OK]) and the new working data. *)
Definition processPacket (o : Options) (pid pkt_labels now : Z) (w : Work)
    : option (Z * Work) :=
  let counted :=
    if pids o pid then
      match periods w !! periods_index w with
      | None => None
      | Some p =>
          Some (set_periods
                  (<[periods_index w := count_packet pid p]> (periods w))
                  (last_second w) w)
      end
    else Some w in
  match counted with
  | None => None
  | Some w0 =>
      match checkTime o now w0 with
      | None => None
      | Some w1 =>
          Some (Z.lor (Z.lor pkt_labels (labels_next w1))
                  (state_labels o (last_bitrate_status w1)),
                mkWork (bitrate_countdown w1) (command_countdown w1)
                  (last_bitrate_status w1) (last_second w1) (startup w1)
                  (periods_index w1) (periods w1) 0 (stats w1) (net_stats w1)
                  (packet_timeout w1) (outputs w1))
      end
  end.

(** The working data of a started plugin: after [start], then any
    sequence of packets and packet timeouts. *)
Inductive running (o : Options) : Work -> Prop :=
| run_start now w w' :
    start o now w = (true, w') -> running o w'
| run_packet pid pkt_labels now w l w' :
    running o w ->
    processPacket o pid pkt_labels now w = Some (l, w') ->
    running o w'
| run_timeout now w w' :
    running o w ->
    handlePacketTimeout o now w = Some (true, w') ->
    running o w'.

(** *** Vocabulary of the properties *)

Definition total_duration (ps : list Period) : Z :=
  foldr (fun p acc => duration p + acc) 0 ps.

Definition total_packets (ps : list Period) : Z :=
  foldr (fun p acc => packets p + acc) 0 ps.

Definition total_non_null (ps : list Period) : Z :=
  foldr (fun p acc => non_null p + acc) 0 ps.

(** The buckets which a whole second has filled: all of them once the
    start-up is over, except the current one, which is being filled. *)
Definition window_filled (o : Options) (w : Work) : Prop :=
  length (periods w) = Z.to_nat (window_size o)
  /\ (periods_index w < length (periods w))%nat
  /\ forall j p, periods w !! j = Some p ->
       (if startup w then (j < periods_index w)%nat else j <> periods_index w) ->
       NanoSecPerSec <= duration p.

(** During the start-up the buckets from the current one on have not been
    filled yet. *)
Definition startup_unfilled (w : Work) : Prop :=
  startup w = true ->
  forall j p, periods w !! j = Some p -> (periods_index w <= j)%nat -> duration p = 0.

(** The counters of the buckets are unsigned. *)
Definition counters_unsigned (w : Work) : Prop :=
  Forall (fun p => 0 <= packets p /\ 0 <= non_null p) (periods w).

End Plugin.

Arguments Options BitRate : clear implicits.
Arguments Work BitRate : clear implicits.
Arguments Output BitRate : clear implicits.

(** A monitor of the whole TS over a window of two seconds, integer
    bitrates between 1 and 10 Mb/s, with a final summary. *)
Definition monitor : Options Z :=
  mkOptions true true (fun _ => true) 1000000 10000000 0 0 2 "" 0 0 0 0 0 0.

(** The same monitor with [--time-interval 0]. *)
Definition monitor_no_window : Options Z :=
  mkOptions true true (fun _ => true) 1000000 10000000 0 0 0 "" 0 0 0 0 0 0.

(** The same monitor with [--periodic-bitrate 3]. *)
Definition monitor_periodic : Options Z :=
  mkOptions true true (fun _ => true) 1000000 10000000 3 0 2 "" 0 0 0 0 0 0.

(** The same monitor with one label for each state (labels 0, 1, 2) and
    one for each change of state (labels 3, 4, 5). *)
Definition monitor_labels : Options Z :=
  mkOptions true true (fun _ => true) 1000000 10000000 0 0 2 "" 1 2 4 8 16 32.

Definition stopped : Work Z :=
  mkWork 0 0 LOWER 0 false 0 [] 0 [] [] 0 [].

Definition after_timeout (now : Z) (w : Work Z) : Work Z :=
  match handlePacketTimeout monitor now w with
  | Some (_, w') => w'
  | None => w
  end.

Definition after_packet (pid now : Z) (w : Work Z) : Work Z :=
  match processPacket monitor pid 0 now w with
  | Some (_, w') => w'
  | None => w
  end.

(** Started at 0; one second without packet; two packets during the next
    second; one packet at 2.5 s. *)
Definition monitored : Work Z :=
  after_packet 0x100 2500000000
    (after_timeout 2000000000
       (after_packet 0x100 1400000000
          (after_packet 0x100 1200000000
             (after_timeout 1000000000 (start monitor 0 stopped).2)))).

(** The monitor with labels, started at 0, after two seconds without
    packet: the window is filled and the status is still the initial one. *)
Definition labelled : Work Z :=
  match handlePacketTimeout monitor_labels 1000000000
          (start monitor_labels 0 stopped).2 with
  | Some (_, w1) =>
      match handlePacketTimeout monitor_labels 2000000000 w1 with
      | Some (_, w2) => w2
      | None => w1
      end
  | None => stopped
  end.

End BitrateMonitor.

(** ** The store of logical channel numbers *)

Module LCN.

Record LCN : Type := mkLCN {
  lcn : Z;
  ts_id : Z;
  onet_id : Z;
  visible : bool
}.

(** A [std::multimap<uint16_t,LCN>]: the entries by increasing service id,
    entries of the same service id in the order of their insertion.  An
    iterator is a position in the list, [end()] is [None]. *)
Definition LCNMap : Type := list (Z * LCN).

(** [lower_bound(k)]: the first position whose key is not less than [k]. *)
Fixpoint lower_bound (m : LCNMap) (k : Z) : nat :=
  match m with
  | [] => 0
  | (k', _) :: m' => if k' <? k then S (lower_bound m' k) else 0
  end.

(** [insert]: after the last entry whose key is not greater. *)
Fixpoint insert (k : Z) (e : LCN) (m : LCNMap) : LCNMap :=
  match m with
  | [] => [(k, e)]
  | (k', e') :: m' =>
      if k' <=? k then (k', e') :: insert k e m' else (k, e) :: m
  end.

(** The loop of [addLCN] over the entries of service [srv_id], from [it]. *)
Fixpoint addLCN_loop (lcn_arg srv_id ts onet : Z) (vis : bool) (it : LCNMap)
    : option LCNMap :=
  match it with
  | [] => None
  | (k, e) :: it' =>
      if k =? srv_id then
        if (ts_id e =? ts) && (onet_id e =? onet) then
          Some ((k, mkLCN lcn_arg (ts_id e) (onet_id e) vis) :: it')
        else
          match addLCN_loop lcn_arg srv_id ts onet vis it' with
          | Some it'' => Some ((k, e) :: it'')
          | None => None
          end
      else None
  end.

Definition addLCN (lcn_arg srv_id ts onet : Z) (vis : bool) (m : LCNMap) : LCNMap :=
  let b := lower_bound m srv_id in
  match addLCN_loop lcn_arg srv_id ts onet vis (drop b m) with
  | Some updated => take b m ++ updated
  | None => insert srv_id (mkLCN lcn_arg ts onet vis) m
  end.

(** The loop of [findLCN]: [it] is the position of the head of [rest],
    [result] the possible match kept so far. *)
Fixpoint findLCN_loop (srv_id ts onet : Z) (it : nat) (rest : LCNMap)
    (result : option nat) : option nat :=
  match rest with
  | [] => result
  | (k, e) :: rest' =>
      if k =? srv_id then
        if ts_id e =? ts then
          if onet_id e =? onet then Some it
          else if onet_id e =? 0xFFF then
            findLCN_loop srv_id ts onet (S it) rest' (Some it)
          else findLCN_loop srv_id ts onet (S it) rest' result
        else findLCN_loop srv_id ts onet (S it) rest' result
      else result
  end.

Definition findLCN (m : LCNMap) (srv_id ts onet : Z) : option nat :=
  let b := lower_bound m srv_id in
  findLCN_loop srv_id ts onet b (drop b m) None.

Definition getLCN (m : LCNMap) (srv_id ts onet : Z) : Z :=
  match findLCN m srv_id ts onet with
  | None => 0xFFFF
  | Some it =>
      match m !! it with
      | Some (_, e) => lcn e
      | None => 0xFFFF
      end
  end.

Definition getVisible (m : LCNMap) (srv_id ts onet : Z) : bool :=
  match findLCN m srv_id ts onet with
  | None => true
  | Some it =>
      match m !! it with
      | Some (_, e) => visible e
      | None => true
      end
  end.

(** [clear()], [empty()] and [size()]. *)
Definition clear : LCNMap := [].

Definition empty (m : LCNMap) : bool :=
  match m with [] => true | _ => false end.

Definition size (m : LCNMap) : Z := Z.of_nat (length m).

(** The order which a [std::multimap] keeps: the keys never decrease. *)
Fixpoint sorted (m : LCNMap) : Prop :=
  match m with
  | [] => True
  | p :: m' => Forall (fun q => fst p <= fst q) m' /\ sorted m'
  end.

(** The DVB triplets (service id, TS id, original network id) of the
    entries. *)
Definition triplets (m : LCNMap) : list (Z * Z * Z) :=
  (fun p => (fst p, ts_id (snd p), onet_id (snd p))) <$> m.

(** The entry which an iterator points to ([end()] points to none). *)
Definition entry_at (m : list (Z * LCN)) (it : option nat) : option LCN :=
  match it with
  | Some i => snd <$> m !! i
  | None => None
  end.

(** The entries of one service id, in the order of the store. *)
Definition service_entries (m : list (Z * LCN)) (srv_id : Z) : list LCN :=
  snd <$> filter (fun p => fst p = srv_id) m.

(** What the loop of [findLCN] settles on among the entries of one
    service id: the first entry of the TS with the original network id
    asked for and, when there is none, the last one of the TS whose
    original network id is 0xFFF. *)
Fixpoint pick (es : list LCN) (ts onet : Z) (result : option LCN) : option LCN :=
  match es with
  | [] => result
  | e :: es' =>
      if ts_id e =? ts then
        if onet_id e =? onet then Some e
        else if onet_id e =? 0xFFF then pick es' ts onet (Some e)
        else pick es' ts onet result
      else pick es' ts onet result
  end.

(** What [addLCN] does to the entries of the service id it is given: the
    first entry of the same TS and original network id gets the new LCN
    and visibility; when there is none, a new entry comes last. *)
Fixpoint updated (lcn_arg ts onet : Z) (vis : bool) (es : list LCN) : list LCN :=
  match es with
  | [] => [mkLCN lcn_arg ts onet vis]
  | e :: es' =>
      if (ts_id e =? ts) && (onet_id e =? onet)
      then mkLCN lcn_arg (ts_id e) (onet_id e) vis :: es'
      else e :: updated lcn_arg ts onet vis es'
  end.

(** The three parts of a sorted store around one service id. *)
Definition keys_below (srv : Z) (lo : LCNMap) : Prop :=
  Forall (fun p => fst p < srv) lo.
Definition keys_equal (srv : Z) (mid : LCNMap) : Prop :=
  Forall (fun p => fst p = srv) mid.
Definition keys_above (srv : Z) (hi : LCNMap) : Prop :=
  Forall (fun p => srv < fst p) hi.

(** The entries [mid] of one service id after [addLCN], as pairs. *)
Definition updated_pairs (l srv ts onet : Z) (vis : bool) (mid : LCNMap) : LCNMap :=
  match addLCN_loop l srv ts onet vis mid with
  | Some mid' => mid'
  | None => mid ++ [(srv, mkLCN l ts onet vis)]
  end.

(** *** getLCNs *)

(** A [ServiceIdTriplet]; its constructor, of a header which is not part
    of the sources, takes the service id, the TS id and the original network
    id in this order. *)
Record ServiceIdTriplet : Type := mkServiceIdTriplet {
  service_id : Z;
  transport_stream_id : Z;
  original_network_id : Z
}.

(** The filter of [getLCNs]: 0xFFFF matches anything, on both sides. *)
Definition lcn_selected (ts onet : Z) (e : LCN) : bool :=
  ((ts =? 0xFFFF) || (ts_id e =? 0xFFFF) || (ts =? ts_id e))
  && ((onet =? 0xFFFF) || (onet_id e =? 0xFFFF) || (onet =? onet_id e)).

(** [std::map::insert]: a key which is present keeps its value. *)
Definition map_insert {V} (k : Z) (v : V) (mp : gmap Z V) : gmap Z V :=
  match mp !! k with
  | Some _ => mp
  | None => <[k := v]> mp
  end.

Definition getLCNs_step (ts onet : Z) (lcns : gmap Z ServiceIdTriplet)
    (it : Z * LCN) : gmap Z ServiceIdTriplet :=
  if lcn_selected ts onet (snd it)
  then map_insert (lcn (snd it))
         (mkServiceIdTriplet (fst it) (ts_id (snd it)) (onet_id (snd it))) lcns
  else lcns.

(** [getLCNs(lcns, ts_id, onet_id)]: the value of [lcns] on return. *)
Definition getLCNs (m : LCNMap) (ts onet : Z) : gmap Z ServiceIdTriplet :=
  foldl (getLCNs_step ts onet) ∅ m.

(** *** addFromAbstractLCN *)

(** What [addFromAbstractLCN] reads of an entry of an
    [AbstractLogicalChannelDescriptor], a class of a header which is not
    part of the sources. *)
Record Entry : Type := mkEntry {
  entry_service_id : Z;
  entry_visible : bool;
  entry_lcn : Z
}.

(** [valid] is [desc.isValid()] and [entries] is [desc.entries]; returns
    the count and the store. *)
Definition addFromAbstractLCN (valid : bool) (entries : list Entry)
    (ts onet : Z) (m : LCNMap) : Z * LCNMap :=
  if valid then
    foldl (fun acc it =>
             (size_t (fst acc + 1),
              addLCN (entry_lcn it) (entry_service_id it) ts onet
                (entry_visible it) (snd acc)))
      (0, m) entries
  else (0, m).

(** Service 100 on TS 1 with an unspecified original network id. *)
Definition store : LCNMap := addLCN 7 100 1 0xFFFF true [].

End LCN.

(** * Properties of the executor ring *)

Section RingFacts.

Import Tsp.

Context {BitRate BitRateConfidence : Type}.

Implicit Types (r : Tsp.Ring BitRate BitRateConfidence)
  (e s n me nx : Tsp.Executor BitRate BitRateConfidence) (i j k : nat).

Local Abbreviation raising := (@only_raises BitRate BitRateConfidence _).

Lemma ringNext_lt (len i : nat) : (0 < len)%nat -> (ringNext len i < len)%nat.
Proof. intros H. unfold ringNext. case_decide; lia. Qed.

Lemma passPackets_run r i s n count br conf ie ab :
  let j := ringNext (length (stages r)) i in
  stages r !! i = Some s ->
  stages r !! j = Some n ->
  j <> i ->
  count <= pkt_cnt s ->
  buffer_count s <> 0 ->
  exists r',
    passPackets i count br conf ie ab r
      = Ok (negb ie && negb (effective_abort ab s n), r')
    /\ stages r' = <[i := passed_self count (effective_abort ab s n) s]>
                     (<[j := passed_next count br conf ie n]> (stages r)).
Proof.
  intros j Hi Hj Hne Hcnt HB.
  assert (Hil : (i < length (stages r))%nat) by (eapply lookup_lt_Some; eauto).
  assert (Hjl : (j < length (stages r))%nat) by (eapply lookup_lt_Some; eauto).
  unfold passPackets, bind, self, update, ring_size, when, fault, ret, notify_one.
  rewrite Hi.
  destruct (count <=? pkt_cnt s) eqn:E; [|lia]. simpl.
  destruct (buffer_count s =? 0) eqn:E0; [lia|]. simpl.
  rewrite Hi. simpl.
  rewrite list_lookup_insert_eq by done. simpl.
  rewrite !length_insert. fold j.
  rewrite list_lookup_insert_ne by done.
  rewrite list_lookup_insert_ne by done.
  rewrite Hj. simpl.
  rewrite list_lookup_insert_eq by (rewrite !length_insert; done). simpl.
  rewrite list_lookup_insert_eq by (rewrite !length_insert; done). simpl.
  rewrite !list_insert_insert_eq.
  set (s1 := set_pkt_cnt _ (set_pkt_first _ s)).
  set (n1 := set_input_end _ _).
  assert (Hs1 : forall nt, mkRing (<[j:=n1]> (<[i:=s1]> (stages r))) nt
                  = mkRing (<[j:=n1]> (<[i:=s1]> (stages r))) nt) by done.
  assert (Hl1 : <[j:=n1]> (<[i:=s1]> (stages r)) !! i = Some s1).
  { rewrite list_lookup_insert_ne by done. by apply list_lookup_insert_eq. }
  assert (Hl2 : <[j:=n1]> (<[i:=s1]> (stages r)) !! j = Some n1).
  { apply list_lookup_insert_eq. by rewrite length_insert. }
  assert (Heff : (if is_output (plugin_type s1) then ab else ab || tsp_aborting n1)
                 = effective_abort ab s n) by done.
  destruct ((0 <? count) || ie);
    do 3 (cbn beta iota; cbn [stages notified]; rewrite ?Hl1, ?Hl2);
    rewrite Heff;
    destruct (effective_abort ab s n) eqn:Eeff;
    do 3 (cbn beta iota; cbn [stages notified]; rewrite ?Hl1, ?Hl2);
    (eexists; split; [reflexivity|]); cbn [stages];
    rewrite (list_insert_insert_ne _ j i) by done;
    rewrite ?list_insert_insert_eq;
    f_equal; unfold passed_self, s1; destruct s; cbn;
    rewrite ?orb_true_r, ?orb_false_r; reflexivity.
Qed.

Lemma size_t_small z : 0 <= z < SIZE_MAX1 -> size_t z = z.
Proof. intros H. unfold size_t. by apply Z.mod_small. Qed.

Lemma buffer_fits_twice B : buffer_fits B -> 0 < B /\ 2 * B < SIZE_MAX1.
Proof. unfold buffer_fits, PKT_SIZE. lia. Qed.

(** C1: in a ring whose windows lie in the buffer, [passPackets] called by
    stage [s] with [count <= s.count] sets [s.first] to
    [(s.first + count) mod B], takes [count] from [s.count], adds it to
    [next(s).count], overwrites the bitrate and confidence of [next(s)],
    OR-accumulates [input_end] into [next(s).input_end], leaves every
    other stage as it is, and returns true if and only if [input_end] is
    false and the effective abort flag is false. *)
Theorem passPackets_effect B r i s n count br conf ie ab :
  buffer_fits B ->
  window_fits B s ->
  window_fits B n ->
  stages r !! i = Some s ->
  stages r !! ringNext (length (stages r)) i = Some n ->
  ringNext (length (stages r)) i <> i ->
  0 <= count <= pkt_cnt s ->
  exists res r' s' n',
    passPackets i count br conf ie ab r = Ok (res, r')
    /\ stages r' !! i = Some s'
    /\ stages r' !! ringNext (length (stages r)) i = Some n'
    /\ pkt_first s' = (pkt_first s + count) mod B
    /\ pkt_cnt s' = pkt_cnt s - count
    /\ pkt_cnt n' = pkt_cnt n + count
    /\ pkt_first n' = pkt_first n
    /\ bitrate n' = br
    /\ br_confidence n' = conf
    /\ input_end n' = input_end n || ie
    /\ input_end s' = input_end s
    /\ tsp_aborting n' = tsp_aborting n
    /\ (forall k, k <> i -> k <> ringNext (length (stages r)) i ->
          stages r' !! k = stages r !! k)
    /\ (res = true <-> ie = false /\ effective_abort ab s n = false).
Proof.
  intros HB (HsB & Hsf & Hsc) (HnB & Hnf & Hnc) Hi Hj Hne Hcount.
  apply buffer_fits_twice in HB as [HB0 HB2].
  destruct (passPackets_run r i s n count br conf ie ab Hi Hj Hne)
    as (r' & Hrun & Hst); [lia | lia |].
  assert (Hil : (i < length (stages r))%nat) by (eapply lookup_lt_Some; eauto).
  assert (Hjl : (ringNext (length (stages r)) i < length (stages r))%nat)
    by (eapply lookup_lt_Some; eauto).
  exists (negb ie && negb (effective_abort ab s n)), r',
    (passed_self count (effective_abort ab s n) s),
    (passed_next count br conf ie n).
  split; [exact Hrun|]. rewrite Hst.
  split; [apply list_lookup_insert_eq; by rewrite length_insert|].
  split; [rewrite list_lookup_insert_ne by done; by apply list_lookup_insert_eq|].
  cbn. rewrite !size_t_small by lia. rewrite HsB.
  repeat (split; [reflexivity|]).
  split.
  - intros k Hki Hkj. by rewrite !list_lookup_insert_ne.
  - destruct ie, (effective_abort ab s n); cbn; intuition congruence.
Qed.


(** *** Monotony of the flags *)

Lemma flags_le_refl e : flags_le e e.
Proof. by repeat split. Qed.

Lemma ring_flags_le_refl r : ring_flags_le r r.
Proof.
  split; [done|]. intros k e Hk. exists e. split; [done | apply flags_le_refl].
Qed.

Lemma ring_flags_le_trans r1 r2 r3 :
  ring_flags_le r1 r2 -> ring_flags_le r2 r3 -> ring_flags_le r1 r3.
Proof.
  intros [Hl12 H12] [Hl23 H23]. split; [congruence|]. intros k e Hk.
  destruct (H12 k e Hk) as (e2 & Hk2 & (Ht & HB & Hto & Ha & Hb)).
  destruct (H23 k e2 Hk2) as (e3 & Hk3 & (Ht' & HB' & Hto' & Hc & Hd)).
  exists e3. split; [done|]. repeat split; try congruence; auto.
Qed.

Lemma raising_ret {A} (a : A) : raising (ret a).
Proof. intros r a' r' [= _ <-]. apply ring_flags_le_refl. Qed.

Lemma raising_fault {A} : raising (@fault _ _ A).
Proof. intros r a r' [=]. Qed.

Lemma raising_bind {A B} (m : M _ _ A) (f : A -> M _ _ B) :
  raising m -> (forall a, raising (f a)) -> raising (bind m f).
Proof.
  intros Hm Hf r b r'. unfold bind.
  destruct (m r) as [[a r1]| |] eqn:E; [|done..].
  intros Hk. eapply ring_flags_le_trans; [eapply Hm, E | eapply Hf, Hk].
Qed.

Lemma raising_self i : raising (self i).
Proof.
  intros r a r'. unfold self. destruct (stages r !! i); [|done].
  intros [= _ <-]. apply ring_flags_le_refl.
Qed.

Lemma raising_ring_size : raising (@ring_size BitRate BitRateConfidence).
Proof. intros r a r' [= _ <-]. apply ring_flags_le_refl. Qed.

Lemma raising_notify_one i : raising (notify_one i).
Proof. intros r a r' [= _ <-]. apply (ring_flags_le_refl r). Qed.

Lemma raising_update i f :
  (forall e, flags_le e (f e)) -> raising (update i f).
Proof.
  intros Hf r a r'. unfold update.
  destruct (stages r !! i) as [e|] eqn:Hi; [|done].
  intros [= _ <-]. split; [apply length_insert|]. intros k e0 Hk. cbn.
  destruct (decide (i = k)) as [->|Hne].
  - exists (f e). rewrite list_lookup_insert_eq by (eapply lookup_lt_Some; eauto).
    split; [done|]. replace e0 with e by congruence. apply Hf.
  - exists e0. rewrite list_lookup_insert_ne by done.
    split; [done | apply flags_le_refl].
Qed.

Lemma raising_when b (m : M _ _ unit) : raising m -> raising (when b m).
Proof. intros Hm. destruct b; [exact Hm | apply raising_ret]. Qed.

Lemma raising_if {A} (b : bool) (m1 m2 : M _ _ A) :
  raising m1 -> raising m2 -> raising (if b then m1 else m2).
Proof. by destruct b. Qed.

Create HintDb raising.
Hint Resolve raising_ret raising_fault raising_self raising_ring_size
  raising_notify_one raising_when raising_if : raising.

Ltac raising_step :=
  cbv zeta;
  first
    [ apply raising_bind; [|intros ?]
    | apply raising_when
    | apply raising_update; intros ?; repeat split; cbn;
      solve [ reflexivity | auto | intros ->; reflexivity ]
    | progress auto with raising ].

Lemma raising_setAbort i : raising (setAbort i).
Proof. unfold setAbort. repeat raising_step. Qed.

Lemma raising_passPackets i count br conf ie ab :
  raising (passPackets i count br conf ie ab).
Proof.
  unfold passPackets.
  apply raising_bind; [auto with raising | intros me].
  apply raising_if; [auto with raising|].
  apply raising_if; [auto with raising|].
  repeat raising_step.
Qed.

Lemma raising_run_op o : raising (run_op o).
Proof.
  destruct o; cbn.
  - apply raising_bind; [apply raising_passPackets | intros; apply raising_ret].
  - apply raising_setAbort.
Qed.

Lemma raising_run_ops os : raising (run_ops os).
Proof.
  induction os as [|o os IH]; cbn; [apply raising_ret|].
  apply raising_bind; [apply raising_run_op | intros _; exact IH].
Qed.

Lemma raising_wait_loop Infinite i min_pkt_cnt wakes :
  forall timeout, raising (wait_loop Infinite i min_pkt_cnt timeout wakes).
Proof.
  induction wakes as [|w wakes IH]; intros timeout; cbn;
    repeat (apply raising_bind; [auto with raising | intros ?]);
    apply raising_if; auto with raising.
  - intros ? ? ? [=].
  - apply raising_bind; [apply raising_run_ops | intros _; apply IH].
Qed.

Lemma raising_waitWork Infinite i min_pkt_cnt wakes :
  raising (waitWork Infinite i min_pkt_cnt wakes).
Proof.
  unfold waitWork.
  apply raising_bind; [auto with raising | intros me0].
  apply raising_bind; [apply raising_wait_loop | intros timeout].
  repeat raising_step.
Qed.

(** C3: along any sequence of executor operations ([passPackets],
    [waitWork] together with what the other executors do while it waits,
    [setAbort]), the flags [input_end] and [aborting] of every stage only
    go from false to true. *)
Theorem flags_monotonic Infinite r r' k e :
  rtc (executor_step Infinite) r r' ->
  stages r !! k = Some e ->
  exists e',
    stages r' !! k = Some e'
    /\ (input_end e = true -> input_end e' = true)
    /\ (tsp_aborting e = true -> tsp_aborting e' = true).
Proof.
  intros Hrun. revert e.
  induction Hrun as [r | r1 r2 r3 Hstep _ IH]; intros e Hk.
  - exists e. by repeat split.
  - assert (Hle : ring_flags_le r1 r2).
    { destruct Hstep as [i count br conf ie ab res H | i H | i m wakes w H].
      - eapply raising_passPackets, H.
      - eapply raising_setAbort, H.
      - eapply raising_waitWork, H. }
    destruct (proj2 Hle k e Hk) as (e2 & Hk2 & (_ & _ & _ & Ha & Hb)).
    destruct (IH e2 Hk2) as (e3 & Hk3 & Hc & Hd).
    exists e3. repeat split; auto.
Qed.

(** *** The windows *)

Lemma total_count_insert (l : list (Tsp.Executor BitRate BitRateConfidence)) i e x :
  l !! i = Some e ->
  total_count (<[i := x]> l) = total_count l - pkt_cnt e + pkt_cnt x.
Proof.
  revert i. induction l as [|a l IH]; intros [|i] Hi; try done.
  - injection Hi as ->. cbn. lia.
  - change (pkt_cnt a + total_count (<[i := x]> l)
            = pkt_cnt a + total_count l - pkt_cnt e + pkt_cnt x).
    rewrite (IH i Hi). lia.
Qed.

Lemma total_count_nonneg (l : list (Tsp.Executor BitRate BitRateConfidence)) :
  Forall (fun e => 0 <= pkt_cnt e) l -> 0 <= total_count l.
Proof.
  induction 1 as [|e l He _ IH]; [cbn; lia|].
  change (0 <= pkt_cnt e + total_count l). lia.
Qed.

Lemma total_count_two (l : list (Tsp.Executor BitRate BitRateConfidence)) i j s n :
  Forall (fun e => 0 <= pkt_cnt e) l ->
  l !! i = Some s -> l !! j = Some n -> i <> j ->
  pkt_cnt s + pkt_cnt n <= total_count l.
Proof.
  intros Hall Hi Hj Hne.
  pose (s0 := set_pkt_cnt 0 s). pose (n0 := set_pkt_cnt 0 n).
  assert (H1 : total_count (<[j := n0]> (<[i := s0]> l))
               = total_count l - pkt_cnt s - pkt_cnt n).
  { rewrite (total_count_insert _ j n) by (by rewrite list_lookup_insert_ne).
    rewrite (total_count_insert _ i s) by done. cbn. lia. }
  assert (H2 : 0 <= total_count (<[j := n0]> (<[i := s0]> l))).
  { apply total_count_nonneg. by repeat apply Forall_insert. }
  lia.
Qed.

Lemma ringNext_inj len i k :
  (i < len)%nat -> (k < len)%nat -> ringNext len i = ringNext len k -> i = k.
Proof. unfold ringNext. intros Hi Hk. repeat case_decide; lia. Qed.

Lemma ringNext_ne len i : (2 <= len)%nat -> ringNext len i <> i.
Proof. unfold ringNext. intros Hlen. case_decide; lia. Qed.

(** [passPackets] returns only when the caller exists, owns [count]
    packets and has a buffer. *)
Lemma passPackets_Ok_inv r i count br conf ie ab res r' :
  passPackets i count br conf ie ab r = Ok (res, r') ->
  exists s, stages r !! i = Some s /\ count <= pkt_cnt s /\ buffer_count s <> 0.
Proof.
  unfold passPackets, bind, self, fault.
  destruct (stages r !! i) as [s|]; [|done].
  destruct (count <=? pkt_cnt s) eqn:E; [|done]. cbn.
  destruct (buffer_count s =? 0) eqn:E0; [done|].
  intros _. exists s. repeat split; lia.
Qed.

Lemma passPackets_keeps_inv B r i count br conf ie ab res r' :
  buffer_fits B ->
  ring_inv B r ->
  0 <= count ->
  passPackets i count br conf ie ab r = Ok (res, r') ->
  ring_inv B r'.
Proof.
  intros HB (Hlen & Hfit & Htot & Hpre) Hc0 Hrun.
  apply buffer_fits_twice in HB as [HB0 HB2].
  destruct (passPackets_Ok_inv _ _ _ _ _ _ _ _ _ Hrun) as (s & Hi & Hcs & HBs).
  set (j := ringNext (length (stages r)) i) in *.
  assert (Hil : (i < length (stages r))%nat) by (eapply lookup_lt_Some; eauto).
  assert (Hjl : (j < length (stages r))%nat) by (apply ringNext_lt; lia).
  assert (Hne : j <> i) by (by apply ringNext_ne).
  destruct (lookup_lt_is_Some_2 _ _ Hjl) as [n Hj].
  destruct (passPackets_run r i s n count br conf ie ab Hi Hj Hne Hcs HBs)
    as (r'' & Hrun' & Hst).
  rewrite Hrun in Hrun'. injection Hrun' as _ <-.
  pose proof (proj1 (Forall_lookup _ _) Hfit) as Hfit'.
  destruct (Hfit' _ _ Hi) as (HsB & Hsf & Hsc).
  destruct (Hfit' _ _ Hj) as (HnB & Hnf & Hnc).
  assert (Hsum : pkt_cnt s + pkt_cnt n <= B).
  { rewrite <- Htot. apply (total_count_two _ i j); auto.
    eapply Forall_impl; [exact Hfit|]. intros e (_ & _ & ?). lia. }
  assert (Hlook : forall k, stages r' !! k =
            if decide (k = i) then Some (passed_self count (effective_abort ab s n) s)
            else if decide (k = j) then Some (passed_next count br conf ie n)
            else stages r !! k).
  { intros k. rewrite Hst. repeat case_decide; subst.
    - apply list_lookup_insert_eq. by rewrite length_insert.
    - rewrite list_lookup_insert_ne by done. by apply list_lookup_insert_eq.
    - by rewrite !list_lookup_insert_ne. }
  assert (Hlen' : length (stages r') = length (stages r))
    by (by rewrite Hst, !length_insert).
  assert (Hs'f : pkt_first (passed_self count (effective_abort ab s n) s)
                 = (pkt_first s + count) mod B).
  { cbn. rewrite size_t_small by lia. by rewrite HsB. }
  assert (Hs'c : pkt_cnt (passed_self count (effective_abort ab s n) s)
                 = pkt_cnt s - count).
  { cbn. apply size_t_small. lia. }
  assert (Hn'c : pkt_cnt (passed_next count br conf ie n) = pkt_cnt n + count).
  { cbn. apply size_t_small. lia. }
  split; [lia|]. split; [|split].
  - rewrite Hst. apply Forall_insert; [apply Forall_insert; [done|]|].
    + split; [done|]. split; [done|]. rewrite Hn'c. lia.
    + split; [done|]. rewrite Hs'f, Hs'c.
      pose proof (Z.mod_pos_bound (pkt_first s + count) B HB0). lia.
  - rewrite Hst.
    rewrite (total_count_insert _ i s) by (by rewrite list_lookup_insert_ne).
    rewrite (total_count_insert _ j n) by done.
    rewrite Hs'c, Hn'c. lia.
  - intros k a b. rewrite Hlen', !Hlook. intros Ha Hb.
    assert (Hkl : (k < length (stages r))%nat).
    { rewrite <- Hlen'. eapply lookup_lt_Some. rewrite Hlook. exact Ha. }
    destruct (decide (k = i)) as [->|Hki].
    + fold j in Hb. rewrite decide_False in Hb by done.
      rewrite decide_True in Hb by done.
      injection Ha as <-. injection Hb as <-.
      rewrite Hs'f, Hn'c. cbn.
      rewrite <- (Hpre i s n Hi Hj).
      rewrite Z.add_assoc, <- Z.add_mod_idemp_l by lia. done.
    + assert (Hnk : ringNext (length (stages r)) k <> j).
      { intros Heq. apply Hki. symmetry. by apply (ringNext_inj (length (stages r))). }
      rewrite (decide_False (P := ringNext _ k = j)) in Hb by done.
      destruct (decide (ringNext (length (stages r)) k = i)) as [Hnki|Hnki].
      * injection Hb as <-. rewrite Hs'f, Hs'c.
        rewrite Z.add_mod_idemp_l by lia.
        replace (pkt_first s + count + (pkt_cnt s - count))
          with (pkt_first s + pkt_cnt s) by lia.
        destruct (decide (k = j)) as [->|Hkj].
        -- injection Ha as <-. cbn. apply (Hpre j n s Hj). by rewrite Hnki.
        -- apply (Hpre k a s Ha). by rewrite Hnki.
      * destruct (decide (k = j)) as [->|Hkj].
        -- injection Ha as <-. cbn. apply (Hpre j n b Hj Hb).
        -- apply (Hpre k a b Ha Hb).
Qed.

Lemma setAbort_Ok r i r' :
  setAbort i r = Ok (tt, r') ->
  exists e, stages r !! i = Some e
    /\ stages r' = <[i := set_tsp_aborting true e]> (stages r).
Proof.
  unfold setAbort, bind, update, ring_size, notify_one.
  destruct (stages r !! i) as [e|]; [|done].
  intros [= <-]. by exists e.
Qed.

Lemma setAbort_keeps_inv B r i r' :
  ring_inv B r -> setAbort i r = Ok (tt, r') -> ring_inv B r'.
Proof.
  intros (Hlen & Hfit & Htot & Hpre) Hrun.
  destruct (setAbort_Ok _ _ _ Hrun) as (e & Hi & Hst).
  assert (Hil : (i < length (stages r))%nat) by (eapply lookup_lt_Some; eauto).
  assert (Hlook : forall k, exists a,
            (stages r !! k = Some a /\ stages r' !! k = Some (if decide (k = i) then set_tsp_aborting true a else a))
            \/ (stages r !! k = None /\ stages r' !! k = None)) .
  { intros k. rewrite Hst. destruct (decide (k = i)) as [->|Hne].
    - exists e. left. split; [done|]. by apply list_lookup_insert_eq.
    - destruct (stages r !! k) as [a|] eqn:Hk.
      + exists a. left. by rewrite list_lookup_insert_ne.
      + exists e. right. by rewrite list_lookup_insert_ne. }
  assert (Hlen' : length (stages r') = length (stages r))
    by (by rewrite Hst, length_insert).
  split; [lia|]. split; [|split].
  - rewrite Hst. apply Forall_insert; [done|].
    exact (proj1 (Forall_lookup _ _) Hfit _ _ Hi).
  - rewrite Hst, (total_count_insert _ i e) by done. cbn. lia.
  - intros k a b Ha Hb. rewrite Hlen' in Hb.
    destruct (Hlook k) as (a0 & [[Ha0 Ha1]|[_ Ha1]]); [|congruence].
    destruct (Hlook (ringNext (length (stages r)) k)) as (b0 & [[Hb0 Hb1]|[_ Hb1]]);
      [|congruence].
    rewrite Ha1 in Ha. rewrite Hb1 in Hb. injection Ha as <-. injection Hb as <-.
    pose proof (Hpre k a0 b0 Ha0 Hb0) as H.
    repeat case_decide; exact H.
Qed.

Lemma initBuffer_Ok r k B first cnt ie ab (br : BitRate) (conf : BitRateConfidence) :
  (k < length (stages r))%nat ->
  exists e r',
    initBuffer k B first cnt ie ab br conf r = Ok (tt, r')
    /\ stages r' = <[k := e]> (stages r)
    /\ buffer_count e = B /\ pkt_first e = first /\ pkt_cnt e = cnt.
Proof.
  intros Hk. destruct (lookup_lt_is_Some_2 _ _ Hk) as [e He].
  unfold initBuffer, update. rewrite He.
  eexists _, _. split; [reflexivity|]. by cbn.
Qed.

Lemma initOthers_started B first (br : BitRate) (conf : BitRateConfidence) others :
  0 < B -> 0 <= first < B ->
  forall k r,
    (1 <= k)%nat ->
    (k + others)%nat = length (stages r) ->
    (forall m e, (m < k)%nat -> stages r !! m = Some e -> started B first m e) ->
    exists r',
      initOthers B k others br conf r = Ok (tt, r')
      /\ length (stages r') = length (stages r)
      /\ (forall m e, stages r' !! m = Some e -> started B first m e).
Proof.
  intros HB Hf. induction others as [|others IH]; intros k r Hk Hlen Hdone.
  - exists r. split; [done|]. split; [done|].
    intros m e Hm. apply Hdone; [|done].
    apply lookup_lt_Some in Hm. lia.
  - cbn [initOthers]. unfold bind at 1. unfold self.
    destruct (lookup_lt_is_Some_2 (stages r) (k - 1)) as [p Hp]; [lia|].
    rewrite Hp.
    destruct (Hdone (k - 1)%nat p) as (HpB & Hpf & Hpc); [lia | done |].
    assert (Hpos : (pkt_first p + pkt_cnt p) mod B = first).
    { rewrite Hpf, Hpc. destruct (k - 1)%nat.
      - rewrite <- (Z.mul_1_l B) at 1. rewrite Z.mod_add by lia.
        apply Z.mod_small; lia.
      - rewrite Z.add_0_r. apply Z.mod_small; lia. }
    rewrite Hpos. unfold bind.
    destruct (initBuffer_Ok r k B first 0 false false br conf)
      as (e & r1 & Hrun & Hst & HeB & Hef & Hec); [lia|].
    rewrite Hrun.
    destruct (IH (S k) r1) as (r' & Hrun' & Hlen' & Hall).
    + lia.
    + rewrite Hst, length_insert. lia.
    + intros m a Hm Ha. rewrite Hst in Ha.
      destruct (decide (m = k)) as [->|Hne].
      * rewrite list_lookup_insert_eq in Ha by lia. injection Ha as <-.
        split; [done|]. split; [done|]. destruct k; [lia | done].
      * rewrite list_lookup_insert_ne in Ha by done. apply Hdone; [lia | done].
    + exists r'. split; [done|]. split; [|done].
      rewrite Hlen', Hst. apply length_insert.
Qed.

Lemma initAllBuffers_started B first (br : BitRate) (conf : BitRateConfidence) r0 :
  0 < B -> 0 <= first < B ->
  (1 <= length (stages r0))%nat ->
  exists r,
    initAllBuffers B first br conf r0 = Ok (tt, r)
    /\ length (stages r) = length (stages r0)
    /\ (forall m e, stages r !! m = Some e -> started B first m e).
Proof.
  intros HB Hf Hlen. unfold initAllBuffers, bind.
  destruct (initBuffer_Ok r0 0%nat B first B false false br conf)
    as (e & r1 & Hrun & Hst & HeB & Hef & Hec); [lia|].
  rewrite Hrun. unfold ring_size.
  destruct (initOthers_started B first br conf (length (stages r1) - 1) HB Hf 1%nat r1)
    as (r & Hrun' & Hlen' & Hall).
  - lia.
  - rewrite Hst, length_insert. lia.
  - intros m a Hm Ha. assert (m = 0%nat) as -> by lia.
    rewrite Hst, list_lookup_insert_eq in Ha by lia. injection Ha as <-. done.
  - exists r. split; [done|]. split; [|done].
    rewrite Hlen', Hst. apply length_insert.
Qed.

Lemma total_count_zero (l : list (Tsp.Executor BitRate BitRateConfidence)) :
  Forall (fun e => pkt_cnt e = 0) l -> total_count l = 0.
Proof.
  induction 1 as [|e l He _ IH]; [done|].
  change (pkt_cnt e + total_count l = 0). lia.
Qed.

Lemma started_inv B first r :
  buffer_fits B -> 0 <= first < B ->
  (2 <= length (stages r))%nat ->
  (forall m e, stages r !! m = Some e -> started B first m e) ->
  ring_inv B r.
Proof.
  intros HB Hf Hlen Hall.
  apply buffer_fits_twice in HB as [HB0 HB2].
  split; [done|]. split; [|split].
  - apply Forall_lookup. intros m e Hm.
    destruct (Hall m e Hm) as (HeB & Hef & Hec).
    split; [done|]. split; [lia|]. destruct m; lia.
  - destruct (stages r) as [|e0 rest] eqn:E; [cbn in Hlen; lia|].
    change (pkt_cnt e0 + total_count rest = B).
    destruct (Hall 0%nat e0) as (_ & _ & ->); [done|].
    rewrite total_count_zero; [lia|].
    apply Forall_lookup. intros m e Hm.
    by destruct (Hall (S m) e) as (_ & _ & ->).
  - intros i s n Hi Hn.
    destruct (Hall _ _ Hi) as (_ & -> & _).
    destruct (Hall _ _ Hn) as (_ & -> & ->).
    destruct (ringNext _ i).
    + rewrite <- (Z.mul_1_l B) at 1. rewrite Z.mod_add by lia.
      apply Z.mod_small; lia.
    + rewrite Z.add_0_r. apply Z.mod_small; lia.
Qed.

Lemma reachable_inv B first r0 r :
  buffer_fits B -> 0 <= first < B ->
  (2 <= length (stages r0))%nat ->
  reachable B first r0 r ->
  ring_inv B r.
Proof.
  intros HB Hf Hlen Hreach.
  induction Hreach as [br conf r Hstart | r i count br conf ie ab res r' _ IH Hc Hrun
                      | r i r' _ IH Hrun].
  - destruct (initAllBuffers_started B first br conf r0) as (r1 & Hrun & Hlen1 & Hall);
      [unfold buffer_fits in HB; lia | done | lia |].
    rewrite Hstart in Hrun. injection Hrun as <-.
    apply (started_inv B first); [done | done | lia | done].
  - eapply passPackets_keeps_inv; eauto. lia.
  - eapply setAbort_keeps_inv; eauto.
Qed.

(** C2, as the code has it: in every state which the start-up and then
    [passPackets] and [setAbort] calls lead to, the counts of all stages
    add up to the capacity [B] of the buffer and, for every stage [s],
    [(next(s).first + next(s).count) mod B = s.first]: the window of the
    next stage ends where the window of [s] begins. *)
Theorem windows_invariant B first r0 r :
  buffer_fits B ->
  0 <= first < B ->
  (2 <= length (stages r0))%nat ->
  reachable B first r0 r ->
  total_count (stages r) = B
  /\ forall i s n,
       stages r !! i = Some s ->
       stages r !! ringNext (length (stages r)) i = Some n ->
       (pkt_first n + pkt_cnt n) mod B = pkt_first s.
Proof.
  intros HB Hf Hlen Hreach.
  destruct (reachable_inv B first r0 r HB Hf Hlen Hreach) as (_ & _ & Htot & Hpre).
  split; [exact Htot | exact Hpre].
Qed.

(** *** waitWork *)

(** [waitWork] returns what it reads in the state it leaves. *)
Lemma waitWork_Ok Infinite i min_pkt_cnt wakes r w r' :
  waitWork Infinite i min_pkt_cnt wakes r = Ok (w, r') ->
  exists me0 me nx timeout,
    stages r !! i = Some me0
    /\ wait_loop Infinite i (clamp_min me0 min_pkt_cnt) false wakes r = Ok (timeout, r')
    /\ stages r' !! i = Some me
    /\ stages r' !! ringNext (length (stages r')) i = Some nx
    /\ w = mkWork (pkt_first me)
             (returned_cnt me (clamp_min me0 min_pkt_cnt) timeout)
             (bitrate me) (br_confidence me)
             (input_end me
              && (returned_cnt me (clamp_min me0 min_pkt_cnt) timeout =? pkt_cnt me))
             (negb (is_output (plugin_type me)) && tsp_aborting nx)
             timeout.
Proof.
  unfold waitWork, bind at 1, self at 1.
  destruct (stages r !! i) as [me0|] eqn:Hme0; [|done].
  unfold bind at 1.
  destruct (wait_loop _ _ _ _ _ r) as [[timeout r1]| |] eqn:Hloop; [|done..].
  unfold bind, self, ring_size, ret.
  destruct (stages r1 !! i) as [me|] eqn:Hme; [|done].
  destruct (stages r1 !! ringNext _ i) as [nx|] eqn:Hnx; [|done].
  intros [= <- <-]. exists me0, me, nx, timeout. by repeat split.
Qed.

(** For a window which lies in the buffer, clamping the requested minimum
    does not change the number of returned packets. *)
Lemma returned_cnt_fits B me m :
  buffer_fits B -> window_fits B me -> 0 <= m ->
  returned_cnt me (if B <? m then B else m) false
  = if pkt_first me + m <=? B
    then Z.min (pkt_cnt me) (B - pkt_first me)
    else pkt_cnt me.
Proof.
  intros HB (HmB & Hf & Hc) Hm.
  apply buffer_fits_twice in HB as [HB0 HB2].
  unfold returned_cnt. rewrite HmB.
  rewrite (size_t_small (B - pkt_first me)) by lia.
  destruct (B <? m) eqn:E.
  - rewrite size_t_small by lia.
    destruct (pkt_first me + m <=? B) eqn:E1; [lia|].
    destruct (pkt_first me + B <=? B) eqn:E2; lia.
  - rewrite size_t_small by lia. done.
Qed.

(** C4: when [waitWork] does not end in a timeout and the window lies in a
    buffer of [B] packets, the returned [pkt_cnt] is
    [min(count, B - pkt_first)] if [pkt_first + min_pkt_cnt <= B] and the
    whole [count] otherwise. *)
Theorem waitWork_returned_count Infinite B i min_pkt_cnt wakes r w r' me0 me :
  buffer_fits B ->
  0 <= min_pkt_cnt ->
  stages r !! i = Some me0 ->
  buffer_count me0 = B ->
  waitWork Infinite i min_pkt_cnt wakes r = Ok (w, r') ->
  w_timeout w = false ->
  stages r' !! i = Some me ->
  window_fits B me ->
  w_pkt_first w = pkt_first me
  /\ w_pkt_cnt w =
       if pkt_first me + min_pkt_cnt <=? B
       then Z.min (pkt_cnt me) (B - pkt_first me)
       else pkt_cnt me.
Proof.
  intros HB Hm Hi HB0 Hrun Hto Hme Hfit.
  destruct (waitWork_Ok _ _ _ _ _ _ _ Hrun)
    as (me0' & me' & nx & timeout & Hi' & _ & Hme' & _ & ->).
  cbn in Hto. subst timeout.
  assert (me0' = me0) as -> by congruence.
  assert (me' = me) as -> by congruence.
  cbn. split; [done|]. unfold clamp_min. rewrite HB0.
  by apply returned_cnt_fits.
Qed.

(** C10: [waitWork] reports the end of input if and only if the flag of the
    stage is set and the returned [pkt_cnt] is the whole count of the
    window; when the window wraps and only its head, up to the end of the
    buffer, is returned, the end of input is not reported. *)
Theorem waitWork_input_end Infinite B i min_pkt_cnt wakes r w r' me0 me :
  stages r !! i = Some me0 ->
  waitWork Infinite i min_pkt_cnt wakes r = Ok (w, r') ->
  stages r' !! i = Some me ->
  (w_input_end w = true <-> input_end me = true /\ w_pkt_cnt w = pkt_cnt me)
  /\ (buffer_fits B -> buffer_count me0 = B -> window_fits B me ->
      0 <= min_pkt_cnt ->
      w_timeout w = false ->
      B < pkt_first me + pkt_cnt me ->
      pkt_first me + min_pkt_cnt <= B ->
      w_pkt_cnt w = B - pkt_first me
      /\ w_pkt_cnt w < pkt_cnt me
      /\ w_input_end w = false).
Proof.
  intros Hi Hrun Hme.
  destruct (waitWork_Ok _ _ _ _ _ _ _ Hrun)
    as (me0' & me' & nx & timeout & Hi' & _ & Hme' & _ & ->).
  assert (me0' = me0) as -> by congruence.
  assert (me' = me) as -> by congruence.
  cbn. split.
  - rewrite andb_true_iff, Z.eqb_eq. done.
  - intros HB HB0 Hfit Hm -> Hwrap Hhead.
    unfold clamp_min. rewrite HB0, (returned_cnt_fits B) by done.
    destruct (pkt_first me + min_pkt_cnt <=? B) eqn:E; [|lia].
    destruct Hfit as (_ & Hf & Hc).
    assert (Hmin : Z.min (pkt_cnt me) (B - pkt_first me) = B - pkt_first me) by lia.
    rewrite Hmin. split; [done|]. split; [lia|].
    apply andb_false_iff. right. apply Z.eqb_neq. lia.
Qed.

Lemma bind_unfold {A B} (m : M BitRate BitRateConfidence A) (f : A -> M _ _ B) r :
  bind m f r
  = match m r with
    | Ok (a, r') => f a r'
    | Fault => Fault
    | Blocked => Blocked
    end.
Proof. reflexivity. Qed.

Lemma self_lookup r i e : stages r !! i = Some e -> self i r = Ok (e, r).
Proof. intros H. unfold self. by rewrite H. Qed.

Lemma wait_loop_waiting Infinite i m w wakes r me nx :
  stages r !! i = Some me ->
  stages r !! ringNext (length (stages r)) i = Some nx ->
  wait_cond me nx m false = true ->
  wait_loop Infinite i m false (w :: wakes) r
  = bind (run_ops (wake_ops w))
      (fun _ => wait_loop Infinite i m
                  (if tsp_timeout me =? Infinite then false else wake_timeout w)
                  wakes) r.
Proof.
  intros Hi Hn Hc. cbn [wait_loop].
  unfold bind at 1, self at 1. rewrite Hi.
  unfold bind at 1, ring_size at 1.
  unfold bind at 1, self at 1. rewrite Hn, Hc. done.
Qed.

Lemma wait_loop_timed_out Infinite i m wakes r me nx :
  stages r !! i = Some me ->
  stages r !! ringNext (length (stages r)) i = Some nx ->
  wait_loop Infinite i m true wakes r = Ok (true, r).
Proof.
  intros Hi Hn.
  assert (Hc : wait_cond me nx m true = false).
  { unfold wait_cond. cbn. by rewrite andb_false_r. }
  destruct wakes; cbn [wait_loop];
    unfold bind, self, ring_size; by rewrite Hi, Hn, Hc.
Qed.

(** C5: while [waitWork] waits with a finite packet timeout, a wait which
    times out and whose [handlePacketTimeout()] answers true (continue)
    resumes: the call goes on as a fresh call in the state it wakes up in;
    when the handler answers false (abort), [waitWork] returns with
    [timeout = true] and [pkt_cnt = 0]. *)
Theorem waitWork_timeout Infinite i min_pkt_cnt others wakes r me nx :
  stages r !! i = Some me ->
  stages r !! ringNext (length (stages r)) i = Some nx ->
  wait_cond me nx (clamp_min me min_pkt_cnt) false = true ->
  tsp_timeout me <> Infinite ->
  waitWork Infinite i min_pkt_cnt (TimedOut others true :: wakes) r
  = bind (run_ops others) (fun _ => waitWork Infinite i min_pkt_cnt wakes) r
  /\ forall r1,
       run_ops others r = Ok (tt, r1) ->
       exists w,
         waitWork Infinite i min_pkt_cnt (TimedOut others false :: wakes) r = Ok (w, r1)
         /\ w_timeout w = true
         /\ w_pkt_cnt w = 0.
Proof.
  intros Hi Hn Hc Hfin.
  assert (Hne : (tsp_timeout me =? Infinite) = false) by (by apply Z.eqb_neq).
  split.
  - unfold waitWork at 1. unfold bind at 1, self at 1. rewrite Hi.
    unfold bind at 1.
    rewrite (wait_loop_waiting _ _ _ _ _ _ me nx) by done.
    rewrite Hne. cbn [wake_ops wake_timeout negb].
    rewrite !(bind_unfold (run_ops others)).
    destruct (run_ops others r) as [[[] r1]| |] eqn:Hops; [|done..].
    destruct (raising_run_ops _ _ _ _ Hops) as [Hlen Hkeep].
    destruct (Hkeep _ _ Hi) as (me1 & Hi1 & (_ & HB & _)).
    unfold waitWork. rewrite (bind_unfold (self i)), (self_lookup r1 i me1 Hi1).
    unfold clamp_min. rewrite HB. done.
  - intros r1 Hops.
    destruct (raising_run_ops _ _ _ _ Hops) as [Hlen Hkeep].
    destruct (Hkeep _ _ Hi) as (me1 & Hi1 & _).
    destruct (Hkeep _ _ Hn) as (nx1 & Hn1 & _).
    rewrite <- Hlen in Hn1.
    unfold waitWork. unfold bind at 1, self at 1. rewrite Hi.
    unfold bind at 1.
    rewrite (wait_loop_waiting _ _ _ _ _ _ me nx) by done.
    rewrite Hne. cbn [wake_ops wake_timeout negb].
    rewrite (bind_unfold (run_ops others)), Hops.
    rewrite (wait_loop_timed_out _ _ _ _ _ me1 nx1) by done.
    unfold bind, self, ring_size, ret. rewrite Hi1, Hn1.
    eexists. split; [reflexivity|]. done.
Qed.

(** C6: the edge from the output to the input is the only one through
    which [passPackets] propagates neither the end of input nor an abort.
    When the output calls it (with [input_end = false], as the output
    executor does), [input_end] and the abort flag of the input stay as they
    are, [aborted] is not OR-ed with the abort flag of the input and the
    call returns [!aborted].  For every other stage the [input_end] argument
    is OR-ed into the flag of the next stage and [aborted] is OR-ed with the
    abort flag of the next stage.  [waitWork] returns [aborted] as the abort
    flag of the next stage for every stage but the output, and false for the
    output. *)
Theorem output_edge Infinite :
  (forall r i s n count br conf ab,
     stages r !! i = Some s ->
     stages r !! ringNext (length (stages r)) i = Some n ->
     ringNext (length (stages r)) i <> i ->
     count <= pkt_cnt s -> buffer_count s <> 0 ->
     plugin_type s = OUTPUT ->
     exists res r' s' n',
       passPackets i count br conf false ab r = Ok (res, r')
       /\ stages r' !! i = Some s'
       /\ stages r' !! ringNext (length (stages r)) i = Some n'
       /\ input_end n' = input_end n
       /\ tsp_aborting n' = tsp_aborting n
       /\ tsp_aborting s' = tsp_aborting s || ab
       /\ res = negb ab)
  /\ (forall r i s n count br conf ie ab,
        stages r !! i = Some s ->
        stages r !! ringNext (length (stages r)) i = Some n ->
        ringNext (length (stages r)) i <> i ->
        count <= pkt_cnt s -> buffer_count s <> 0 ->
        plugin_type s <> OUTPUT ->
        exists res r' s' n',
          passPackets i count br conf ie ab r = Ok (res, r')
          /\ stages r' !! i = Some s'
          /\ stages r' !! ringNext (length (stages r)) i = Some n'
          /\ input_end n' = input_end n || ie
          /\ tsp_aborting s' = tsp_aborting s || (ab || tsp_aborting n)
          /\ res = negb ie && negb (ab || tsp_aborting n))
  /\ (forall j min_pkt_cnt wakes w r0 r' me nx,
        waitWork Infinite j min_pkt_cnt wakes r0 = Ok (w, r') ->
        stages r' !! j = Some me ->
        stages r' !! ringNext (length (stages r')) j = Some nx ->
        w_aborted w
        = if is_output (plugin_type me) then false else tsp_aborting nx).
Proof.
  assert (Hpass : forall r i s n count br conf ie ab,
     stages r !! i = Some s ->
     stages r !! ringNext (length (stages r)) i = Some n ->
     ringNext (length (stages r)) i <> i ->
     count <= pkt_cnt s -> buffer_count s <> 0 ->
     exists r',
       passPackets i count br conf ie ab r
       = Ok (negb ie && negb (effective_abort ab s n), r')
       /\ stages r' !! i = Some (passed_self count (effective_abort ab s n) s)
       /\ stages r' !! ringNext (length (stages r)) i
          = Some (passed_next count br conf ie n)).
  { intros r i s n count br conf ie ab Hi Hn Hne Hc HB.
    destruct (passPackets_run r i s n count br conf ie ab Hi Hn Hne Hc HB)
      as (r' & Hrun & Hst).
    assert (Hil : (i < length (stages r))%nat) by (eapply lookup_lt_Some; eauto).
    assert (Hjl : (ringNext (length (stages r)) i < length (stages r))%nat)
      by (eapply lookup_lt_Some; eauto).
    exists r'. split; [exact Hrun|]. rewrite Hst.
    split; [apply list_lookup_insert_eq; by rewrite length_insert|].
    rewrite list_lookup_insert_ne by done. by apply list_lookup_insert_eq. }
  split; [|split].
  - intros r i s n count br conf ab Hi Hn Hne Hc HB Hout.
    destruct (Hpass r i s n count br conf false ab Hi Hn Hne Hc HB)
      as (r' & Hrun & Hs' & Hn').
    assert (Heff : effective_abort ab s n = ab)
      by (unfold effective_abort; by rewrite Hout).
    rewrite Heff in Hrun, Hs'.
    eexists _, r', _, _. split; [exact Hrun|]. split; [exact Hs'|].
    split; [exact Hn'|]. cbn. by rewrite orb_false_r.
  - intros r i s n count br conf ie ab Hi Hn Hne Hc HB Hout.
    destruct (Hpass r i s n count br conf ie ab Hi Hn Hne Hc HB)
      as (r' & Hrun & Hs' & Hn').
    assert (Heff : effective_abort ab s n = ab || tsp_aborting n).
    { unfold effective_abort. by destruct (plugin_type s). }
    rewrite Heff in Hrun, Hs'.
    eexists _, r', _, _. split; [exact Hrun|]. split; [exact Hs'|].
    split; [exact Hn'|]. by cbn.
  - intros j m wakes w r0 r' me nx Hrun Hj Hn.
    destruct (waitWork_Ok _ _ _ _ _ _ _ Hrun)
      as (me0 & me' & nx' & timeout & _ & _ & Hme & Hnx & ->).
    cbn. replace me' with me by congruence. replace nx' with nx by congruence.
    by destruct (is_output (plugin_type me)).
Qed.

End RingFacts.

(** * Properties of the restart *)

Section RestartFacts.

Import Restart.

Context {P DuckArgs : Type} `{PluginApi P DuckArgs}.
Variables NO_HELP NO_EXIT_ON_ERROR : Z.
Variable Accounting : Type.
Variable restartPluginSession : Accounting -> Accounting.

Implicit Types (x y : State P DuckArgs Accounting) (d : RestartData).

Lemma log_restart_report rd ms y d :
  records y !! rd = Some d ->
  log (RestartReport rd) ms y
  = (tt, mkState (plugin y) (plugin_report y) (tsp_report y) (pluginName y)
           (duck_args y) (accounting y) (restart y) (restart_data y)
           (<[rd := add_report ms d]> (records y)) (to_do_notified y)).
Proof. intros Hd. unfold log, update_record, bind, get. by rewrite Hd. Qed.

(** A call of the plugin while its report is the report of record [rd]. *)
Lemma call_redirected f rd y d ok p ms :
  plugin_report y = RestartReport rd ->
  records y !! rd = Some d ->
  f (plugin y) = (ok, p, ms) ->
  call f y
  = (ok, mkState p (RestartReport rd) (tsp_report y) (pluginName y)
           (duck_args y) (accounting y) (restart y) (restart_data y)
           (<[rd := add_report ms d]> (records y)) (to_do_notified y)).
Proof.
  intros Hr Hd Hf. unfold call, bind, get. rewrite Hf, Hr. cbn.
  unfold update_record, bind, get. cbn. rewrite Hd. cbn. by rewrite Hr.
Qed.

Lemma add_report_app ms1 ms2 d :
  add_report ms2 (add_report ms1 d) = add_report (ms1 ++ ms2) d.
Proof. unfold add_report. cbn. by rewrite app_assoc. Qed.

(** The monadic sequence does to the executor what [start_sequence] does to
    the plugin, and sends its messages to the record. *)
Lemma analyze_getOptions_start_redirected a rd y d ok p ms :
  plugin_report y = RestartReport rd ->
  records y !! rd = Some d ->
  start_sequence (pluginName y) a (plugin y) = (ok, p, ms) ->
  analyze_getOptions_start a y
  = (ok, mkState p (RestartReport rd) (tsp_report y) (pluginName y)
           (duck_args y) (accounting y) (restart y) (restart_data y)
           (<[rd := add_report ms d]> (records y)) (to_do_notified y)).
Proof.
  intros Hr Hd. unfold start_sequence, analyze_getOptions_start.
  assert (Hlen : (rd < length (records y))%nat) by (eapply lookup_lt_Some; eauto).
  destruct (analyze (pluginName y) a false (plugin y)) as [[ok1 p1] m1] eqn:E1.
  unfold bind at 1, get at 1. unfold bind at 1.
  rewrite (call_redirected _ rd y d ok1 p1 m1) by done.
  destruct ok1; [|intros [= <- <- <-]; done].
  destruct (getOptions p1) as [[ok2 p2] m2] eqn:E2.
  unfold bind at 1.
  erewrite (call_redirected getOptions rd _ _ ok2 p2 m2);
    [| done | by apply list_lookup_insert_eq | done].
  cbn. rewrite list_insert_insert_eq, add_report_app.
  destruct ok2; [|intros [= <- <- <-]; done].
  destruct (start p2) as [[ok3 p3] m3] eqn:E3.
  erewrite (call_redirected start rd _ _ ok3 p3 m3);
    [| done | by apply list_lookup_insert_eq | done].
  cbn. rewrite list_insert_insert_eq, add_report_app, <- app_assoc.
  intros [= <- <- <-]. done.
Qed.

(** Read the fields of a state which is given by its constructor. *)
Ltac fields :=
  cbn [plugin plugin_report tsp_report pluginName duck_args accounting restart
       restart_data records to_do_notified].

(** C7: when a restart with new arguments is pending and the sequence
    analyze + getOptions + start fails with the new arguments, the worker
    sends a warning to the report of the restart record and runs the same
    sequence again with the arguments which the plugin had before; what
    this second sequence returns is the status of the restart. *)
Theorem restart_falls_back x rd d ok0 p_stopped m0 p2 m1 ok p3 m2 :
  restart x = true ->
  restart_data x = Some rd ->
  records x !! rd = Some d ->
  same_args d = false ->
  plugin_report x = TspReport ->
  stop (plugin x) = (ok0, p_stopped, m0) ->
  let p0 := resetContext (duck_args x) p_stopped in
  let previous_args := getCommandArgs p0 in
  let p1 := setFlags (Z.lor (Z.lor (getFlags p0) NO_HELP) NO_EXIT_ON_ERROR) p0 in
  start_sequence (pluginName x) (args d) p1 = (false, p2, m1) ->
  start_sequence (pluginName x) previous_args p2 = (ok, p3, m2) ->
  processPendingRestart NO_HELP NO_EXIT_ON_ERROR restartPluginSession x
  = ((ok, true),
     mkState p3 TspReport
       (tsp_report x ++ [(Verbose, "restarting due to remote tspcontrol")]
          ++ m0 ++ [restart_debug (pluginName x) ok])
       (pluginName x) (duck_args x) (restartPluginSession (accounting x))
       false None
       (<[rd := complete
                  (add_report
                     ([(Verbose, "restarting plugin " +:+ pluginName x)]
                        ++ m1 ++ [restart_warning (pluginName x)] ++ m2) d)]>
          (records x))
       (to_do_notified x)).
Proof.
  intros Hrestart Hrd Hd Hsame Hrep Hstop p0 previous_args p1 Hfirst Hsecond.
  assert (Hlen : (rd < length (records x))%nat) by (eapply lookup_lt_Some; eauto).
  unfold processPendingRestart.
  unfold bind at 1, get at 1. rewrite Hrestart, Hrd.
  unfold bind at 1. unfold log at 1, bind at 1, get at 1, set_tsp_report at 1.
  unfold bind at 1. rewrite (log_restart_report rd _ _ d) by done.
  unfold bind at 1, call at 1, bind at 1, get at 1. cbn [plugin plugin_report].
  rewrite Hstop, Hrep.
  unfold bind at 1, set_plugin at 1. unfold bind at 1, log at 1.
  unfold bind at 1, get at 1, set_tsp_report at 1. unfold ret at 1.
  fields.
  unfold bind at 1, set_accounting at 1.
  fields.
  unfold bind at 1, get at 1. unfold bind at 1, set_plugin at 1.
  fields.
  unfold bind at 1, redirectReport at 1, bind at 1, get at 1.
  unfold bind at 1, set_plugin_report at 1, ret at 1.
  fields.
  unfold bind at 1.
  fields.
  rewrite list_lookup_insert_eq by done.
  unfold add_report at 1. rewrite Hsame.
  cbn [report same_args args completed notifications].
  unfold bind at 1, bind at 1, get at 1. unfold bind at 1, set_plugin at 1.
  fields.
  fold p0. fold p1. fold previous_args.
  unfold bind at 1.
  erewrite (analyze_getOptions_start_redirected (args d) rd _ _ false p2 m1);
    [| done | by apply list_lookup_insert_eq | exact Hfirst].
  fields.
  rewrite list_insert_insert_eq, add_report_app.
  unfold bind at 1.
  erewrite log_restart_report by (by apply list_lookup_insert_eq).
  fields.
  rewrite list_insert_insert_eq, add_report_app.
  erewrite (analyze_getOptions_start_redirected previous_args rd _ _ ok p3 m2);
    [| done | by apply list_lookup_insert_eq | exact Hsecond].
  fields.
  rewrite list_insert_insert_eq, add_report_app.
  unfold bind at 1, redirectReport at 1, bind at 1, get at 1.
  unfold bind at 1, set_plugin_report at 1, ret at 1.
  fields.
  unfold bind at 1, update_record at 1, bind at 1, get at 1.
  fields.
  rewrite list_lookup_insert_eq by done.
  unfold set_records at 1.
  fields.
  unfold bind at 1, set_restart at 1.
  fields.
  unfold bind at 1, log at 1, bind at 1, get at 1, set_tsp_report at 1, ret at 1.
  fields.
  rewrite list_insert_insert_eq, <- !app_assoc. reflexivity.
Qed.

End RestartFacts.

(** * Properties of the bitrate monitor *)

Section BitrateMonitorFacts.

Import BitrateMonitor.

Context {BitRate : Type} `{BitRateOps BitRate}.

Implicit Types (o : Options BitRate) (w : Work BitRate) (ps : list Period).

Lemma uint64_add_l a b : uint64 (uint64 a + b) = uint64 (a + b).
Proof. unfold uint64. by rewrite Zplus_mod_idemp_l. Qed.

Lemma window_totals_from ps d t n :
  fold_left
    (fun acc p =>
       let '(d, total_pkt_count, non_null_count) := acc in
       (d + duration p, uint64 (total_pkt_count + packets p),
        uint64 (non_null_count + non_null p)))
    ps (d, uint64 t, uint64 n)
  = (d + total_duration ps, uint64 (t + total_packets ps),
     uint64 (n + total_non_null ps)).
Proof.
  revert d t n. induction ps as [|p ps IH]; intros d t n.
  - cbn. by rewrite !Z.add_0_r.
  - cbn [fold_left]. rewrite !uint64_add_l, IH.
    change (total_duration (p :: ps)) with (duration p + total_duration ps).
    change (total_packets (p :: ps)) with (packets p + total_packets ps).
    change (total_non_null (p :: ps)) with (non_null p + total_non_null ps).
    by rewrite !Z.add_assoc.
Qed.

(** The loop of [computeBitrate] computes the sums over all buckets. *)
Lemma window_totals_sum ps :
  window_totals ps
  = (total_duration ps, uint64 (total_packets ps), uint64 (total_non_null ps)).
Proof.
  unfold window_totals.
  change (0, 0, 0) with (0, uint64 0, uint64 0).
  by rewrite window_totals_from.
Qed.

Lemma total_duration_ge ps :
  Forall (fun p => NanoSecPerSec <= duration p) ps ->
  Z.of_nat (length ps) * NanoSecPerSec <= total_duration ps.
Proof.
  induction 1 as [|p ps Hp _ IH]; [done|].
  change (total_duration (p :: ps)) with (duration p + total_duration ps).
  rewrite length_cons, Nat2Z.inj_succ. lia.
Qed.

Lemma next_index (idx len : nat) :
  (idx < len)%nat ->
  ((idx + 1) mod len)%nat = if decide (idx + 1 < len)%nat then (idx + 1)%nat else 0%nat.
Proof.
  intros Hlt. case_decide.
  - by apply Nat.mod_small.
  - assert (idx + 1 = len)%nat as -> by lia. apply Nat.Div0.mod_same.
Qed.

Lemma report_bitrates_periods o b nb w :
  periods (report_bitrates o b nb w) = periods w
  /\ periods_index (report_bitrates o b nb w) = periods_index w
  /\ startup (report_bitrates o b nb w) = startup w.
Proof.
  unfold report_bitrates.
  destruct (tick_countdown _ (bitrate_countdown w)) as [c1 d1].
  destruct (tick_countdown _ (command_countdown w)) as [c2 d2].
  by destruct (_ || _).
Qed.

Lemma computeBitrate_periods o w :
  periods (computeBitrate o w) = periods w
  /\ periods_index (computeBitrate o w) = periods_index w
  /\ startup (computeBitrate o w) = startup w.
Proof.
  unfold computeBitrate. destruct (window_bitrates _) as [b nb].
  apply report_bitrates_periods.
Qed.

Lemma checkTime_filled o now w w' :
  window_filled o w -> checkTime o now w = Some w' -> window_filled o w'.
Proof.
  intros (Hlen & Hidx & Hfill). unfold checkTime.
  destruct (NanoSecPerSec <=? now - last_second w) eqn:Hsec; [|by intros [= <-]].
  apply Z.leb_le in Hsec.
  destruct (periods w !! periods_index w) as [p|] eqn:Hp; [|done].
  set (pd := mkPeriod _ _ _).
  set (w1 := set_periods _ now w).
  set (w2 := if startup w1 then w1 else computeBitrate o w1).
  assert (Hw2 : periods w2 = <[periods_index w := pd]> (periods w)
                /\ periods_index w2 = periods_index w
                /\ startup w2 = startup w).
  { unfold w2. destruct (startup w1) eqn:E; [done|].
    destruct (computeBitrate_periods o w1) as (-> & -> & ->). done. }
  destruct Hw2 as (Hps & Hix & Hst).
  intros [= <-]. unfold window_filled, next_period. cbn.
  rewrite Hps, Hix, Hst, !length_insert.
  rewrite next_index by done.
  assert (E1 : (periods_index w + 1 =? 0)%nat = false) by (apply Nat.eqb_neq; lia).
  destruct (decide (periods_index w + 1 < length (periods w))%nat) as [Hin|Hout];
    rewrite ?E1; cbn [negb Nat.eqb];
    (split; [done|]); (split; [lia|]); intros j q Hq Hcond;
    assert (Hjl : (j < length (periods w))%nat)
      by (apply lookup_lt_Some in Hq; by rewrite !length_insert in Hq).
  - (* the index moves to the next bucket *)
    destruct (decide (j = (periods_index w + 1)%nat)) as [->|Hnew].
    { destruct (startup w); [lia | congruence]. }
    rewrite list_lookup_insert_ne in Hq by lia.
    destruct (decide (j = periods_index w)) as [->|Hne].
    + rewrite list_lookup_insert_eq in Hq by lia. injection Hq as <-. exact Hsec.
    + rewrite list_lookup_insert_ne in Hq by lia.
      apply (Hfill j q Hq). destruct (startup w); [lia | done].
  - (* the index cycles *)
    assert (Hz : j <> 0%nat) by (destruct (startup w); exact Hcond).
    rewrite list_lookup_insert_ne in Hq by lia.
    destruct (decide (j = periods_index w)) as [->|Hne].
    + rewrite list_lookup_insert_eq in Hq by lia. injection Hq as <-. exact Hsec.
    + rewrite list_lookup_insert_ne in Hq by lia.
      apply (Hfill j q Hq). destruct (startup w); [lia | done].
Qed.

Lemma uint64_nonneg z : 0 <= uint64 z.
Proof. unfold uint64. apply Z.mod_pos_bound. done. Qed.

Lemma checkTime_unsigned o now w w' :
  counters_unsigned w -> checkTime o now w = Some w' -> counters_unsigned w'.
Proof.
  unfold counters_unsigned, checkTime. intros Hall.
  destruct (NanoSecPerSec <=? now - last_second w); [|by intros [= <-]].
  destruct (periods w !! periods_index w) as [p|] eqn:Hp; [|done].
  set (w1 := set_periods _ now w).
  set (w2 := if startup w1 then w1 else computeBitrate o w1).
  assert (Hps : periods w2 = periods w1).
  { unfold w2. destruct (startup w1); [done|].
    by destruct (computeBitrate_periods o w1) as (-> & _). }
  intros [= <-]. cbn. rewrite Hps. cbn.
  apply Forall_insert; [apply Forall_insert; [done|]|by cbn].
  exact (proj1 (Forall_lookup _ _) Hall _ _ Hp).
Qed.

Lemma checkTime_unfilled o now w w' :
  (periods_index w < length (periods w))%nat ->
  startup_unfilled w -> checkTime o now w = Some w' -> startup_unfilled w'.
Proof.
  intros Hidx Hun. unfold checkTime.
  destruct (NanoSecPerSec <=? now - last_second w); [|by intros [= <-]].
  destruct (periods w !! periods_index w) as [p|] eqn:Hp; [|done].
  set (pd := mkPeriod _ _ _).
  set (w1 := set_periods _ now w).
  set (w2 := if startup w1 then w1 else computeBitrate o w1).
  assert (Hw2 : periods w2 = <[periods_index w := pd]> (periods w)
                /\ periods_index w2 = periods_index w
                /\ startup w2 = startup w).
  { unfold w2. destruct (startup w1) eqn:E; [done|].
    destruct (computeBitrate_periods o w1) as (-> & -> & ->). done. }
  destruct Hw2 as (Hps & Hix & Hst).
  intros [= <-]. unfold startup_unfilled, next_period. cbn.
  rewrite Hps, Hix, Hst, !length_insert, next_index by done.
  destruct (startup w) eqn:Hs; [|done].
  destruct (decide (periods_index w + 1 < length (periods w))%nat) as [Hin|Hout];
    [|done].
  intros _ j q Hq Hj.
  destruct (decide (j = (periods_index w + 1)%nat)) as [->|Hne].
  - rewrite list_lookup_insert_eq in Hq by (rewrite length_insert; lia).
    by injection Hq as <-.
  - rewrite !list_lookup_insert_ne in Hq by lia.
    apply (Hun Hs j q Hq). lia.
Qed.

(** Counting a packet changes no duration. *)
Lemma count_packet_kept o w p pid :
  periods w !! periods_index w = Some p ->
  window_filled o w -> startup_unfilled w -> counters_unsigned w ->
  let w0 :=
    set_periods (<[periods_index w := count_packet pid p]> (periods w))
      (last_second w) w in
  window_filled o w0 /\ startup_unfilled w0 /\ counters_unsigned w0.
Proof.
  intros Hp (Hlen & Hidx & Hall) Hun Huns w0.
  assert (Hlook : forall j q, periods w0 !! j = Some q ->
            exists q0, periods w !! j = Some q0 /\ duration q = duration q0).
  { intros j q Hq. unfold w0 in Hq. cbn in Hq.
    destruct (decide (j = periods_index w)) as [->|Hne].
    - rewrite list_lookup_insert_eq in Hq by done. injection Hq as <-. by exists p.
    - rewrite list_lookup_insert_ne in Hq by done. by exists q. }
  split; [|split].
  - unfold window_filled, w0. cbn. rewrite length_insert.
    split; [done|]. split; [done|]. intros j q Hq Hc.
    destruct (Hlook j q Hq) as (q0 & Hq0 & ->). by apply (Hall j q0).
  - intros Hs j q Hq Hj.
    destruct (Hlook j q Hq) as (q0 & Hq0 & ->). by apply (Hun Hs j q0).
  - unfold counters_unsigned, w0. cbn. apply Forall_insert; [done|].
    cbn. split; [apply uint64_nonneg|].
    destruct (pid =? PID_NULL); [|apply uint64_nonneg].
    exact (proj2 (proj1 (Forall_lookup _ _) Huns _ _ Hp)).
Qed.

Lemma checkTime_kept o now w w' :
  window_filled o w /\ startup_unfilled w /\ counters_unsigned w ->
  checkTime o now w = Some w' ->
  window_filled o w' /\ startup_unfilled w' /\ counters_unsigned w'.
Proof.
  intros (Hfill & Hun & Huns) Hck. split; [|split].
  - eapply checkTime_filled; eauto.
  - eapply checkTime_unfilled; eauto. apply Hfill.
  - eapply checkTime_unsigned; eauto.
Qed.

Lemma running_filled o w :
  0 < window_size o ->
  running o w ->
  window_filled o w /\ startup_unfilled w /\ counters_unsigned w.
Proof.
  intros HW. induction 1 as [now w w' Hstart | pid l now w l' w' _ IH Hrun
                            | now w w' _ IH Hrun].
  - injection Hstart as <-. split; [|split].
    + unfold window_filled. cbn. rewrite length_replicate.
      split; [done|]. split; [lia|]. intros j p _ Hj. lia.
    + intros _ j p Hp _. cbn in Hp. apply lookup_replicate in Hp as [-> _]. done.
    + unfold counters_unsigned. cbn. apply Forall_replicate. by cbn.
  - unfold processPacket in Hrun. destruct (pids o pid).
    + destruct (periods w !! periods_index w) as [p|] eqn:Hp; [|done].
      destruct IH as (Hfill & Hun & Huns).
      pose proof (count_packet_kept o w p pid Hp Hfill Hun Huns) as Hkept.
      cbv zeta in Hkept.
      destruct (checkTime o now _) as [w1|] eqn:Hck; [|done].
      injection Hrun as _ <-.
      exact (checkTime_kept _ _ _ _ Hkept Hck).
    + destruct (checkTime o now w) as [w1|] eqn:Hck; [|done].
      injection Hrun as _ <-.
      exact (checkTime_kept _ _ _ _ IH Hck).
  - unfold handlePacketTimeout in Hrun.
    destruct (checkTime o now w) as [w1|] eqn:Hck; [|done].
    injection Hrun as <-.
    exact (checkTime_kept _ _ _ _ IH Hck).
Qed.

Lemma total_packets_nonneg ps :
  Forall (fun p => 0 <= packets p /\ 0 <= non_null p) ps ->
  0 <= total_packets ps /\ 0 <= total_non_null ps.
Proof.
  induction 1 as [|p ps [Hp Hn] _ [IH1 IH2]]; [done|].
  change (total_packets (p :: ps)) with (packets p + total_packets ps).
  change (total_non_null (p :: ps)) with (non_null p + total_non_null ps).
  lia.
Qed.

(** C8: at a second boundary of the monotonic clock, a started monitor
    computes nothing while the window of buckets is not yet filled (the
    current bucket never held a duration); once it is, every bucket lasted
    at least one second and the bitrate is the number of packets of all
    buckets, times 1504 bits, times 1000000, divided by the sum of the
    durations of all buckets in microseconds.  The bitrate is 0 whenever
    this sum is not positive. *)
Theorem bitrate_at_second_boundary o w now :
  0 < window_size o ->
  running o w ->
  NanoSecPerSec <= now - last_second w ->
  (exists p,
     periods w !! periods_index w = Some p
     /\ let ps :=
          <[periods_index w :=
              mkPeriod (now - last_second w) (packets p) (non_null p)]>
            (periods w) in
        let duration_us := Z.quot (total_duration ps) NanoSecPerMicroSec in
        let w1 := set_periods ps now w in
        if startup w then
          duration p = 0 /\ checkTime o now w = Some (next_period w1)
        else
          length ps = Z.to_nat (window_size o)
          /\ Forall (fun q => NanoSecPerSec <= duration q) ps
          /\ 0 < duration_us
          /\ 0 <= total_packets ps
          /\ (total_packets ps < 2 ^ 64 ->
               uint64 (total_packets ps) = total_packets ps)
          /\ checkTime o now w =
               Some (next_period
                       (report_bitrates o
                          (br_div
                             (br_mul
                                (br_mul (br_of_int (uint64 (total_packets ps)))
                                   PKT_SIZE_BITS)
                                MicroSecPerSec)
                             duration_us)
                          (br_div
                             (br_mul
                                (br_mul (br_of_int (uint64 (total_non_null ps)))
                                   PKT_SIZE_BITS)
                                MicroSecPerSec)
                             duration_us)
                          w1)))
  /\ (forall ps,
       Z.quot (total_duration ps) NanoSecPerMicroSec <= 0 ->
       window_bitrates ps = (br_of_int 0, br_of_int 0)).
Proof.
  intros HW Hrun Hsec. split.
  - destruct (running_filled o w HW Hrun) as ((Hlen & Hidx & Hfill) & Hun & Huns).
    destruct (lookup_lt_is_Some_2 _ _ Hidx) as [p Hp].
    exists p. split; [exact Hp|]. cbv zeta.
    set (ps := <[periods_index w := _]> (periods w)).
    unfold checkTime. rewrite (proj2 (Z.leb_le _ _) Hsec), Hp. fold ps.
    change (startup (set_periods ps now w)) with (startup w).
    destruct (startup w) eqn:Hst.
    { split; [|done]. by apply (Hun Hst (periods_index w) p). }
    assert (Hall : Forall (fun q => NanoSecPerSec <= duration q) ps).
    { apply Forall_lookup. intros j q Hq.
      destruct (decide (j = periods_index w)) as [->|Hne].
      - unfold ps in Hq. rewrite list_lookup_insert_eq in Hq by done.
        injection Hq as <-. exact Hsec.
      - unfold ps in Hq. rewrite list_lookup_insert_ne in Hq by done.
        by apply (Hfill j q). }
    assert (Hlen' : length ps = Z.to_nat (window_size o))
      by (unfold ps; by rewrite length_insert).
    assert (Hdur : 0 < Z.quot (total_duration ps) NanoSecPerMicroSec).
    { pose proof (total_duration_ge ps Hall) as Hge.
      rewrite Hlen', Z2Nat.id in Hge by lia.
      unfold NanoSecPerSec in Hge. unfold NanoSecPerMicroSec.
      apply Z.quot_str_pos. nia. }
    assert (Hcnt : 0 <= total_packets ps).
    { apply total_packets_nonneg. unfold ps. apply Forall_insert; [exact Huns|].
      exact (proj1 (Forall_lookup _ _) Huns _ _ Hp). }
    split; [exact Hlen'|]. split; [exact Hall|]. split; [exact Hdur|].
    split; [exact Hcnt|].
    split; [intros Hlt; unfold uint64; apply Z.mod_small; lia|].
    unfold computeBitrate, window_bitrates. cbn [periods set_periods].
    rewrite window_totals_sum. unfold bitrate_of.
    by rewrite (proj2 (Z.ltb_lt _ _) Hdur).
  - intros ps Hle. unfold window_bitrates. rewrite window_totals_sum.
    unfold bitrate_of.
    destruct (0 <? Z.quot (total_duration ps) NanoSecPerMicroSec) eqn:E; [lia|done].
Qed.

End BitrateMonitorFacts.

(** * Properties of the store of logical channel numbers *)

Section LCNFacts.

Import LCN.

Implicit Types (m rest pre : LCNMap) (e : LCN.LCN).

Lemma lower_bound_le m k : (lower_bound m k <= length m)%nat.
Proof.
  induction m as [|[k' e'] m IH]; cbn; [lia|].
  destruct (k' <? k); cbn; lia.
Qed.

(** What the loop of [findLCN] returns is the match it was given or the
    position of an entry of the service and TS, whose original network id
    is the one asked for or 0xFFF. *)
Lemma findLCN_loop_result srv ts onet rest :
  forall pre result i,
    findLCN_loop srv ts onet (length pre) rest result = Some i ->
    result = Some i
    \/ exists k e,
         (pre ++ rest) !! i = Some (k, e)
         /\ k = srv /\ ts_id e = ts
         /\ (onet_id e = onet \/ onet_id e = 0xFFF).
Proof.
  induction rest as [|[k e] rest IH]; intros pre result i; cbn [findLCN_loop].
  - by left.
  - assert (Hhead : (pre ++ (k, e) :: rest) !! length pre = Some (k, e))
      by (by rewrite lookup_app_r, Nat.sub_diag).
    assert (Hstep : forall result',
              findLCN_loop srv ts onet (S (length pre)) rest result' = Some i ->
              result' = Some i
              \/ exists k0 e0,
                   (pre ++ (k, e) :: rest) !! i = Some (k0, e0)
                   /\ k0 = srv /\ ts_id e0 = ts
                   /\ (onet_id e0 = onet \/ onet_id e0 = 0xFFF)).
    { intros result' Hr.
      specialize (IH (pre ++ [(k, e)]) result' i).
      rewrite length_app, Nat.add_1_r, <- app_assoc in IH. by apply IH. }
    destruct (k =? srv) eqn:Ek; [|by left].
    destruct (ts_id e =? ts) eqn:Et; [|apply Hstep].
    destruct (onet_id e =? onet) eqn:Eo.
    + intros [= <-]. right. exists k, e. split; [done|]. lia.
    + destruct (onet_id e =? 0xFFF) eqn:Ef; [|apply Hstep].
      intros Hr. destruct (Hstep _ Hr) as [[= <-]|Hex]; [|by right].
      right. exists k, e. split; [done|]. lia.
Qed.

Lemma findLCN_result m srv ts onet i :
  findLCN m srv ts onet = Some i ->
  exists k e,
    m !! i = Some (k, e)
    /\ k = srv /\ ts_id e = ts
    /\ (onet_id e = onet \/ onet_id e = 0xFFF).
Proof.
  unfold findLCN. intros Hfind.
  pose proof (lower_bound_le m srv) as Hle.
  destruct (findLCN_loop_result srv ts onet (drop (lower_bound m srv) m)
              (take (lower_bound m srv) m) None i) as [Hnone|Hex].
  - by rewrite length_take, Nat.min_l.
  - done.
  - by rewrite take_drop in Hex.
Qed.

(** C9: an entry which [findLCN] returns although its original network id
    is not the one asked for has 0xFFF as original network id, so that an
    entry whose original network id is the "unspecified" 0xFFFF is never
    returned for another original network id. *)
Theorem findLCN_fallback m srv ts onet i k e :
  m !! i = Some (k, e) ->
  onet_id e = 0xFFFF ->
  onet <> 0xFFFF ->
  findLCN m srv ts onet <> Some i
  /\ forall j k' e',
       findLCN m srv ts onet = Some j ->
       m !! j = Some (k', e') ->
       onet_id e' <> onet ->
       onet_id e' = 0xFFF.
Proof.
  intros Hi He Honet. split.
  - intros Hfind.
    destruct (findLCN_result _ _ _ _ _ Hfind) as (k' & e' & Hi' & _ & _ & Ho).
    assert (e' = e) as -> by congruence.
    destruct Ho as [Ho|Ho]; rewrite He in Ho; [congruence | lia].
  - intros j k' e' Hfind Hj Hne.
    destruct (findLCN_result _ _ _ _ _ Hfind) as (k0 & e0 & Hj' & _ & _ & Ho).
    assert (e0 = e') as -> by congruence.
    by destruct Ho.
Qed.

End LCNFacts.

(** * Further properties of the executor ring *)

Section WaitFacts.

Import Tsp.

Context {BitRate BitRateConfidence : Type}.

Implicit Types (r : Tsp.Ring BitRate BitRateConfidence)
  (e s n me nx : Tsp.Executor BitRate BitRateConfidence) (i j k : nat)
  (wakes : list (Tsp.wake BitRate BitRateConfidence)).

(** One turn of the loop of [waitWork]. *)
Lemma wait_loop_unfold Infinite i m t wakes r :
  wait_loop Infinite i m t wakes r
  = match stages r !! i with
    | None => Fault
    | Some me =>
        match stages r !! ringNext (length (stages r)) i with
        | None => Fault
        | Some nx =>
            if wait_cond me nx m t then
              match wakes with
              | [] => Blocked
              | w :: wakes' =>
                  bind (run_ops (wake_ops w))
                    (fun _ =>
                       wait_loop Infinite i m
                         (if tsp_timeout me =? Infinite then t else wake_timeout w)
                         wakes') r
              end
            else Ok (t, r)
        end
    end.
Proof.
  destruct wakes; cbn [wait_loop]; unfold bind at 1, self at 1;
    (destruct (stages r !! i) as [me|]; [|reflexivity]);
    unfold bind at 1, ring_size at 1; unfold bind at 1, self at 1;
    (destruct (stages r !! ringNext _ i) as [nx|]; [|reflexivity]);
    destruct (wait_cond me nx m t); reflexivity.
Qed.

(** The loop is left only when its condition is false. *)
Lemma wait_loop_exit Infinite i m wakes :
  forall t r t' r',
    wait_loop Infinite i m t wakes r = Ok (t', r') ->
    exists me nx,
      stages r' !! i = Some me
      /\ stages r' !! ringNext (length (stages r')) i = Some nx
      /\ wait_cond me nx m t' = false.
Proof.
  induction wakes as [|w wakes IH]; intros t r t' r'; rewrite wait_loop_unfold;
    destruct (stages r !! i) as [me|] eqn:Hi; try done;
    destruct (stages r !! ringNext _ i) as [nx|] eqn:Hn; try done;
    destruct (wait_cond me nx m t) eqn:Hc; try done;
    try (intros [= <- <-]; by exists me, nx).
  rewrite bind_unfold. destruct (run_ops (wake_ops w) r) as [[[] r1]| |]; [|done..].
  apply IH.
Qed.

Lemma run_ops_app (os1 os2 : list (Tsp.op BitRate BitRateConfidence)) r :
  run_ops (os1 ++ os2) r = bind (run_ops os1) (fun _ => run_ops os2) r.
Proof.
  revert r. induction os1 as [|o os1 IH]; intros r; [reflexivity|].
  cbn [app run_ops]. rewrite !bind_unfold.
  destruct (run_op o r) as [[[] r1]| |]; [|done..].
  rewrite IH. by rewrite bind_unfold.
Qed.

(** The loop leaves the state which the operations of the other threads
    made. *)
Lemma wait_loop_reads Infinite i m wakes :
  forall t r t' r',
    wait_loop Infinite i m t wakes r = Ok (t', r') ->
    exists k, run_ops (concat (wake_ops <$> take k wakes)) r = Ok (tt, r').
Proof.
  induction wakes as [|w wakes IH]; intros t r t' r'; rewrite wait_loop_unfold;
    destruct (stages r !! i) as [me|] eqn:Hi; try done;
    destruct (stages r !! ringNext _ i) as [nx|] eqn:Hn; try done;
    destruct (wait_cond me nx m t) eqn:Hc; try done;
    try (intros [= <- <-]; by exists 0%nat).
  rewrite bind_unfold.
  destruct (run_ops (wake_ops w) r) as [[[] r1]| |] eqn:Hops; [|done..].
  intros Hloop. destruct (IH _ _ _ _ Hloop) as [k Hk].
  exists (S k). cbn [take fmap list_fmap concat].
  by rewrite run_ops_app, bind_unfold, Hops.
Qed.

(** The loop sets [timeout] only upon a timeout which the plugin refuses. *)
Lemma wait_loop_timeout Infinite i m wakes :
  forall t r r',
    wait_loop Infinite i m t wakes r = Ok (true, r') ->
    t = true \/ exists os, TimedOut os false ∈ wakes.
Proof.
  induction wakes as [|w wakes IH]; intros t r r'; rewrite wait_loop_unfold;
    destruct (stages r !! i) as [me|] eqn:Hi; try done;
    destruct (stages r !! ringNext _ i) as [nx|] eqn:Hn; try done;
    destruct (wait_cond me nx m t) eqn:Hc; try done;
    try (intros [= <- <-]; by left).
  rewrite bind_unfold.
  destruct (run_ops (wake_ops w) r) as [[[] r1]| |] eqn:Hops; [|done..].
  intros Hloop. destruct (IH _ _ _ Hloop) as [Ht|[os Hos]].
  - destruct (tsp_timeout me =? Infinite); [by left|].
    right. destruct w as [os|os [|]]; try done.
    exists os. apply list_elem_of_here.
  - right. exists os. by apply list_elem_of_further.
Qed.

(** With an infinite packet timeout the loop never sets [timeout]. *)
Lemma wait_loop_infinite Infinite i m wakes :
  forall r me t' r',
    stages r !! i = Some me ->
    tsp_timeout me = Infinite ->
    wait_loop Infinite i m false wakes r = Ok (t', r') ->
    t' = false.
Proof.
  induction wakes as [|w wakes IH]; intros r me0 t' r' Hme Hinf;
    rewrite wait_loop_unfold, Hme;
    destruct (stages r !! ringNext _ i) as [nx|] eqn:Hn; try done;
    destruct (wait_cond me0 nx m false) eqn:Hc; try done;
    try (by intros [= <- <-]).
  rewrite bind_unfold.
  destruct (run_ops (wake_ops w) r) as [[[] r1]| |] eqn:Hops; [|done..].
  rewrite Hinf, Z.eqb_refl.
  destruct (raising_run_ops _ _ _ _ Hops) as [_ Hkeep].
  destruct (Hkeep _ _ Hme) as (me1 & Hme1 & (_ & _ & Hto & _)).
  apply (IH r1 me1); [done | congruence].
Qed.

(** X1: [waitWork] does not wait when the window holds the requested
    minimum (at most the size of the buffer), when the input has ended or
    when the next stage is aborting: it returns at once, without timeout and
    leaving the shared state as it is, whatever would wake it up.  In any
    other case, a call which nobody wakes up stays blocked. *)
Theorem waitWork_returns_at_once Infinite i min_pkt_cnt wakes r me nx :
  stages r !! i = Some me ->
  stages r !! ringNext (length (stages r)) i = Some nx ->
  (clamp_min me min_pkt_cnt <= pkt_cnt me
   \/ input_end me = true \/ tsp_aborting nx = true ->
   exists w,
     waitWork Infinite i min_pkt_cnt wakes r = Ok (w, r)
     /\ w_timeout w = false)
  /\ (pkt_cnt me < clamp_min me min_pkt_cnt ->
      input_end me = false -> tsp_aborting nx = false ->
      waitWork Infinite i min_pkt_cnt [] r = Blocked).
Proof.
  intros Hi Hn. split.
  - intros Hready.
    assert (Hc : wait_cond me nx (clamp_min me min_pkt_cnt) false = false).
    { unfold wait_cond.
      destruct Hready as [Hcnt|[Hie|Hab]].
      - by rewrite (proj2 (Z.ltb_ge _ _) Hcnt).
      - rewrite Hie. cbn. by rewrite andb_false_r.
      - rewrite Hab. cbn. by rewrite andb_false_r. }
    unfold waitWork. rewrite bind_unfold, (self_lookup r i me Hi).
    rewrite bind_unfold, wait_loop_unfold, Hi, Hn, Hc.
    unfold bind, self, ring_size, ret. rewrite Hi, Hn.
    eexists. split; reflexivity.
  - intros Hcnt Hie Hab.
    assert (Hc : wait_cond me nx (clamp_min me min_pkt_cnt) false = true).
    { unfold wait_cond. rewrite (proj2 (Z.ltb_lt _ _) Hcnt), Hie, Hab. done. }
    unfold waitWork. rewrite bind_unfold, (self_lookup r i me Hi).
    rewrite bind_unfold, wait_loop_unfold, Hi, Hn, Hc. done.
Qed.

(** X2: the slice which [waitWork] returns starts at the head of the window
    and lies in the window; it does not cross the end of the buffer when the
    requested minimum fits before it; and, unless the call timed out, the
    input ended or the next stage is aborting, it holds at least the
    requested minimum (at most the size of the buffer). *)
Theorem waitWork_slice Infinite B i min_pkt_cnt wakes r w r' me0 me nx :
  buffer_fits B ->
  0 <= min_pkt_cnt ->
  stages r !! i = Some me0 ->
  buffer_count me0 = B ->
  waitWork Infinite i min_pkt_cnt wakes r = Ok (w, r') ->
  stages r' !! i = Some me ->
  stages r' !! ringNext (length (stages r')) i = Some nx ->
  window_fits B me ->
  w_pkt_first w = pkt_first me
  /\ 0 <= w_pkt_cnt w <= pkt_cnt me
  /\ (pkt_first me + min_pkt_cnt <= B -> w_pkt_first w + w_pkt_cnt w <= B)
  /\ (w_timeout w = false -> input_end me = false -> tsp_aborting nx = false ->
      Z.min min_pkt_cnt B <= w_pkt_cnt w).
Proof.
  intros HB Hm Hi HB0 Hrun Hme Hnx Hfit.
  destruct (waitWork_Ok _ _ _ _ _ _ _ Hrun)
    as (me0' & me' & nx' & timeout & Hi' & Hloop & Hme' & Hnx' & ->).
  assert (me0' = me0) as -> by congruence.
  assert (me' = me) as -> by congruence.
  assert (nx' = nx) as -> by congruence.
  destruct (wait_loop_exit _ _ _ _ _ _ _ _ Hloop) as (me1 & nx1 & Hme1 & Hnx1 & Hc).
  assert (me1 = me) as -> by congruence.
  assert (nx1 = nx) as -> by congruence.
  pose proof Hfit as (HmB & Hf & Hcn).
  cbn [w_pkt_first w_pkt_cnt w_timeout].
  unfold clamp_min in *. rewrite HB0 in *.
  destruct timeout.
  - cbn. repeat split; first [lia | discriminate].
  - rewrite (returned_cnt_fits B) by done.
    split; [done|].
    destruct (pkt_first me + min_pkt_cnt <=? B) eqn:E.
    + split; [lia|]. split; [lia|].
      intros _ Hie Hab. unfold wait_cond in Hc. rewrite Hie, Hab in Hc. cbn in Hc.
      rewrite !andb_true_r in Hc. apply Z.ltb_ge in Hc.
      destruct (B <? min_pkt_cnt) eqn:E1; lia.
    + split; [lia|]. split; [lia|].
      intros _ Hie Hab. unfold wait_cond in Hc. rewrite Hie, Hab in Hc. cbn in Hc.
      rewrite !andb_true_r in Hc. apply Z.ltb_ge in Hc.
      destruct (B <? min_pkt_cnt) eqn:E1; lia.
Qed.

(** X3: [waitWork] writes nothing to the shared state: the state it leaves
    is the state which the operations of the other executors made, those
    which completed before the wake-ups it went through. *)
Theorem waitWork_reads_only Infinite i min_pkt_cnt wakes r w r' :
  waitWork Infinite i min_pkt_cnt wakes r = Ok (w, r') ->
  exists k,
    (k <= length wakes)%nat
    /\ run_ops (concat (wake_ops <$> take k wakes)) r = Ok (tt, r').
Proof.
  intros Hrun.
  destruct (waitWork_Ok _ _ _ _ _ _ _ Hrun)
    as (me0 & me & nx & timeout & _ & Hloop & _).
  destruct (wait_loop_reads _ _ _ _ _ _ _ _ Hloop) as [k Hk].
  destruct (decide (k <= length wakes)%nat) as [Hle|Hgt].
  - by exists k.
  - exists (length wakes). split; [done|].
    rewrite take_ge in Hk by lia. by rewrite take_ge.
Qed.

(** X4: [waitWork] reports a timeout only when a wait timed out and the
    plugin's [handlePacketTimeout()] answered false; with an infinite packet
    timeout it never does. *)
Theorem waitWork_timeout_refused Infinite i min_pkt_cnt wakes r w r' me0 :
  stages r !! i = Some me0 ->
  waitWork Infinite i min_pkt_cnt wakes r = Ok (w, r') ->
  (w_timeout w = true -> exists os, TimedOut os false ∈ wakes)
  /\ (tsp_timeout me0 = Infinite -> w_timeout w = false).
Proof.
  intros Hi Hrun.
  destruct (waitWork_Ok _ _ _ _ _ _ _ Hrun)
    as (me0' & me & nx & timeout & Hi' & Hloop & _ & _ & ->).
  assert (me0' = me0) as -> by congruence.
  cbn [w_timeout]. split.
  - intros ->. by destruct (wait_loop_timeout _ _ _ _ _ _ _ Hloop).
  - intros Hinf. by apply (wait_loop_infinite _ _ _ _ _ _ _ _ Hi Hinf Hloop).
Qed.

End WaitFacts.

Section PassFacts.

Import Tsp.

Context {BitRate BitRateConfidence : Type}.

Implicit Types (r : Tsp.Ring BitRate BitRateConfidence)
  (e s n me nx : Tsp.Executor BitRate BitRateConfidence) (i j k : nat).

(** The whole state after [passPackets], notifications included. *)
Lemma passPackets_run_full r i s n count br conf ie ab :
  let j := ringNext (length (stages r)) i in
  stages r !! i = Some s ->
  stages r !! j = Some n ->
  j <> i ->
  count <= pkt_cnt s ->
  buffer_count s <> 0 ->
  passPackets i count br conf ie ab r
  = Ok (negb ie && negb (effective_abort ab s n),
        mkRing (<[i := passed_self count (effective_abort ab s n) s]>
                  (<[j := passed_next count br conf ie n]> (stages r)))
          (passed_notified (length (stages r)) i count ie (effective_abort ab s n)
             ++ notified r)).
Proof.
  intros j Hi Hj Hne Hcnt HB.
  assert (Hil : (i < length (stages r))%nat) by (eapply lookup_lt_Some; eauto).
  assert (Hjl : (j < length (stages r))%nat) by (eapply lookup_lt_Some; eauto).
  unfold passPackets, bind, self, update, ring_size, when, fault, ret, notify_one.
  rewrite Hi.
  destruct (count <=? pkt_cnt s) eqn:E; [|lia]. simpl.
  destruct (buffer_count s =? 0) eqn:E0; [lia|]. simpl.
  rewrite Hi. simpl.
  rewrite list_lookup_insert_eq by done. simpl.
  rewrite !length_insert. fold j.
  rewrite list_lookup_insert_ne by done.
  rewrite list_lookup_insert_ne by done.
  rewrite Hj. simpl.
  rewrite list_lookup_insert_eq by (rewrite !length_insert; done). simpl.
  rewrite list_lookup_insert_eq by (rewrite !length_insert; done). simpl.
  rewrite !list_insert_insert_eq.
  set (s1 := set_pkt_cnt _ (set_pkt_first _ s)).
  set (n1 := set_input_end _ _).
  assert (Hl1 : <[j:=n1]> (<[i:=s1]> (stages r)) !! i = Some s1).
  { rewrite list_lookup_insert_ne by done. by apply list_lookup_insert_eq. }
  assert (Hl2 : <[j:=n1]> (<[i:=s1]> (stages r)) !! j = Some n1).
  { apply list_lookup_insert_eq. by rewrite length_insert. }
  assert (Heff : (if is_output (plugin_type s1) then ab else ab || tsp_aborting n1)
                 = effective_abort ab s n) by done.
  unfold passed_notified. fold j.
  destruct ((0 <? count) || ie);
    do 3 (cbn beta iota; cbn [stages notified]; rewrite ?Hl1, ?Hl2);
    rewrite Heff;
    destruct (effective_abort ab s n) eqn:Eeff;
    do 3 (cbn beta iota; cbn [stages notified]; rewrite ?Hl1, ?Hl2);
    f_equal; f_equal; f_equal;
    rewrite (list_insert_insert_ne _ j i) by done;
    rewrite ?list_insert_insert_eq;
    f_equal; unfold passed_self, s1; destruct s; cbn;
    rewrite ?orb_true_r, ?orb_false_r; reflexivity.
Qed.

Lemma setAbort_run r j n :
  stages r !! j = Some n ->
  setAbort j r
  = Ok (tt, mkRing (<[j := set_tsp_aborting true n]> (stages r))
              (ringPrevious (length (stages r)) j :: notified r)).
Proof.
  intros Hj. unfold setAbort, bind, update, ring_size, notify_one.
  rewrite Hj. cbn. by rewrite length_insert.
Qed.

(** X5: an abort travels backward.  Once [setAbort] was called on the next
    stage of a stage which is not the output, [waitWork] of that stage
    returns at once with [aborted = true], whatever it asks for, and its
    [passPackets] returns false, marks the stage itself as aborting and
    notifies its own previous stage. *)
Theorem setAbort_propagates_back Infinite r i s n :
  stages r !! i = Some s ->
  stages r !! ringNext (length (stages r)) i = Some n ->
  ringNext (length (stages r)) i <> i ->
  is_output (plugin_type s) = false ->
  exists r1,
    setAbort (ringNext (length (stages r)) i) r = Ok (tt, r1)
    /\ (forall min_pkt_cnt wakes,
          exists w,
            waitWork Infinite i min_pkt_cnt wakes r1 = Ok (w, r1)
            /\ w_aborted w = true /\ w_timeout w = false)
    /\ (forall count br conf ie ab,
          count <= pkt_cnt s -> buffer_count s <> 0 ->
          exists r2 s',
            passPackets i count br conf ie ab r1 = Ok (false, r2)
            /\ stages r2 !! i = Some s'
            /\ tsp_aborting s' = true
            /\ head (notified r2) = Some (ringPrevious (length (stages r)) i)).
Proof.
  intros Hi Hn Hne Hout.
  set (j := ringNext (length (stages r)) i) in *.
  assert (Hil : (i < length (stages r))%nat) by (eapply lookup_lt_Some; eauto).
  assert (Hjl : (j < length (stages r))%nat) by (eapply lookup_lt_Some; eauto).
  set (n1 := set_tsp_aborting true n).
  set (r1 := mkRing (<[j := n1]> (stages r))
               (ringPrevious (length (stages r)) j :: notified r)).
  assert (Hlen1 : length (stages r1) = length (stages r))
    by (cbn; apply length_insert).
  assert (Hi1 : stages r1 !! i = Some s)
    by (cbn; by rewrite list_lookup_insert_ne).
  assert (Hn1 : stages r1 !! ringNext (length (stages r1)) i = Some n1).
  { rewrite Hlen1. fold j. cbn. by apply list_lookup_insert_eq. }
  exists r1. split; [by apply setAbort_run|]. split.
  - intros m wakes.
    assert (Hc : wait_cond s n1 (clamp_min s m) false = false).
    { unfold wait_cond. cbn. by rewrite andb_false_r. }
    unfold waitWork. rewrite bind_unfold, (self_lookup r1 i s Hi1).
    rewrite bind_unfold, wait_loop_unfold, Hi1, Hn1, Hc.
    unfold bind, self, ring_size, ret. rewrite Hi1, Hn1.
    eexists. split; [reflexivity|]. cbn. by rewrite Hout.
  - intros count br conf ie ab Hc HB.
    assert (Heff : effective_abort ab s n1 = true).
    { unfold effective_abort. rewrite Hout. cbn. apply orb_true_r. }
    pose proof (passPackets_run_full r1 i s n1 count br conf ie ab Hi1 Hn1) as Hrun.
    rewrite Hlen1 in Hrun. fold j in Hrun.
    rewrite Hrun by done. rewrite Heff, andb_false_r.
    eexists _, _. split; [reflexivity|]. cbn [stages notified].
    split; [apply list_lookup_insert_eq; rewrite length_insert, Hlen1; exact Hil|].
    split; [cbn; apply orb_true_r|].
    unfold passed_notified. done.
Qed.

Lemma pass_nothing_back_S (br : BitRate) (conf : BitRateConfidence) k :
  pass_nothing_back (S k) br conf
  = OpPassPackets k 0 br conf false false :: pass_nothing_back k br conf.
Proof.
  unfold pass_nothing_back. rewrite seq_S, reverse_app. reflexivity.
Qed.

(** X6: an abort reaches the input.  When stage [k] is aborting and the
    stages before it, none of them the output, then pass packets in turn,
    from stage [k - 1] down to the input (here no packet at all), each call
    marks its caller as aborting: in the end all stages up to [k] are. *)
Theorem abort_reaches_input (br : BitRate) (conf : BitRateConfidence) k :
  forall r ek,
    stages r !! k = Some ek ->
    tsp_aborting ek = true ->
    (forall i e, (i < k)%nat -> stages r !! i = Some e ->
       is_output (plugin_type e) = false /\ buffer_count e <> 0 /\ 0 <= pkt_cnt e) ->
    exists r',
      run_ops (pass_nothing_back k br conf) r = Ok (tt, r')
      /\ forall i, (i <= k)%nat ->
           exists e, stages r' !! i = Some e /\ tsp_aborting e = true.
Proof.
  induction k as [|k IH]; intros r ek Hk Hab Hbefore.
  - exists r. split; [reflexivity|].
    intros i Hi. assert (i = 0%nat) as -> by lia. by exists ek.
  - assert (Hkl : (S k < length (stages r))%nat) by (eapply lookup_lt_Some; eauto).
    destruct (lookup_lt_is_Some_2 (stages r) k) as [s Hs]; [lia|].
    destruct (Hbefore k s) as (Hout & HB & Hcnt); [lia | done |].
    assert (Hnext : ringNext (length (stages r)) k = S k).
    { unfold ringNext. case_decide; lia. }
    assert (Heff : effective_abort false s ek = true).
    { unfold effective_abort. by rewrite Hout, Hab. }
    set (s1 := passed_self 0 true s).
    set (r1 := mkRing (<[k := s1]>
                         (<[S k := passed_next 0 br conf false ek]> (stages r)))
                 (passed_notified (length (stages r)) k 0 false true
                    ++ notified r)).
    assert (Hs1 : stages r1 !! k = Some s1).
    { cbn. apply list_lookup_insert_eq. rewrite length_insert. lia. }
    destruct (IH r1 s1 Hs1) as (r' & Hops & Hall).
    + cbn. apply orb_true_r.
    + intros i e Hi He. cbn in He.
      rewrite !list_lookup_insert_ne in He by lia. apply (Hbefore i e); [lia | done].
    + exists r'. split.
      * rewrite pass_nothing_back_S.
        change (run_ops (OpPassPackets k 0 br conf false false
                           :: pass_nothing_back k br conf) r)
          with (bind (run_op (OpPassPackets k 0 br conf false false))
                  (fun _ => run_ops (pass_nothing_back k br conf)) r).
        rewrite bind_unfold. cbn [run_op]. rewrite bind_unfold.
        pose proof (passPackets_run_full r k s ek 0 br conf false false) as Hrun.
        rewrite Hnext in Hrun. rewrite (Hrun Hs Hk) by lia. rewrite Heff.
        exact Hops.
      * intros i Hi. destruct (decide (i = S k)) as [->|Hne].
        -- destruct (raising_run_ops _ _ _ _ Hops) as [_ Hkeep].
           assert (Hek1 : stages r1 !! S k = Some (passed_next 0 br conf false ek)).
           { cbn. rewrite list_lookup_insert_ne by lia.
             by apply list_lookup_insert_eq. }
           destruct (Hkeep _ _ Hek1) as (e' & He' & (_ & _ & _ & _ & Hab')).
           exists e'. split; [done|]. apply Hab'. exact Hab.
        -- apply Hall. lia.
Qed.

(** X7: passing packets twice is passing them once.  Two calls in a row by
    the same stage, with [c1] then [c2] packets, leave all windows and flags
    as one call with [c1 + c2] packets, the latest bitrate and the
    disjunction of the flags; the one call returns true exactly when both
    calls do. *)
Theorem passPackets_twice B r i s n c1 c2 br1 conf1 br2 conf2 ie1 ie2 ab1 ab2 :
  buffer_fits B ->
  stages r !! i = Some s ->
  stages r !! ringNext (length (stages r)) i = Some n ->
  ringNext (length (stages r)) i <> i ->
  window_fits B s -> window_fits B n ->
  0 <= c1 -> 0 <= c2 -> c1 + c2 <= pkt_cnt s ->
  exists res1 r1 res2 r2 r12,
    passPackets i c1 br1 conf1 ie1 ab1 r = Ok (res1, r1)
    /\ passPackets i c2 br2 conf2 ie2 ab2 r1 = Ok (res2, r2)
    /\ passPackets i (c1 + c2) br2 conf2 (ie1 || ie2) (ab1 || ab2) r
       = Ok (res1 && res2, r12)
    /\ stages r12 = stages r2.
Proof.
  intros HB Hi Hn Hne (HsB & Hsf & Hsc) (HnB & Hnf & Hnc) H1 H2 H12.
  destruct (buffer_fits_twice B HB) as [HB0 HB2].
  set (j := ringNext (length (stages r)) i) in *.
  assert (Hil : (i < length (stages r))%nat) by (eapply lookup_lt_Some; eauto).
  assert (Hjl : (j < length (stages r))%nat) by (eapply lookup_lt_Some; eauto).
  pose proof (passPackets_run_full r i s n c1 br1 conf1 ie1 ab1 Hi Hn Hne) as R1.
  fold j in R1. specialize (R1 ltac:(lia) ltac:(lia)).
  set (s1 := passed_self c1 (effective_abort ab1 s n) s) in *.
  set (n1 := passed_next c1 br1 conf1 ie1 n) in *.
  set (r1 := mkRing (<[i := s1]> (<[j := n1]> (stages r))) _) in R1.
  assert (Hlen1 : length (stages r1) = length (stages r))
    by (cbn; by rewrite !length_insert).
  assert (Hi1 : stages r1 !! i = Some s1).
  { cbn. apply list_lookup_insert_eq. by rewrite length_insert. }
  assert (Hn1 : stages r1 !! ringNext (length (stages r1)) i = Some n1).
  { rewrite Hlen1. fold j. cbn. rewrite list_lookup_insert_ne by done.
    by apply list_lookup_insert_eq. }
  assert (Hne1 : ringNext (length (stages r1)) i <> i) by (by rewrite Hlen1).
  pose proof (passPackets_run_full r1 i s1 n1 c2 br2 conf2 ie2 ab2 Hi1 Hn1 Hne1) as R2.
  rewrite Hlen1 in R2. fold j in R2.
  assert (Hs1c : pkt_cnt s1 = pkt_cnt s - c1) by (cbn; apply size_t_small; lia).
  assert (Hs1B : buffer_count s1 = B) by (cbn; done).
  specialize (R2 ltac:(lia) ltac:(lia)).
  pose proof (passPackets_run_full r i s n (c1 + c2) br2 conf2 (ie1 || ie2)
                (ab1 || ab2) Hi Hn Hne) as R12.
  fold j in R12. specialize (R12 ltac:(lia) ltac:(lia)).
  eexists _, _, _, _, _. split; [exact R1|]. split; [exact R2|].
  rewrite R12.
  assert (Heff : effective_abort (ab1 || ab2) s n
                 = effective_abort ab1 s n || effective_abort ab2 s1 n1).
  { unfold effective_abort. cbn.
    destruct (is_output (plugin_type s)), ab1, ab2, (tsp_aborting n); done. }
  split.
  - f_equal. f_equal. rewrite Heff.
    by destruct ie1, ie2, (effective_abort ab1 s n), (effective_abort ab2 s1 n1).
  - cbn [stages].
    unfold r1. cbn [stages].
    rewrite (list_insert_insert_ne (<[j := n1]> (stages r)) j i) by done.
    rewrite !list_insert_insert_eq.
    f_equal; [|f_equal].
    + rewrite Heff. unfold passed_self, s1, passed_self. cbn.
      rewrite HsB. rewrite !size_t_small by lia.
      rewrite (size_t_small ((pkt_first s + c1) mod B + c2)).
      2:{ pose proof (Z.mod_pos_bound (pkt_first s + c1) B HB0). lia. }
      rewrite Z.add_mod_idemp_l by lia.
      rewrite orb_assoc. rewrite (size_t_small (pkt_cnt s - c1 - c2)) by lia.
      unfold set_tsp_aborting, set_window; cbn.
      f_equal; first [lia | f_equal; lia].
    + unfold passed_next, n1, passed_next. cbn.
      rewrite (size_t_small (pkt_cnt n + c1)) by lia.
      rewrite (size_t_small (pkt_cnt n + c1 + c2)) by lia. rewrite orb_assoc.
      rewrite (size_t_small (pkt_cnt n + (c1 + c2))) by lia.
      unfold set_input_end, set_bitrate, set_pkt_cnt, set_window; cbn.
      f_equal; lia.
Qed.

(** *** The windows never overlap *)

Lemma total_count_app (l1 l2 : list (Tsp.Executor BitRate BitRateConfidence)) :
  total_count (l1 ++ l2) = total_count l1 + total_count l2.
Proof.
  induction l1 as [|e l1 IH]; [reflexivity|].
  change (pkt_cnt e + total_count (l1 ++ l2)
          = pkt_cnt e + total_count l1 + total_count l2).
  rewrite IH. lia.
Qed.

Lemma total_count_elem (l : list (Tsp.Executor BitRate BitRateConfidence)) k e :
  Forall (fun e => 0 <= pkt_cnt e) l ->
  l !! k = Some e -> pkt_cnt e <= total_count l.
Proof.
  intros Hall. revert k. induction Hall as [|x l Hx Hall IH]; intros [|k] Hk; try done.
  - injection Hk as ->. pose proof (total_count_nonneg l Hall).
    change (pkt_cnt e <= pkt_cnt e + total_count l). lia.
  - specialize (IH k Hk).
    change (pkt_cnt e <= pkt_cnt x + total_count l). lia.
Qed.

Lemma total_count_take (l : list (Tsp.Executor BitRate BitRateConfidence)) d :
  Forall (fun e => 0 <= pkt_cnt e) l ->
  total_count (take d l) <= total_count l.
Proof.
  intros Hall. rewrite <- (take_drop d l) at 2. rewrite total_count_app.
  pose proof (total_count_nonneg (drop d l) (Forall_drop _ d _ Hall)). lia.
Qed.

(** Going [d] stages down the chain, the windows met on the way lie one
    after the other, in reverse order, up to the start of the window one
    started from. *)
Lemma window_chain B r d :
  0 < B ->
  next_precedes B r ->
  forall i s t,
    stages r !! i = Some s -> stages r !! (i + d)%nat = Some t ->
    (pkt_first t + total_count (take d (drop (S i) (stages r)))) mod B
    = pkt_first s mod B.
Proof.
  intros HB Hpre. induction d as [|d IH]; intros i s t Hi Hj.
  - rewrite Nat.add_0_r in Hj. replace t with s by congruence.
    cbn. by rewrite Z.add_0_r.
  - assert (Hlt : (i + S d < length (stages r))%nat) by (eapply lookup_lt_Some; eauto).
    destruct (lookup_lt_is_Some_2 (stages r) (S i)) as [u Hu]; [lia|].
    assert (Hnext : ringNext (length (stages r)) i = S i).
    { unfold ringNext. case_decide; lia. }
    pose proof (Hpre i s u Hi) as Hstep. rewrite Hnext in Hstep.
    specialize (Hstep Hu).
    replace (i + S d)%nat with (S i + d)%nat in Hj by lia.
    specialize (IH (S i) u t Hu Hj).
    rewrite (drop_S _ u (S i)) by done.
    change (take (S d) (u :: drop (S (S i)) (stages r)))
      with (u :: take d (drop (S (S i)) (stages r))).
    change (total_count (u :: take d (drop (S (S i)) (stages r))))
      with (pkt_cnt u + total_count (take d (drop (S (S i)) (stages r)))).
    rewrite <- Hstep, Z.mod_mod by lia.
    rewrite <- (Z.add_mod_idemp_l (pkt_first u)), <- IH, Z.add_mod_idemp_l by lia.
    f_equal. lia.
Qed.

Lemma windows_disjoint_lt B r i j s t a b :
  ring_inv B r -> 0 < B ->
  stages r !! i = Some s -> stages r !! j = Some t -> (i < j)%nat ->
  0 <= a < pkt_cnt s -> 0 <= b < pkt_cnt t ->
  slot B s a <> slot B t b.
Proof.
  intros (_ & Hfit & Htot & Hpre) HB Hi Hj Hlt Ha Hb.
  assert (Hall : Forall (fun e => 0 <= pkt_cnt e) (stages r)).
  { eapply Forall_impl; [exact Hfit|]. intros e (_ & _ & He). lia. }
  set (d := (j - i)%nat).
  set (T := total_count (take d (drop (S i) (stages r)))).
  assert (Hchain : (pkt_first t + T) mod B = pkt_first s mod B).
  { apply window_chain; [done | done | done |]. by replace (i + d)%nat with j by lia. }
  assert (HT1 : pkt_cnt t <= T).
  { apply (total_count_elem _ (d - 1)).
    - by apply Forall_take, Forall_drop.
    - rewrite lookup_take_lt by lia. rewrite lookup_drop.
      by replace (S i + (d - 1))%nat with j by lia. }
  assert (HT2 : T + pkt_cnt s <= B).
  { rewrite <- Htot. rewrite <- (take_drop (S i) (stages r)).
    rewrite total_count_app.
    assert (pkt_cnt s <= total_count (take (S i) (stages r))).
    { apply (total_count_elem _ i); [by apply Forall_take|].
      by rewrite lookup_take_lt by lia. }
    pose proof (total_count_take (drop (S i) (stages r)) d
                  (Forall_drop _ _ _ Hall)).
    fold T in H0. lia. }
  unfold slot. intros Heq.
  rewrite <- (Z.add_mod_idemp_l (pkt_first s)), <- Hchain, Z.add_mod_idemp_l in Heq by lia.
  pose proof (Z.div_mod (pkt_first t + T + a) B ltac:(lia)) as E1.
  pose proof (Z.div_mod (pkt_first t + b) B ltac:(lia)) as E2.
  rewrite Heq in E1.
  set (q := (pkt_first t + T + a) / B - (pkt_first t + b) / B).
  assert (E : T + a - b = B * q) by (unfold q; lia).
  destruct (Z_le_gt_dec q 0); nia.
Qed.

(** X8: the windows never overlap.  In any state of a running pipeline no
    slot of the packet buffer lies in the windows of two stages: the [a]-th
    packet of one stage and the [b]-th packet of another are never the same
    slot. *)
Theorem windows_disjoint B first r0 r i j s t a b :
  buffer_fits B -> 0 <= first < B ->
  (2 <= length (stages r0))%nat ->
  reachable B first r0 r ->
  stages r !! i = Some s -> stages r !! j = Some t -> i <> j ->
  0 <= a < pkt_cnt s -> 0 <= b < pkt_cnt t ->
  slot B s a <> slot B t b.
Proof.
  intros HB Hf Hlen Hreach Hi Hj Hne Ha Hb.
  pose proof (reachable_inv B first r0 r HB Hf Hlen Hreach) as Hinv.
  destruct HB as [HB0 _].
  destruct (decide (i < j)%nat) as [Hlt|Hge].
  - by apply (windows_disjoint_lt B r i j).
  - intros Heq. symmetry in Heq. revert Heq.
    apply (windows_disjoint_lt B r j i); [done..|lia|done|done].
Qed.

(** X9: packets passed are packets received.  A stage which waits for
    packets, its input not ended and its next stage not aborting, is served
    by the call of [passPackets] of the stage before it: its [waitWork]
    stays blocked without this call and, woken up after it, returns without
    timeout a slice which starts at its window, is not empty, and comes with
    the bitrate which the call gave. *)
Theorem passPackets_wakes_next Infinite B r i s n nn count br conf ie ab m wakes :
  let j := ringNext (length (stages r)) i in
  let k := ringNext (length (stages r)) j in
  buffer_fits B ->
  stages r !! i = Some s -> stages r !! j = Some n -> stages r !! k = Some nn ->
  j <> i ->
  window_fits B s -> window_fits B n ->
  0 <= count <= pkt_cnt s ->
  pkt_cnt n < m <= pkt_cnt n + count ->
  m <= B ->
  input_end n = false -> tsp_aborting nn = false ->
  waitWork Infinite j m [] r = Blocked
  /\ exists res r1 w,
       passPackets i count br conf ie ab r = Ok (res, r1)
       /\ waitWork Infinite j m
            (Notified [OpPassPackets i count br conf ie ab] :: wakes) r
          = Ok (w, r1)
       /\ w_timeout w = false
       /\ w_pkt_first w = pkt_first n
       /\ 0 < w_pkt_cnt w <= pkt_cnt n + count
       /\ w_bitrate w = br /\ w_br_confidence w = conf.
Proof.
  intros j k HB Hi Hj Hk Hne (HsB & Hsf & Hsc) (HnB & Hnf & Hnc) Hcount Hm HmB Hie Hab.
  destruct (buffer_fits_twice B HB) as [HB0 HB2].
  assert (Hjl : (j < length (stages r))%nat) by (eapply lookup_lt_Some; eauto).
  assert (Hkl : (k < length (stages r))%nat) by (eapply lookup_lt_Some; eauto).
  assert (Hclamp : clamp_min n m = m).
  { unfold clamp_min. rewrite HnB. by destruct (Z.ltb_spec B m); [lia|]. }
  assert (Hcond : wait_cond n nn m false = true).
  { unfold wait_cond. rewrite Hie, Hab.
    by destruct (Z.ltb_spec (pkt_cnt n) m); [|lia]. }
  split.
  { unfold waitWork. rewrite bind_unfold, (self_lookup r j n Hj), Hclamp.
    rewrite bind_unfold, wait_loop_unfold, Hj. fold k. by rewrite Hk, Hcond. }
  pose proof (passPackets_run_full r i s n count br conf ie ab Hi Hj Hne) as Hrun.
  cbv zeta in Hrun. fold j in Hrun. specialize (Hrun ltac:(lia) ltac:(lia)).
  set (s1 := passed_self count (effective_abort ab s n) s) in *.
  set (n1 := passed_next count br conf ie n) in *.
  set (r1 := mkRing (<[i := s1]> (<[j := n1]> (stages r))) _) in Hrun.
  assert (Hlen1 : length (stages r1) = length (stages r))
    by (cbn; by rewrite !length_insert).
  assert (Hj1 : stages r1 !! j = Some n1).
  { cbn. rewrite list_lookup_insert_ne by done. by apply list_lookup_insert_eq. }
  destruct (lookup_lt_is_Some_2 (stages r1) k) as [nn1 Hk1]; [by rewrite Hlen1|].
  assert (Hcnt1 : pkt_cnt n1 = pkt_cnt n + count) by (cbn; apply size_t_small; lia).
  assert (Hcond1 : forall t, wait_cond n1 nn1 m t = false).
  { intros t. unfold wait_cond. rewrite Hcnt1.
    by destruct (Z.ltb_spec (pkt_cnt n + count) m); [lia|]. }
  assert (Hops : run_ops [OpPassPackets i count br conf ie ab] r = Ok (tt, r1)).
  { cbn [run_ops run_op]. by rewrite !bind_unfold, Hrun. }
  eexists _, r1, _. split; [exact Hrun|].
  split.
  { unfold waitWork. rewrite bind_unfold, (self_lookup r j n Hj), Hclamp.
    rewrite bind_unfold.
    rewrite (wait_loop_waiting Infinite j m _ wakes r n nn Hj Hk Hcond).
    rewrite bind_unfold. cbn [wake_ops]. rewrite Hops.
    rewrite wait_loop_unfold, Hj1, Hlen1. fold k. rewrite Hk1, Hcond1.
    unfold bind, self, ring_size, ret. rewrite Hj1, Hlen1. fold k. rewrite Hk1.
    reflexivity. }
  assert (Hto : (if tsp_timeout n =? Infinite then false
                 else wake_timeout (Notified [OpPassPackets i count br conf ie ab]))
                = false) by (by destruct (tsp_timeout n =? Infinite)).
  cbn [w_timeout w_pkt_first w_pkt_cnt w_bitrate w_br_confidence].
  rewrite Hto. split; [done|]. split; [done|]. split; [|done].
  unfold returned_cnt. rewrite Hcnt1.
  change (buffer_count n1) with (buffer_count n).
  change (pkt_first n1) with (pkt_first n). rewrite HnB.
  rewrite !size_t_small by lia.
  destruct (Z.leb_spec (pkt_first n + m) B); lia.
Qed.

End PassFacts.

(** * More properties of the restart *)

Section RestartRequestFacts.

Import Restart.

Context {P DuckArgs : Type} `{PluginApi P DuckArgs}.
Variables NO_HELP NO_EXIT_ON_ERROR : Z.
Variable Accounting : Type.
Variable restartPluginSession : Accounting -> Accounting.

Implicit Types (x y : State P DuckArgs Accounting) (d : RestartData).

Ltac fields :=
  cbn [plugin plugin_report tsp_report pluginName duck_args accounting restart
       restart_data records to_do_notified].

(** The whole of [processPendingRestart] on a pending restart, in terms of
    what the attempt does to the plugin. *)
Lemma processPendingRestart_run x rd d ok0 p_stopped m0 ok p' ms :
  restart x = true ->
  restart_data x = Some rd ->
  records x !! rd = Some d ->
  plugin_report x = TspReport ->
  stop (plugin x) = (ok0, p_stopped, m0) ->
  restart_attempt NO_HELP NO_EXIT_ON_ERROR (pluginName x) d
    (resetContext (duck_args x) p_stopped) = (ok, p', ms) ->
  processPendingRestart NO_HELP NO_EXIT_ON_ERROR restartPluginSession x
  = ((ok, true),
     mkState p' TspReport
       (tsp_report x ++ [(Verbose, "restarting due to remote tspcontrol")]
          ++ m0 ++ [restart_debug (pluginName x) ok])
       (pluginName x) (duck_args x) (restartPluginSession (accounting x))
       false None
       (<[rd := complete
                  (add_report
                     ([(Verbose, "restarting plugin " +:+ pluginName x)] ++ ms) d)]>
          (records x))
       (to_do_notified x)).
Proof.
  intros Hrestart Hrd Hd Hrep Hstop.
  assert (Hlen : (rd < length (records x))%nat) by (eapply lookup_lt_Some; eauto).
  unfold processPendingRestart.
  unfold bind at 1, get at 1. rewrite Hrestart, Hrd.
  unfold bind at 1. unfold log at 1, bind at 1, get at 1, set_tsp_report at 1.
  unfold bind at 1. rewrite (log_restart_report _ rd _ _ d) by done.
  unfold bind at 1, call at 1, bind at 1, get at 1. cbn [plugin plugin_report].
  rewrite Hstop, Hrep.
  unfold bind at 1, set_plugin at 1. unfold bind at 1, log at 1.
  unfold bind at 1, get at 1, set_tsp_report at 1. unfold ret at 1.
  fields.
  unfold bind at 1, set_accounting at 1.
  fields.
  unfold bind at 1, get at 1. unfold bind at 1, set_plugin at 1.
  fields.
  unfold bind at 1, redirectReport at 1, bind at 1, get at 1.
  unfold bind at 1, set_plugin_report at 1, ret at 1.
  fields.
  unfold bind at 1.
  fields.
  rewrite list_lookup_insert_eq by done.
  unfold add_report at 1. unfold restart_attempt.
  cbn [report same_args args completed notifications].
  set (p0 := resetContext (duck_args x) p_stopped).
  set (name := pluginName x).
  set (d1 := add_report [(Verbose, "restarting plugin " +:+ name)] d).
  set (tsp1 := (tsp_report x ++ [(Verbose, "restarting due to remote tspcontrol")]) ++ m0).
  assert (Hfinish : forall ok p' d2,
    bind (P:=P) (DuckArgs:=DuckArgs) (Accounting:=Accounting)
      (redirectReport TspReport) (fun _ =>
      bind (update_record rd complete) (fun _ =>
        bind (set_restart false None) (fun _ =>
          bind (log TspReport [restart_debug name ok]) (fun _ =>
            ret (ok, true)))))
      (mkState p' (RestartReport rd) tsp1 name (duck_args x)
         (restartPluginSession (accounting x)) (restart x) (restart_data x)
         (<[rd := d2]> (records x)) (to_do_notified x))
    = ((ok, true),
       mkState p' TspReport (tsp1 ++ [restart_debug name ok])
         name (duck_args x) (restartPluginSession (accounting x))
         false None (<[rd := complete d2]> (records x)) (to_do_notified x))).
  { intros ok1 p1 d2.
    unfold bind at 1, redirectReport at 1, bind at 1, get at 1.
    unfold bind at 1, set_plugin_report at 1, ret at 1.
    fields.
    unfold bind at 1, update_record at 1, bind at 1, get at 1.
    fields.
    rewrite list_lookup_insert_eq by done.
    unfold set_records at 1.
    fields.
    unfold bind at 1, set_restart at 1.
    fields.
    unfold bind at 1, log at 1, bind at 1, get at 1, set_tsp_report at 1, ret at 1.
    fields.
    by rewrite list_insert_insert_eq. }
  assert (Htsp : tsp1 ++ [restart_debug name ok]
                 = tsp_report x ++ [(Verbose, "restarting due to remote tspcontrol")]
                     ++ m0 ++ [restart_debug name ok]).
  { unfold tsp1. by rewrite <- !app_assoc. }
  rewrite <- Htsp. clear Htsp.
  destruct (same_args d).
  - intros Hstart. unfold bind at 1.
    erewrite (call_redirected _ start rd _ _ ok p' ms);
      [| done | by apply list_lookup_insert_eq | exact Hstart].
    fields. rewrite list_insert_insert_eq, Hfinish.
    unfold d1. by rewrite add_report_app.
  - destruct (start_sequence name (args d) _) as [[ok1 p2] m1] eqn:E1.
    unfold bind at 1, bind at 1, get at 1. unfold bind at 1, set_plugin at 1.
    fields. unfold bind at 1.
    erewrite (analyze_getOptions_start_redirected _ (args d) rd _ _ ok1 p2 m1);
      [| done | by apply list_lookup_insert_eq | exact E1].
    fields. rewrite list_insert_insert_eq.
    destruct ok1.
    + intros [= <- <- <-]. unfold ret at 1. rewrite Hfinish.
      unfold d1. by rewrite add_report_app.
    + destruct (start_sequence name (getCommandArgs p0) p2) as [[ok2 p3] m2] eqn:E2.
      intros [= <- <- <-].
      unfold bind at 1.
      erewrite log_restart_report by (by apply list_lookup_insert_eq).
      fields. rewrite list_insert_insert_eq.
      erewrite (analyze_getOptions_start_redirected _ (getCommandArgs p0) rd _ _ ok2 p3 m2);
        [| done | by apply list_lookup_insert_eq | exact E2].
      fields. rewrite list_insert_insert_eq, Hfinish.
      unfold d1. rewrite !add_report_app. reflexivity.
Qed.

Lemma processPendingRestart_pending x rd d :
  restart x = true ->
  restart_data x = Some rd ->
  records x !! rd = Some d ->
  plugin_report x = TspReport ->
  exists ok p' tsp' ms,
    processPendingRestart NO_HELP NO_EXIT_ON_ERROR restartPluginSession x
    = ((ok, true),
       mkState p' TspReport tsp' (pluginName x) (duck_args x)
         (restartPluginSession (accounting x)) false None
         (<[rd := complete (add_report ms d)]> (records x))
         (to_do_notified x)).
Proof.
  intros Hrestart Hrd Hd Hrep.
  destruct (stop (plugin x)) as [[ok0 p_stopped] m0] eqn:Hstop.
  destruct (restart_attempt NO_HELP NO_EXIT_ON_ERROR (pluginName x) d
              (resetContext (duck_args x) p_stopped)) as [[ok p'] ms] eqn:Hatt.
  eexists ok, p', _, _.
  by apply (processPendingRestart_run x rd d ok0 p_stopped m0 ok p' ms).
Qed.

(** X10: a pending restart is always answered.  Whatever the plugin does
    (its stop, its analysis of the arguments and its start may all fail),
    [processPendingRestart] on a pending restart reports [restarted = true],
    marks the restart record as completed and notifies its condition once,
    so that the wait of the requesting thread ends; it leaves no restart
    pending, the report of the plugin back to where it was, and the other
    restart records as they were. *)
Theorem restart_always_answered x rd d :
  restart x = true ->
  restart_data x = Some rd ->
  records x !! rd = Some d ->
  plugin_report x = TspReport ->
  exists ok x' d',
    processPendingRestart NO_HELP NO_EXIT_ON_ERROR restartPluginSession x
    = ((ok, true), x')
    /\ records x' !! rd = Some d'
    /\ completed d' = true
    /\ notifications d' = S (notifications d)
    /\ restart_completed rd x' = true
    /\ fst (pendingRestart x') = false
    /\ plugin_report x' = TspReport
    /\ (forall k, k <> rd -> records x' !! k = records x !! k).
Proof.
  intros Hrestart Hrd Hd Hrep.
  assert (Hlen : (rd < length (records x))%nat) by (eapply lookup_lt_Some; eauto).
  destruct (processPendingRestart_pending x rd d) as (ok & p' & tsp' & ms & Hrun);
    [done..|].
  eexists ok, _, _. split; [exact Hrun|]. fields.
  split; [by apply list_lookup_insert_eq|].
  split; [done|]. split; [done|].
  split; [unfold restart_completed; fields; by rewrite list_lookup_insert_eq|].
  split; [done|]. split; [done|].
  intros k Hk. by rewrite list_lookup_insert_ne.
Qed.

(** What [restart(rd)] does under the global mutex when a restart
    [previous] is pending. *)
Lemma restart_rd_cancels x previous d rd :
  restart_data x = Some previous ->
  records x !! previous = Some d ->
  restart_rd rd x
  = (tt, mkState (plugin x) (plugin_report x) (tsp_report x) (pluginName x)
           (duck_args x) (accounting x) true (Some rd)
           (<[previous := mkRestartData (report d ++ [restart_interrupted])
                            (same_args d) (args d) true (S (notifications d))]>
              (records x))
           (S (to_do_notified x))).
Proof.
  intros Hprev Hd.
  assert (Hlen : (previous < length (records x))%nat) by (eapply lookup_lt_Some; eauto).
  unfold restart_rd. unfold bind at 1, get at 1. rewrite Hprev.
  unfold bind at 1, bind at 1.
  unfold update_record at 1, bind at 1, get at 1. rewrite Hd.
  unfold set_records at 1. unfold bind at 1.
  erewrite log_restart_report by (fields; by apply list_lookup_insert_eq).
  fields. rewrite list_insert_insert_eq.
  unfold update_record at 1, bind at 1, get at 1. fields.
  rewrite list_lookup_insert_eq by done.
  unfold set_records at 1. fields. rewrite list_insert_insert_eq.
  unfold bind at 1, set_restart at 1. fields.
  reflexivity.
Qed.

(** X11: a new request cancels the pending one.  When a restart is asked
    for while another one is still pending, the earlier requester is
    released with an error in its report, and its restart is never carried
    out: the worker then performs the new restart only and leaves the
    record of the earlier one as the cancellation left it. *)
Theorem restart_superseded x previous d rd d2 :
  restart_data x = Some previous ->
  records x !! previous = Some d ->
  records x !! rd = Some d2 ->
  previous <> rd ->
  plugin_report x = TspReport ->
  exists x1 ok x2,
    restart_rd rd x = (tt, x1)
    /\ records x1 !! previous
       = Some (mkRestartData (report d ++ [restart_interrupted])
                 (same_args d) (args d) true (S (notifications d)))
    /\ restart_completed previous x1 = true
    /\ restart_completed rd x1 = completed d2
    /\ plugin x1 = plugin x
    /\ to_do_notified x1 = S (to_do_notified x)
    /\ processPendingRestart NO_HELP NO_EXIT_ON_ERROR restartPluginSession x1
       = ((ok, true), x2)
    /\ records x2 !! previous = records x1 !! previous
    /\ restart_completed rd x2 = true.
Proof.
  intros Hprev Hd Hd2 Hne Hrep.
  assert (Hlen : (previous < length (records x))%nat) by (eapply lookup_lt_Some; eauto).
  assert (Hlen2 : (rd < length (records x))%nat) by (eapply lookup_lt_Some; eauto).
  rewrite (restart_rd_cancels x previous d rd Hprev Hd).
  set (x1 := mkState _ _ _ _ _ _ _ _ _ _).
  assert (Hd2' : records x1 !! rd = Some d2)
    by (unfold x1; fields; by rewrite list_lookup_insert_ne).
  destruct (processPendingRestart_pending x1 rd d2) as (ok & p' & tsp' & ms & Hrun);
    [done..|].
  eexists x1, ok, _. split; [done|].
  split; [unfold x1; fields; by apply list_lookup_insert_eq|].
  split; [unfold restart_completed, x1; fields; by rewrite list_lookup_insert_eq|].
  split; [unfold restart_completed; by rewrite Hd2'|].
  split; [done|]. split; [done|].
  split; [exact Hrun|]. fields.
  split; [by rewrite list_lookup_insert_ne|].
  unfold restart_completed. fields.
  rewrite list_lookup_insert_eq; [done|].
  unfold x1. fields. by rewrite length_insert.
Qed.

(** X12: a restart asked for by [restart(params, report)] is carried out
    by the next [processPendingRestart].  The request makes a restart
    pending and its requester wait; the worker then ends the wait, whatever
    the outcome of the restart. *)
Theorem restart_params_answered x params rep :
  plugin_report x = TspReport ->
  (forall previous, restart_data x = Some previous ->
     (previous < length (records x))%nat) ->
  exists rd x1 ok x2,
    restart_params params rep x = (rd, x1)
    /\ fst (pendingRestart x1) = true
    /\ restart_completed rd x1 = false
    /\ processPendingRestart NO_HELP NO_EXIT_ON_ERROR restartPluginSession x1
       = ((ok, true), x2)
    /\ restart_completed rd x2 = true
    /\ fst (pendingRestart x2) = false.
Proof.
  intros Hrep Hwf.
  set (rd := length (records x)).
  set (dn := RestartData_new params false rep).
  set (y := mkState (plugin x) (plugin_report x) (tsp_report x) (pluginName x)
              (duck_args x) (accounting x) (restart x) (restart_data x)
              (records x ++ [dn]) (to_do_notified x)).
  assert (Hnew : new_RestartData params false rep x = (rd, y)) by reflexivity.
  assert (Hrd : records y !! rd = Some dn).
  { unfold y, rd. fields. by apply list_lookup_middle. }
  assert (Hreq : exists x1,
    restart_rd rd y = (tt, x1) /\ records x1 !! rd = Some dn
    /\ restart x1 = true /\ restart_data x1 = Some rd
    /\ plugin_report x1 = TspReport).
  { destruct (restart_data x) as [previous|] eqn:Hprev.
    - specialize (Hwf previous eq_refl).
      destruct (lookup_lt_is_Some_2 (records x) previous Hwf) as [d Hd].
      assert (Hd' : records y !! previous = Some d).
      { unfold y. fields. by rewrite lookup_app_l. }
      rewrite (restart_rd_cancels y previous d rd) by done.
      eexists. split; [reflexivity|]. fields.
      split; [|done]. rewrite list_lookup_insert_ne by (unfold rd; lia). done.
    - eexists. split; [reflexivity|]. by cbn. }
  destruct Hreq as (x1 & Hx1 & Hd1 & Hr1 & Hrd1 & Hrep1).
  destruct (processPendingRestart_pending x1 rd dn) as (ok & p' & tsp' & ms & Hrun);
    [done..|].
  eexists rd, x1, ok, _.
  split; [unfold restart_params, bind; by rewrite Hnew, Hx1|].
  split; [unfold pendingRestart, bind, get, ret; cbn; by rewrite Hr1, Hrd1|].
  split; [unfold restart_completed; by rewrite Hd1|].
  split; [exact Hrun|].
  split; [|done].
  unfold restart_completed. fields.
  rewrite list_lookup_insert_eq; [done|]. eapply lookup_lt_Some; eauto.
Qed.

(** X13: a restart with the same arguments only stops and starts the
    plugin.  When the record asks for the same arguments, the plugin is
    stopped, its context is reset and it is started again: no argument is
    analysed, no flag is set, and the status of the restart is what
    [start] returns. *)
Theorem restart_same_args x rd d ok0 p_stopped m0 ok p' ms :
  restart x = true ->
  restart_data x = Some rd ->
  records x !! rd = Some d ->
  same_args d = true ->
  plugin_report x = TspReport ->
  stop (plugin x) = (ok0, p_stopped, m0) ->
  start (resetContext (duck_args x) p_stopped) = (ok, p', ms) ->
  processPendingRestart NO_HELP NO_EXIT_ON_ERROR restartPluginSession x
  = ((ok, true),
     mkState p' TspReport
       (tsp_report x ++ [(Verbose, "restarting due to remote tspcontrol")]
          ++ m0 ++ [restart_debug (pluginName x) ok])
       (pluginName x) (duck_args x) (restartPluginSession (accounting x))
       false None
       (<[rd := complete
                  (add_report
                     ([(Verbose, "restarting plugin " +:+ pluginName x)] ++ ms) d)]>
          (records x))
       (to_do_notified x)).
Proof.
  intros Hrestart Hrd Hd Hsame Hrep Hstop Hstart.
  apply (processPendingRestart_run x rd d ok0 p_stopped m0 ok p' ms); try done.
  unfold restart_attempt. by rewrite Hsame.
Qed.

(** X14: new arguments which the plugin accepts are final.  When the
    sequence analyze + getOptions + start succeeds with the new arguments,
    the restart succeeds with the plugin as this sequence left it: there is
    no warning and the previous arguments are not analysed again. *)
Theorem restart_new_args_accepted x rd d ok0 p_stopped m0 p2 m1 :
  restart x = true ->
  restart_data x = Some rd ->
  records x !! rd = Some d ->
  same_args d = false ->
  plugin_report x = TspReport ->
  stop (plugin x) = (ok0, p_stopped, m0) ->
  let p0 := resetContext (duck_args x) p_stopped in
  let p1 := setFlags (Z.lor (Z.lor (getFlags p0) NO_HELP) NO_EXIT_ON_ERROR) p0 in
  start_sequence (pluginName x) (args d) p1 = (true, p2, m1) ->
  processPendingRestart NO_HELP NO_EXIT_ON_ERROR restartPluginSession x
  = ((true, true),
     mkState p2 TspReport
       (tsp_report x ++ [(Verbose, "restarting due to remote tspcontrol")]
          ++ m0 ++ [restart_debug (pluginName x) true])
       (pluginName x) (duck_args x) (restartPluginSession (accounting x))
       false None
       (<[rd := complete
                  (add_report
                     ([(Verbose, "restarting plugin " +:+ pluginName x)] ++ m1) d)]>
          (records x))
       (to_do_notified x)).
Proof.
  intros Hrestart Hrd Hd Hsame Hrep Hstop p0 p1 Hseq.
  apply (processPendingRestart_run x rd d ok0 p_stopped m0 true p2 m1); try done.
  unfold restart_attempt. rewrite Hsame. fold p0. fold p1. by rewrite Hseq.
Qed.

End RestartRequestFacts.

(** * More properties of the logical channel numbers *)

Section LCNStoreFacts.

Import LCN.

Implicit Types (m lo mid hi pre : list (Z * LCN.LCN)) (e : LCN.LCN)
  (es : list LCN.LCN).

(** ** A sorted store, around one service id *)

Lemma sorted_app m1 m2 :
  sorted (m1 ++ m2)
  <-> sorted m1 /\ sorted m2
      /\ Forall (fun p => Forall (fun q => fst p <= fst q) m2) m1.
Proof.
  induction m1 as [|p m1 IH]; cbn [app sorted].
  - split; [intros Hs; by repeat split | by intros (_ & Hs & _)].
  - rewrite Forall_app, IH, Forall_cons. tauto.
Qed.

Lemma sorted_split m srv :
  sorted m ->
  exists lo mid hi,
    m = lo ++ mid ++ hi
    /\ keys_below srv lo /\ keys_equal srv mid /\ keys_above srv hi.
Proof.
  unfold keys_below, keys_equal, keys_above.
  induction m as [|[k e] m IH]; intros Hs.
  - by exists [], [], [].
  - destruct Hs as [Hle Hs]. destruct (IH Hs) as (lo & mid & hi & -> & Hlo & Hmid & Hhi).
    cbn [fst] in Hle. rewrite !Forall_app in Hle. destruct Hle as (Hle1 & Hle2 & Hle3).
    destruct (Z.lt_trichotomy k srv) as [Hk|[Hk|Hk]].
    + exists ((k, e) :: lo), mid, hi. repeat split; try done. by constructor.
    + assert (lo = []) as ->.
      { destruct lo as [|p lo]; [done|].
        apply Forall_cons in Hlo as [Hp _]. apply Forall_cons in Hle1 as [Hp' _]. lia. }
      exists [], ((k, e) :: mid), hi. repeat split; try done. by constructor.
    + assert (lo = []) as ->.
      { destruct lo as [|p lo]; [done|].
        apply Forall_cons in Hlo as [Hp _]. apply Forall_cons in Hle1 as [Hp' _]. lia. }
      assert (mid = []) as ->.
      { destruct mid as [|p mid]; [done|].
        apply Forall_cons in Hmid as [Hp _]. apply Forall_cons in Hle2 as [Hp' _]. lia. }
      exists [], [], ((k, e) :: hi). repeat split; try done. by constructor.
Qed.

Lemma sorted_join lo mid hi srv :
  sorted lo -> sorted hi ->
  keys_below srv lo -> keys_equal srv mid -> keys_above srv hi ->
  sorted (lo ++ mid ++ hi).
Proof.
  unfold keys_below, keys_equal, keys_above.
  intros Hslo Hshi Hlo Hmid Hhi.
  assert (Hsmid : sorted mid).
  { induction Hmid as [|p mid Hp Hmid IH]; [done|]. split; [|done].
    eapply Forall_impl; [exact Hmid|]. cbn. intros q Hq. lia. }
  apply sorted_app. split; [done|]. split.
  - apply sorted_app. split; [done|]. split; [done|].
    eapply Forall_impl; [exact Hmid|]. cbn. intros p Hp.
    eapply Forall_impl; [exact Hhi|]. cbn. intros q Hq. lia.
  - eapply Forall_impl; [exact Hlo|]. cbn. intros p Hp.
    apply Forall_app. split.
    + eapply Forall_impl; [exact Hmid|]. cbn. intros q Hq. lia.
    + eapply Forall_impl; [exact Hhi|]. cbn. intros q Hq. lia.
Qed.

Lemma filter_keys_equal (mid : list (Z * LCN.LCN)) srv :
  keys_equal srv mid -> filter (fun p => fst p = srv) mid = mid.
Proof.
  induction 1 as [|p mid Hp _ IH]; [done|].
  rewrite filter_cons_True by done. by rewrite IH.
Qed.

Lemma filter_keys_other (l : list (Z * LCN.LCN)) srv :
  Forall (fun p => fst p <> srv) l -> filter (fun p => fst p = srv) l = [].
Proof.
  induction 1 as [|p l Hp _ IH]; [done|].
  by rewrite filter_cons_False.
Qed.

Lemma service_entries_split lo mid hi srv :
  keys_below srv lo -> keys_equal srv mid -> keys_above srv hi ->
  service_entries (lo ++ mid ++ hi) srv = snd <$> mid.
Proof.
  intros Hlo Hmid Hhi. unfold service_entries.
  rewrite !filter_app, (filter_keys_equal mid) by done.
  rewrite (filter_keys_other lo), (filter_keys_other hi), app_nil_r; [done|..].
  - eapply Forall_impl; [exact Hhi|]. cbn. intros; lia.
  - eapply Forall_impl; [exact Hlo|]. cbn. intros; lia.
Qed.

Lemma lower_bound_split lo rest srv :
  keys_below srv lo ->
  match rest with [] => True | p :: _ => srv <= fst p end ->
  lower_bound (lo ++ rest) srv = length lo.
Proof.
  intros Hlo Hrest. induction Hlo as [|[k e] lo Hp _ IH]; cbn [app lower_bound length].
  - destruct rest as [|[k e] rest]; [done|]. cbn in *.
    destruct (Z.ltb_spec k srv); [lia | done].
  - cbn in Hp. destruct (Z.ltb_spec k srv); [|lia]. by rewrite IH.
Qed.

Lemma lower_bound_around lo mid hi srv :
  keys_below srv lo -> keys_equal srv mid -> keys_above srv hi ->
  lower_bound (lo ++ mid ++ hi) srv = length lo.
Proof.
  intros Hlo Hmid Hhi. apply lower_bound_split; [done|].
  destruct mid as [|p mid].
  - destruct hi as [|q hi]; [done|]. apply Forall_cons in Hhi as [Hq _]. cbn. lia.
  - apply Forall_cons in Hmid as [Hp _]. cbn. lia.
Qed.

(** ** findLCN on a sorted store *)

Lemma findLCN_loop_pick srv ts onet hi mid :
  keys_equal srv mid -> keys_above srv hi ->
  forall pre result,
    entry_at (pre ++ mid ++ hi)
      (findLCN_loop srv ts onet (length pre) (mid ++ hi) result)
    = pick (snd <$> mid) ts onet (entry_at (pre ++ mid ++ hi) result).
Proof.
  intros Hmid Hhi. induction Hmid as [|[k e] mid Hk _ IH]; intros pre result.
  - cbn [app fmap list_fmap pick].
    destruct hi as [|[k e] hi]; [done|]. cbn [findLCN_loop].
    apply Forall_cons in Hhi as [Hk _]. cbn in Hk.
    destruct (Z.eqb_spec k srv); [lia | done].
  - cbn in Hk. subst k.
    assert (Hhead : entry_at (pre ++ ((srv, e) :: mid) ++ hi) (Some (length pre)) = Some e).
    { unfold entry_at. rewrite lookup_app_r by lia. by rewrite Nat.sub_diag. }
    assert (Hstep : forall result',
      entry_at (pre ++ ((srv, e) :: mid) ++ hi)
        (findLCN_loop srv ts onet (S (length pre)) (mid ++ hi) result')
      = pick (snd <$> mid) ts onet (entry_at (pre ++ ((srv, e) :: mid) ++ hi) result')).
    { intros result'. specialize (IH (pre ++ [(srv, e)]) result').
      rewrite length_app, Nat.add_1_r, <- app_assoc in IH. exact IH. }
    cbn [app findLCN_loop fmap list_fmap pick snd].
    rewrite Z.eqb_refl.
    destruct (ts_id e =? ts); [|apply Hstep].
    destruct (onet_id e =? onet); [exact Hhead|].
    destruct (onet_id e =? 0xFFF); [|apply Hstep].
    rewrite Hstep. by rewrite Hhead.
Qed.

Lemma findLCN_pick m srv ts onet :
  sorted m ->
  entry_at m (findLCN m srv ts onet) = pick (service_entries m srv) ts onet None.
Proof.
  intros Hs. destruct (sorted_split m srv Hs) as (lo & mid & hi & -> & Hlo & Hmid & Hhi).
  rewrite service_entries_split by done.
  unfold findLCN. rewrite lower_bound_around by done.
  rewrite drop_app_length.
  by rewrite (findLCN_loop_pick srv ts onet hi mid Hmid Hhi lo None).
Qed.

Lemma getLCN_entry_at m srv ts onet :
  getLCN m srv ts onet
  = match entry_at m (findLCN m srv ts onet) with
    | Some e => lcn e
    | None => 0xFFFF
    end.
Proof.
  unfold getLCN, entry_at, LCNMap. destruct (findLCN m srv ts onet) as [i|]; [|done].
  by destruct (m !! i) as [[k e]|].
Qed.

Lemma getVisible_entry_at m srv ts onet :
  getVisible m srv ts onet
  = match entry_at m (findLCN m srv ts onet) with
    | Some e => visible e
    | None => true
    end.
Proof.
  unfold getVisible, entry_at, LCNMap. destruct (findLCN m srv ts onet) as [i|]; [|done].
  by destruct (m !! i) as [[k e]|].
Qed.

(** ** addLCN on a sorted store *)

Lemma insert_split lo mid hi srv e :
  keys_below srv lo -> keys_equal srv mid -> keys_above srv hi ->
  insert srv e (lo ++ mid ++ hi) = lo ++ mid ++ (srv, e) :: hi.
Proof.
  intros Hlo Hmid Hhi.
  induction Hlo as [|[k e'] lo Hp _ IH]; cbn [app insert].
  - induction Hmid as [|[k e'] mid Hp _ IH]; cbn [app insert].
    + destruct hi as [|[k e'] hi]; [done|]. cbn [insert].
      apply Forall_cons in Hhi as [Hk _]. cbn in Hk.
      by destruct (Z.leb_spec k srv); [lia|].
    + cbn in Hp. destruct (Z.leb_spec k srv); [|lia]. by rewrite IH.
  - cbn in Hp. destruct (Z.leb_spec k srv); [|lia]. by rewrite IH.
Qed.

(** The loop of [addLCN] stops at the first entry of another service. *)
Lemma addLCN_loop_split l srv ts onet vis mid hi :
  keys_equal srv mid -> keys_above srv hi ->
  addLCN_loop l srv ts onet vis (mid ++ hi)
  = (fun mid' => mid' ++ hi) <$> addLCN_loop l srv ts onet vis mid.
Proof.
  intros Hmid Hhi. induction Hmid as [|[k e] mid Hk _ IH]; cbn [app addLCN_loop].
  - destruct hi as [|[k e] hi]; [done|]. cbn [addLCN_loop].
    apply Forall_cons in Hhi as [Hk _]. cbn in Hk.
    by destruct (Z.eqb_spec k srv); [lia|].
  - destruct (k =? srv); [|done].
    destruct ((ts_id e =? ts) && (onet_id e =? onet)); [done|].
    rewrite IH. by destruct (addLCN_loop l srv ts onet vis mid).
Qed.

Lemma addLCN_split l srv ts onet vis lo mid hi :
  keys_below srv lo -> keys_equal srv mid -> keys_above srv hi ->
  addLCN l srv ts onet vis (lo ++ mid ++ hi)
  = lo ++ updated_pairs l srv ts onet vis mid ++ hi.
Proof.
  intros Hlo Hmid Hhi. unfold addLCN, updated_pairs.
  rewrite lower_bound_around by done.
  rewrite drop_app_length, take_app_length, addLCN_loop_split by done.
  destruct (addLCN_loop l srv ts onet vis mid) as [mid'|]; cbn [fmap option_fmap option_map].
  - done.
  - rewrite insert_split by done. by rewrite <- app_assoc.
Qed.

Lemma updated_pairs_spec l srv ts onet vis mid :
  keys_equal srv mid ->
  keys_equal srv (updated_pairs l srv ts onet vis mid)
  /\ snd <$> updated_pairs l srv ts onet vis mid
     = updated l ts onet vis (snd <$> mid).
Proof.
  unfold updated_pairs, keys_equal.
  induction 1 as [|[k e] mid Hk Hmid IH]; cbn [addLCN_loop].
  - split; [by repeat constructor | done].
  - cbn in Hk. subst k. rewrite Z.eqb_refl.
    cbn [fmap list_fmap updated snd].
    destruct ((ts_id e =? ts) && (onet_id e =? onet)).
    + split; [by constructor | done].
    + destruct IH as [IH1 IH2].
      destruct (addLCN_loop l srv ts onet vis mid) as [mid'|].
      * split; [by constructor | by rewrite <- IH2].
      * split; [by constructor | by rewrite <- IH2].
Qed.

Lemma sorted_parts lo mid hi :
  sorted (lo ++ mid ++ hi) -> sorted lo /\ sorted hi.
Proof.
  intros Hs. apply sorted_app in Hs as (Hlo & Hs & _).
  apply sorted_app in Hs as (_ & Hhi & _). done.
Qed.

Lemma service_entries_addLCN l srv ts onet vis m srv' :
  sorted m ->
  service_entries (addLCN l srv ts onet vis m) srv'
  = if decide (srv' = srv)
    then updated l ts onet vis (service_entries m srv)
    else service_entries m srv'.
Proof.
  intros Hs. destruct (sorted_split m srv Hs) as (lo & mid & hi & -> & Hlo & Hmid & Hhi).
  rewrite addLCN_split by done.
  destruct (updated_pairs_spec l srv ts onet vis mid Hmid) as [Hkeys Hsnd].
  destruct (decide (srv' = srv)) as [->|Hne].
  - rewrite !service_entries_split by done. exact Hsnd.
  - unfold service_entries. rewrite !filter_app.
    rewrite (filter_keys_other (updated_pairs _ _ _ _ _ _)), (filter_keys_other mid);
      [done|..].
    + eapply Forall_impl; [exact Hmid|]. cbn. intros; lia.
    + eapply Forall_impl; [exact Hkeys|]. cbn. intros; lia.
Qed.

Lemma sorted_addLCN l srv ts onet vis m :
  sorted m -> sorted (addLCN l srv ts onet vis m).
Proof.
  intros Hs. destruct (sorted_split m srv Hs) as (lo & mid & hi & -> & Hlo & Hmid & Hhi).
  rewrite addLCN_split by done.
  destruct (sorted_parts _ _ _ Hs) as [Hslo Hshi].
  destruct (updated_pairs_spec l srv ts onet vis mid Hmid) as [Hkeys _].
  by apply (sorted_join _ _ _ srv).
Qed.

(** ** What a user of the store sees *)

Lemma pick_updated l ts onet vis es :
  forall result,
    pick (updated l ts onet vis es) ts onet result = Some (mkLCN l ts onet vis).
Proof.
  induction es as [|e es IH]; intros result; cbn [updated pick].
  - cbn. by rewrite !Z.eqb_refl.
  - destruct (Z.eqb_spec (ts_id e) ts) as [Ht|Ht]; cbn [andb].
    + destruct (Z.eqb_spec (onet_id e) onet) as [Ho|Ho].
      * rewrite Ht, Ho. cbn [pick ts_id onet_id]. by rewrite !Z.eqb_refl.
      * cbn [pick]. destruct (Z.eqb_spec (ts_id e) ts); [|done].
        destruct (Z.eqb_spec (onet_id e) onet); [done|].
        destruct (onet_id e =? 4095); apply IH.
    + cbn [pick]. destruct (Z.eqb_spec (ts_id e) ts); [done|]. apply IH.
Qed.

Lemma pick_updated_other l ts onet vis ts' onet' es :
  ts' <> ts \/ (onet' <> onet /\ onet <> 0xFFF) ->
  forall result,
    pick (updated l ts onet vis es) ts' onet' result = pick es ts' onet' result.
Proof.
  intros Hother. induction es as [|e es IH]; intros result; cbn [updated pick].
  - cbn [ts_id onet_id].
    destruct (Z.eqb_spec ts ts'); [|done].
    destruct (Z.eqb_spec onet onet'); [lia|].
    destruct (Z.eqb_spec onet 0xFFF); [lia | done].
  - destruct (Z.eqb_spec (ts_id e) ts) as [Ht|Ht]; cbn [andb].
    + destruct (Z.eqb_spec (onet_id e) onet) as [Ho|Ho].
      * cbn [pick ts_id onet_id].
        destruct (Z.eqb_spec (ts_id e) ts'); [|done].
        destruct (Z.eqb_spec (onet_id e) onet'); [lia|].
        destruct (Z.eqb_spec (onet_id e) 0xFFF); [lia | done].
      * cbn [pick].
        destruct (ts_id e =? ts'); [|apply IH].
        destruct (onet_id e =? onet'); [done|].
        destruct (onet_id e =? 0xFFF); apply IH.
    + cbn [pick].
      destruct (ts_id e =? ts'); [|apply IH].
      destruct (onet_id e =? onet'); [done|].
      destruct (onet_id e =? 0xFFF); apply IH.
Qed.

Lemma triplets_app m1 m2 : triplets (m1 ++ m2) = triplets m1 ++ triplets m2.
Proof. unfold triplets. apply fmap_app. Qed.

Lemma triplets_key srv ts onet m :
  (srv, ts, onet) ∈ triplets m -> exists p, p ∈ m /\ fst p = srv.
Proof.
  unfold triplets. intros Hin. apply list_elem_of_fmap in Hin as (p & Heq & Hp).
  exists p. split; [done|]. congruence.
Qed.

Lemma triplets_cons p m :
  triplets (p :: m) = (fst p, ts_id (snd p), onet_id (snd p)) :: triplets m.
Proof. reflexivity. Qed.

Lemma addLCN_loop_triplets l srv ts onet vis mid :
  keys_equal srv mid ->
  match addLCN_loop l srv ts onet vis mid with
  | Some mid' =>
      (srv, ts, onet) ∈ triplets mid
      /\ triplets mid' = triplets mid /\ length mid' = length mid
  | None => (srv, ts, onet) ∉ triplets mid
  end.
Proof.
  unfold keys_equal.
  induction 1 as [|[k e] mid Hk Hmid IH]; cbn [addLCN_loop].
  - apply not_elem_of_nil.
  - cbn in Hk. subst k. rewrite Z.eqb_refl, triplets_cons. cbn [fst snd].
    assert (Hrest : ts_id e <> ts \/ onet_id e <> onet ->
      match match addLCN_loop l srv ts onet vis mid with
            | Some it'' => Some ((srv, e) :: it'')
            | None => None
            end with
      | Some mid' =>
          (srv, ts, onet) ∈ (srv, ts_id e, onet_id e) :: triplets mid
          /\ triplets mid' = (srv, ts_id e, onet_id e) :: triplets mid
          /\ length mid' = length ((srv, e) :: mid)
      | None => (srv, ts, onet) ∉ (srv, ts_id e, onet_id e) :: triplets mid
      end).
    { intros Hdiff.
      destruct (addLCN_loop l srv ts onet vis mid) as [mid'|].
      - destruct IH as (Hin & Htr & Hlen).
        split; [by apply list_elem_of_further|].
        split; [by rewrite triplets_cons, Htr | cbn [length]; by rewrite Hlen].
      - intros Hin. apply elem_of_cons in Hin as [[= ? ?]|Hin]; [lia|done]. }
    destruct (Z.eqb_spec (ts_id e) ts) as [Ht|Ht]; cbn [andb]; [|apply Hrest; by left].
    destruct (Z.eqb_spec (onet_id e) onet) as [Ho|Ho]; [|apply Hrest; by right].
    rewrite !triplets_cons. cbn [fst snd ts_id onet_id length].
    split; [|done]. rewrite Ht, Ho. apply list_elem_of_here.
Qed.

Lemma updated_pairs_triplets l srv ts onet vis mid :
  keys_equal srv mid ->
  ((srv, ts, onet) ∈ triplets mid
   /\ triplets (updated_pairs l srv ts onet vis mid) = triplets mid
   /\ length (updated_pairs l srv ts onet vis mid) = length mid)
  \/ (((srv, ts, onet) ∉ triplets mid)
      /\ updated_pairs l srv ts onet vis mid = mid ++ [(srv, mkLCN l ts onet vis)]).
Proof.
  intros Hmid. pose proof (addLCN_loop_triplets l srv ts onet vis mid Hmid) as Hloop.
  unfold updated_pairs.
  destruct (addLCN_loop l srv ts onet vis mid) as [mid'|]; [by left | by right].
Qed.

(** X15: the store stays a well-formed multimap.  [addLCN] keeps the
    entries ordered by service id and never makes two entries for one DVB
    triplet: when the triplet is known the store keeps its size and its
    triplets, otherwise it grows by exactly one entry. *)
Theorem addLCN_keeps_store l srv ts onet vis m :
  sorted m ->
  NoDup (triplets m) ->
  sorted (addLCN l srv ts onet vis m)
  /\ NoDup (triplets (addLCN l srv ts onet vis m))
  /\ size (addLCN l srv ts onet vis m)
     = size m + (if decide ((srv, ts, onet) ∈ triplets m) then 0 else 1).
Proof.
  intros Hs Hnd. split; [by apply sorted_addLCN|].
  destruct (sorted_split m srv Hs) as (lo & mid & hi & -> & Hlo & Hmid & Hhi).
  rewrite addLCN_split by done.
  assert (Hiff : (srv, ts, onet) ∈ triplets (lo ++ mid ++ hi)
                 <-> (srv, ts, onet) ∈ triplets mid).
  { rewrite !triplets_app, !elem_of_app. split; [|tauto].
    intros [Hin|[Hin|Hin]]; [|done|].
    - apply triplets_key in Hin as (p & Hp & Hk).
      unfold keys_below in Hlo. rewrite Forall_forall in Hlo. specialize (Hlo p Hp). lia.
    - apply triplets_key in Hin as (p & Hp & Hk).
      unfold keys_above in Hhi. rewrite Forall_forall in Hhi. specialize (Hhi p Hp). lia. }
  unfold size.
  destruct (updated_pairs_triplets l srv ts onet vis mid Hmid)
    as [(Hin & Htr & Hlen)|(Hnin & Heq)].
  - rewrite decide_True by (by apply Hiff). split.
    + rewrite !triplets_app, Htr. by rewrite !triplets_app in Hnd.
    + rewrite !length_app, Hlen. lia.
  - rewrite decide_False by (by rewrite Hiff). rewrite Heq. split.
    + assert (Hperm : triplets (lo ++ (mid ++ [(srv, mkLCN l ts onet vis)]) ++ hi)
                      ≡ₚ (srv, ts, onet) :: triplets (lo ++ mid ++ hi)).
      { rewrite !triplets_app.
        change (triplets [(srv, mkLCN l ts onet vis)]) with [(srv, ts, onet)].
        rewrite (Permutation_app_comm (triplets mid) [(srv, ts, onet)]).
        cbn [app]. symmetry. apply Permutation_middle. }
      rewrite Hperm. apply NoDup_cons. split; [|done].
      intros Hin. by apply Hnin, Hiff.
    + rewrite !length_app. cbn [length]. lia.
Qed.

(** X16: what is added is found.  In a sorted store, a logical channel
    number added for a DVB triplet is the one which [getLCN] returns for
    this triplet, with the visibility given, whether the triplet was known
    before or not. *)
Theorem addLCN_then_get l srv ts onet vis m :
  sorted m ->
  getLCN (addLCN l srv ts onet vis m) srv ts onet = l
  /\ getVisible (addLCN l srv ts onet vis m) srv ts onet = vis.
Proof.
  intros Hs.
  pose proof (sorted_addLCN l srv ts onet vis m Hs) as Hs'.
  rewrite getLCN_entry_at, getVisible_entry_at, findLCN_pick by done.
  rewrite service_entries_addLCN, decide_True by done.
  by rewrite pick_updated.
Qed.

(** X17: an unknown service has no channel number.  When the store has
    no entry for a service id on a TS (in particular when it is empty),
    [getLCN] returns 0xFFFF and [getVisible] returns true, whatever the
    original network id asked for. *)
Theorem getLCN_unknown m srv ts onet :
  (forall k e, (k, e) ∈ m -> k = srv -> ts_id e <> ts) ->
  getLCN m srv ts onet = 0xFFFF
  /\ getVisible m srv ts onet = true.
Proof.
  intros Hnone.
  assert (Hfind : findLCN m srv ts onet = None).
  { destruct (findLCN m srv ts onet) as [i|] eqn:Hfind; [|done].
    destruct (findLCN_result _ _ _ _ _ Hfind) as (k & e & Hi & Hk & Ht & _).
    exfalso. apply (Hnone k e); [|done..]. eapply list_elem_of_lookup_2, Hi. }
  unfold getLCN, getVisible. by rewrite Hfind.
Qed.

(** X18: adding an LCN does not disturb the others.  In a sorted store,
    [addLCN] for a triplet changes no answer of [getLCN] or [getVisible]
    for another service id or another TS, nor for another original network
    id of the same service and TS unless the one added is 0xFFF. *)
Theorem addLCN_frame l srv ts onet vis m srv' ts' onet' :
  sorted m ->
  srv' <> srv \/ ts' <> ts \/ (onet' <> onet /\ onet <> 0xFFF) ->
  getLCN (addLCN l srv ts onet vis m) srv' ts' onet' = getLCN m srv' ts' onet'
  /\ getVisible (addLCN l srv ts onet vis m) srv' ts' onet'
     = getVisible m srv' ts' onet'.
Proof.
  intros Hs Hother.
  pose proof (sorted_addLCN l srv ts onet vis m Hs) as Hs'.
  rewrite !getLCN_entry_at, !getVisible_entry_at, !findLCN_pick by done.
  rewrite service_entries_addLCN by done.
  destruct (decide (srv' = srv)) as [->|Hne]; [|done].
  rewrite pick_updated_other; [done|].
  destruct Hother as [Hsrv|Hother]; [done | exact Hother].
Qed.

Lemma getLCNs_fold ts onet l m :
  forall acc : gmap Z ServiceIdTriplet,
    foldl (getLCNs_step ts onet) acc m !! l
    = match acc !! l with
      | Some t => Some t
      | None =>
          head ((fun p => mkServiceIdTriplet (fst p) (ts_id (snd p)) (onet_id (snd p)))
                  <$> filter (fun p => lcn (snd p) = l
                                       /\ lcn_selected ts onet (snd p) = true) m)
      end.
Proof.
  induction m as [|[k e] m IH]; intros acc; cbn [foldl].
  - by destruct (acc !! l).
  - rewrite IH. unfold getLCNs_step at 1. cbn [fst snd].
    destruct (lcn_selected ts onet e) eqn:Hsel.
    + unfold map_insert. destruct (decide (lcn e = l)) as [Hl|Hl].
      * rewrite filter_cons_True by done. subst l.
        destruct (acc !! lcn e) as [t|] eqn:Hacc.
        -- by rewrite Hacc.
        -- by rewrite lookup_insert_eq.
      * rewrite filter_cons_False by (intros [? _]; done).
        destruct (acc !! lcn e) as [t|] eqn:Hacc; [done|].
        by rewrite lookup_insert_ne.
    + rewrite filter_cons_False; [done|]. cbn [snd]. intros [_ ?]. congruence.
Qed.

(** X19: the services by channel number.  In the map which [getLCNs]
    fills, a logical channel number leads to the first entry of the store,
    in its order, which has this number and passes the filter on the TS and
    original network ids (0xFFFF matching anything on either side); a number
    which no such entry has is absent. *)
Theorem getLCNs_first (m : list (Z * LCN.LCN)) ts onet l :
  getLCNs m ts onet !! l
  = head ((fun p => mkServiceIdTriplet (fst p) (ts_id (snd p)) (onet_id (snd p)))
            <$> filter (fun p => lcn (snd p) = l
                                 /\ lcn_selected ts onet (snd p) = true) m).
Proof.
  unfold getLCNs. rewrite getLCNs_fold. by rewrite lookup_empty.
Qed.

Lemma size_t_succ (c : Z) : size_t (size_t c + 1) = size_t (c + 1).
Proof. unfold size_t. by rewrite Zplus_mod_idemp_l. Qed.

(** X20: the entries of a descriptor.  [addFromAbstractLCN] on a valid
    descriptor counts all its entries and keeps the store sorted; for each
    service id the last entry of the descriptor is the one which [getLCN]
    and [getVisible] then answer, and the services which the descriptor
    does not name keep their answers.  An invalid descriptor adds nothing. *)
Theorem addFromAbstractLCN_last (entries : list Entry) ts onet (m : list (Z * LCN.LCN)) :
  sorted m ->
  addFromAbstractLCN false entries ts onet m = (0, m)
  /\ exists m',
       addFromAbstractLCN true entries ts onet m
       = (size_t (Z.of_nat (length entries)), m')
       /\ sorted m'
       /\ forall srv,
            match last (filter (fun it => entry_service_id it = srv) entries) with
            | Some it =>
                getLCN m' srv ts onet = entry_lcn it
                /\ getVisible m' srv ts onet = entry_visible it
            | None =>
                getLCN m' srv ts onet = getLCN m srv ts onet
                /\ getVisible m' srv ts onet = getVisible m srv ts onet
            end.
Proof.
  intros Hs. split; [done|]. unfold addFromAbstractLCN.
  induction entries as [|it entries IH] using rev_ind.
  - exists m. split; [done|]. split; [done|]. intros srv. done.
  - destruct IH as (m1 & Hrun & Hs1 & Hget).
    rewrite foldl_snoc, Hrun. cbn [fst snd].
    eexists. split; [|split].
    + f_equal. rewrite size_t_succ, length_app, Nat2Z.inj_add. done.
    + by apply sorted_addLCN.
    + intros srv. rewrite filter_app.
      pose proof (sorted_addLCN (entry_lcn it) (entry_service_id it) ts onet
                    (entry_visible it) m1 Hs1) as Hs2.
      rewrite !getLCN_entry_at, !getVisible_entry_at, !findLCN_pick by done.
      rewrite service_entries_addLCN by done.
      destruct (decide (srv = entry_service_id it)) as [->|Hne].
      * rewrite filter_cons_True, filter_nil, last_snoc by done.
        by rewrite pick_updated.
      * rewrite filter_cons_False, filter_nil, app_nil_r by done.
        specialize (Hget srv).
        rewrite !getLCN_entry_at, !getVisible_entry_at, !findLCN_pick in Hget by done.
        exact Hget.
Qed.

End LCNStoreFacts.

(** * More properties of the bitrate monitor *)

Section MonitorFacts.

Import BitrateMonitor.

Context {BitRate : Type} `{BitRateOps BitRate}.

Implicit Types (o : Options BitRate) (w : Work BitRate) (ps : list Period).

Lemma checkTime_returns o now w :
  (periods_index w < length (periods w))%nat ->
  exists w', checkTime o now w = Some w'.
Proof.
  intros Hidx. unfold checkTime.
  destruct (NanoSecPerSec <=? now - last_second w); [|by eexists].
  destruct (lookup_lt_is_Some_2 _ _ Hidx) as [p ->]. by eexists.
Qed.

(** X21: a started monitor never reads outside its window.  With a
    window of at least one second, every packet and every packet timeout
    finds the bucket of the current second in the vector of buckets:
    [processPacket] and [handlePacketTimeout] always return, the latter
    with true (the wait goes on), and the monitor stays started. *)
Theorem monitor_in_window o w pid pkt_labels now :
  0 < window_size o ->
  running o w ->
  (exists l w',
     processPacket o pid pkt_labels now w = Some (l, w') /\ running o w')
  /\ (exists w',
        handlePacketTimeout o now w = Some (true, w') /\ running o w').
Proof.
  intros HW Hrun.
  destruct (running_filled o w HW Hrun) as (Hfill & Hun & Huns).
  pose proof Hfill as (Hlen & Hidx & _).
  split.
  - assert (Hex : exists l w', processPacket o pid pkt_labels now w = Some (l, w')).
    { unfold processPacket. destruct (pids o pid).
      - destruct (lookup_lt_is_Some_2 _ _ Hidx) as [p Hp]. rewrite Hp.
        destruct (count_packet_kept o w p pid Hp Hfill Hun Huns) as ((_ & Hidx0 & _) & _).
        destruct (checkTime_returns o now _ Hidx0) as [w1 ->]. by eexists _, _.
      - destruct (checkTime_returns o now w Hidx) as [w1 ->]. by eexists _, _. }
    destruct Hex as (l & w' & Hp). exists l, w'. split; [done|].
    by apply (run_packet o pid pkt_labels now w l w').
  - destruct (checkTime_returns o now w Hidx) as [w1 Hck].
    exists w1. assert (Hto : handlePacketTimeout o now w = Some (true, w1))
      by (unfold handlePacketTimeout; by rewrite Hck).
    split; [done|]. by apply (run_timeout o now w w1).
Qed.

(** X22: a window of zero seconds.  [--time-interval 0] is accepted and
    gives an empty vector of buckets: the first monitored packet, and the
    first packet or timeout after one second, index it at 0, outside of
    it.  Only packets of other PID's within the first second pass. *)
Theorem zero_window_out_of_range o now0 w0 w pid pkt_labels now :
  window_size o = 0 ->
  start o now0 w0 = (true, w) ->
  (pids o pid = true -> processPacket o pid pkt_labels now w = None)
  /\ (NanoSecPerSec <= now - now0 ->
        handlePacketTimeout o now w = None
        /\ processPacket o pid pkt_labels now w = None)
  /\ (pids o pid = false -> now - now0 < NanoSecPerSec ->
        processPacket o pid pkt_labels now w
        = Some (Z.lor (Z.lor pkt_labels 0) (labels_normal o), w)).
Proof.
  intros HW [= <-]. rewrite HW. change (replicate (Z.to_nat 0) Period_clear) with (@nil Period).
  assert (Hck : NanoSecPerSec <= now - now0 ->
          checkTime o now
            (mkWork (periodic_bitrate o) (periodic_command o) IN_RANGE now0 true 0
               [] 0 [] [] MilliSecPerSec (outputs w0)) = None).
  { intros Hsec. unfold checkTime. cbn [last_second periods periods_index].
    by rewrite (proj2 (Z.leb_le _ _) Hsec). }
  split; [|split].
  - intros Hpid. unfold processPacket. by rewrite Hpid.
  - intros Hsec. split.
    + unfold handlePacketTimeout. by rewrite Hck.
    + unfold processPacket. destruct (pids o pid); [done|]. by rewrite Hck.
  - intros Hpid Hsec. unfold processPacket. rewrite Hpid.
    unfold checkTime. cbn [last_second].
    destruct (Z.leb_spec NanoSecPerSec (now - now0)); [lia|]. done.
Qed.

(** X23: the labels of a change go to one packet.  Once a packet went
    through [processPacket], the next packet of the same second gets the
    labels of the bitrate state only: the labels which mark a change of
    state were given to one packet and are not given again. *)
Theorem go_labels_once o w pid1 l1 now1 l1' w1 pid2 l2 now2 :
  0 < window_size o ->
  running o w ->
  processPacket o pid1 l1 now1 w = Some (l1', w1) ->
  now2 - last_second w1 < NanoSecPerSec ->
  labels_next w1 = 0
  /\ exists w2,
       processPacket o pid2 l2 now2 w1
       = Some (Z.lor l2 (state_labels o (last_bitrate_status w1)), w2)
       /\ last_bitrate_status w2 = last_bitrate_status w1
       /\ labels_next w2 = 0.
Proof.
  intros HW Hrun Hp1 Hsec.
  assert (Hrun1 : running o w1) by (by apply (run_packet o pid1 l1 now1 w l1' w1)).
  destruct (running_filled o w1 HW Hrun1) as ((_ & Hidx & _) & _).
  assert (Hl : labels_next w1 = 0).
  { unfold processPacket in Hp1.
    destruct (if pids o pid1 then _ else _) as [w0|]; [|done].
    destruct (checkTime o now1 w0) as [w'|]; [|done]. by injection Hp1 as _ <-. }
  split; [exact Hl|].
  assert (Hck : forall w0, last_second w0 = last_second w1 ->
                  checkTime o now2 w0 = Some w0).
  { intros w0 Hlast. unfold checkTime. rewrite Hlast.
    by destruct (Z.leb_spec NanoSecPerSec (now2 - last_second w1)); [lia|]. }
  unfold processPacket. destruct (pids o pid2).
  - destruct (lookup_lt_is_Some_2 _ _ Hidx) as [p ->].
    rewrite Hck by done. cbn [labels_next set_periods last_bitrate_status].
    rewrite Hl, Z.lor_0_r. by eexists.
  - rewrite Hck by done. rewrite Hl, Z.lor_0_r. by eexists.
Qed.

Lemma RangeStatus_eqb_eq (a b : RangeStatus) :
  RangeStatus_eqb a b = true <-> a = b.
Proof. by destruct a, b. Qed.

(** X24: the alarm follows the state.  After [computeBitrate] the status
    which the plugin remembers is the status of the bitrate it has just
    computed.  A warning is sent exactly when this status differs from the
    one remembered before, and then only are the labels of the change
    added for the next packet. *)
Theorem computeBitrate_alarm o w :
  let b := fst (window_bitrates (periods w)) in
  let w' := computeBitrate o w in
  last_bitrate_status w' = range_status o b
  /\ (exists new,
        outputs w' = outputs w ++ new
        /\ forall st b',
             AlarmWarning st b' ∈ new
             <-> st = range_status o b /\ b' = b
                 /\ range_status o b <> last_bitrate_status w)
  /\ labels_next w'
     = if RangeStatus_eqb (range_status o b) (last_bitrate_status w)
       then labels_next w
       else Z.lor (labels_next w) (go_labels o (range_status o b)).
Proof.
  cbv zeta. unfold computeBitrate.
  destruct (window_bitrates (periods w)) as [b nb]. cbn [fst].
  unfold report_bitrates.
  destruct (tick_countdown (periodic_bitrate o) (bitrate_countdown w)) as [c1 display].
  destruct (tick_countdown (periodic_command o) (command_countdown w)) as [c2 run].
  destruct (RangeStatus_eqb (range_status o b) (last_bitrate_status w)) eqn:Heq;
    cbn [negb orb].
  - apply RangeStatus_eqb_eq in Heq.
    assert (Hno : forall (new : list (Output BitRate)) st b',
              (forall x, x ∈ new -> forall s c, x <> AlarmWarning s c) ->
              AlarmWarning st b' ∈ new
              <-> st = range_status o b /\ b' = b
                  /\ range_status o b <> last_bitrate_status w).
    { intros new st b' Hnew. split; [|tauto].
      intros Hin. by destruct (Hnew _ Hin st b'). }
    destruct run; cbn [last_bitrate_status outputs labels_next].
    + split; [done|]. split; [|done]. eexists. split; [reflexivity|].
      intros st b'. apply Hno. intros x Hx s c.
      rewrite app_nil_l in Hx. apply elem_of_app in Hx as [Hx|Hx].
      * destruct display; [|by apply elem_of_nil in Hx].
        apply list_elem_of_singleton in Hx as ->. done.
      * destruct (decide (alarm_command o = "")); [by apply elem_of_nil in Hx|].
        apply list_elem_of_singleton in Hx as ->. done.
    + split; [done|]. split; [|done]. eexists. split; [reflexivity|].
      intros st b'. apply Hno. intros x Hx s c.
      destruct display; [|by apply elem_of_nil in Hx].
      apply list_elem_of_singleton in Hx as ->. done.
  - assert (Hne : range_status o b <> last_bitrate_status w).
    { intros Habs. apply RangeStatus_eqb_eq in Habs. congruence. }
    cbn [last_bitrate_status outputs labels_next].
    split; [done|]. split; [|done]. eexists. split; [reflexivity|].
    intros st b'. split.
    + intros Hx. apply elem_of_app in Hx as [Hx|Hx].
      * destruct display; [|by apply elem_of_nil in Hx].
        by apply list_elem_of_singleton in Hx.
      * apply elem_of_cons in Hx as [[= -> ->]|Hx]; [done|].
        destruct (decide (alarm_command o = "")); [by apply elem_of_nil in Hx|].
        by apply list_elem_of_singleton in Hx.
    + intros (-> & -> & _). apply elem_of_app. right. apply list_elem_of_here.
Qed.

Lemma succ_mod (p n : Z) :
  0 < p -> 0 <= n ->
  (n + 1) mod p = if n mod p + 1 =? p then 0 else n mod p + 1.
Proof.
  intros Hp Hn. pose proof (Z.mod_pos_bound n p Hp) as Hr.
  pose proof (Z.div_mod n p ltac:(lia)) as Hdiv.
  destruct (Z.eqb_spec (n mod p + 1) p) as [E|E].
  - replace (n + 1) with ((n / p + 1) * p) by lia. apply Z.mod_mul. lia.
  - symmetry. apply (Z.mod_unique_pos _ _ (n / p)); lia.
Qed.

Lemma computeBitrate_countdown o w :
  0 < periodic_bitrate o ->
  bitrate_countdown (computeBitrate o w)
  = (if bitrate_countdown w - 1 <=? 0 then periodic_bitrate o
     else bitrate_countdown w - 1)
  /\ exists new,
       outputs (computeBitrate o w) = outputs w ++ new
       /\ ((exists b nb, InfoBitrate b nb ∈ new) <-> bitrate_countdown w - 1 <= 0).
Proof.
  intros Hp. unfold computeBitrate.
  destruct (window_bitrates (periods w)) as [b nb].
  assert (Htick : tick_countdown (periodic_bitrate o) (bitrate_countdown w)
                  = if bitrate_countdown w - 1 <=? 0 then (periodic_bitrate o, true)
                    else (bitrate_countdown w - 1, false)).
  { unfold tick_countdown. by rewrite (proj2 (Z.ltb_lt _ _) Hp). }
  unfold report_bitrates. rewrite Htick. clear Htick.
  destruct (tick_countdown (periodic_command o) (command_countdown w)) as [c2 run].
  assert (Hother : forall x : Output BitRate,
            x ∈ (if negb (RangeStatus_eqb (range_status o b) (last_bitrate_status w))
                 then [AlarmWarning (range_status o b) b] else [])
                ++ (if decide (alarm_command o = "") then []
                    else [AlarmCommand
                            (negb (RangeStatus_eqb (range_status o b)
                                     (last_bitrate_status w)))
                            (range_status o b) b (min_bitrate o) (max_bitrate o) nb]) ->
            forall b' nb', x <> InfoBitrate b' nb').
  { intros x Hx b' nb'. apply elem_of_app in Hx as [Hx|Hx].
    - destruct (negb _); [|by apply elem_of_nil in Hx].
      by apply list_elem_of_singleton in Hx as ->.
    - destruct (decide _); [by apply elem_of_nil in Hx|].
      by apply list_elem_of_singleton in Hx as ->. }
  destruct (Z.leb_spec (bitrate_countdown w - 1) 0) as [Hle|Hgt].
  - destruct (_ || run); cbn [bitrate_countdown outputs];
      (split; [done|]); eexists; (split; [reflexivity|]);
      (split; [done|]); intros _; eexists _, _; apply list_elem_of_here.
  - destruct (_ || run); cbn [bitrate_countdown outputs];
      (split; [done|]); eexists; (split; [reflexivity|]);
      (split; [|lia]); intros (b' & nb' & Hx); rewrite ?app_nil_l in Hx.
    + by destruct (Hother _ Hx b' nb').
    + by apply elem_of_nil in Hx.
Qed.

(** X25: the periodic display.  With [--periodic-bitrate p], counting
    from [start], the bitrate is displayed by every [p]-th call of
    [computeBitrate] and by no other one. *)
Theorem periodic_display o w n :
  0 < periodic_bitrate o ->
  bitrate_countdown w = periodic_bitrate o ->
  let wn := Nat.iter n (computeBitrate o) w in
  (exists b nb,
     InfoBitrate b nb
     ∈ drop (length (outputs wn)) (outputs (computeBitrate o wn)))
  <-> (Z.of_nat n + 1) mod periodic_bitrate o = 0.
Proof.
  intros Hp Hstart. cbv zeta.
  assert (Hinv : forall k,
            bitrate_countdown (Nat.iter k (computeBitrate o) w)
            = periodic_bitrate o - Z.of_nat k mod periodic_bitrate o).
  { induction k as [|k IH].
    - change (Nat.iter 0 (computeBitrate o) w) with w.
      rewrite Hstart. change (Z.of_nat 0) with 0.
      rewrite Z.mod_0_l by lia. lia.
    - change (Nat.iter (S k) (computeBitrate o) w)
        with (computeBitrate o (Nat.iter k (computeBitrate o) w)).
      destruct (computeBitrate_countdown o (Nat.iter k (computeBitrate o) w) Hp) as [-> _].
      rewrite IH, Nat2Z.inj_succ. unfold Z.succ.
      rewrite (succ_mod _ (Z.of_nat k)) by lia.
      pose proof (Z.mod_pos_bound (Z.of_nat k) (periodic_bitrate o) Hp).
      destruct (Z.leb_spec (periodic_bitrate o
                            - Z.of_nat k mod periodic_bitrate o - 1) 0);
        destruct (Z.eqb_spec (Z.of_nat k mod periodic_bitrate o + 1)
                    (periodic_bitrate o)); lia. }
  destruct (computeBitrate_countdown o (Nat.iter n (computeBitrate o) w) Hp)
    as (_ & new & -> & Hnew).
  rewrite drop_app_length, Hnew, Hinv.
  rewrite (succ_mod _ (Z.of_nat n)) by lia.
  pose proof (Z.mod_pos_bound (Z.of_nat n) (periodic_bitrate o) Hp).
  destruct (Z.eqb_spec (Z.of_nat n mod periodic_bitrate o + 1) (periodic_bitrate o)); lia.
Qed.

End MonitorFacts.

(** * The properties on concrete pipelines and plugins *)

Section ConcretePipelines.

Import Tsp Examples.

Lemma buffer_fits_8 : buffer_fits 8.
Proof. unfold buffer_fits, PKT_SIZE, SIZE_MAX1. lia. Defined.

Lemma window_fits_exec t first cnt ie ab :
  0 <= first < 8 -> 0 <= cnt <= 8 -> window_fits 8 (exec t 8 first cnt ie ab).
Proof. intros Hf Hc. unfold window_fits. cbn. lia. Defined.

(** The input passes 3 of its 8 packets to the processor. *)
Lemma passPackets_effect_witness :
  buffer_fits 8
  /\ exists res r' s' n',
       passPackets 0 3 5 1%nat false false ring3 = Ok (res, r')
       /\ stages r' !! 0%nat = Some s'
       /\ stages r' !! 1%nat = Some n'
       /\ pkt_first s' = 3 /\ pkt_cnt s' = 5 /\ pkt_cnt n' = 3
       /\ res = true.
Proof.
  split; [exact buffer_fits_8|].
  destruct (passPackets_effect 8 ring3 0 (exec INPUT 8 0 8 false false)
              (exec PROCESSOR 8 0 0 false false) 3 5 1%nat false false)
    as (res & r' & s' & n' & H1 & H2 & H3 & H4 & H5 & H6 & _ & _ & _ & _ & _ & _ & _ & H7).
  - exact buffer_fits_8.
  - apply window_fits_exec; lia.
  - apply window_fits_exec; lia.
  - reflexivity.
  - reflexivity.
  - intros Heq. vm_compute in Heq. discriminate Heq.
  - cbn. lia.
  - exists res, r', s', n'.
    split; [exact H1|]. split; [exact H2|]. split; [exact H3|].
    split; [exact H4|]. split; [exact H5|]. split; [exact H6|].
    apply H7. split; reflexivity.
Defined.

Lemma ring3_reachable : reachable 8 0 ring3_new ring3.
Proof. apply (reach_start _ _ 8 0 ring3_new 0 0%nat). reflexivity. Defined.

Lemma ring3_passed_reachable : reachable 8 0 ring3_new ring3_passed.
Proof.
  apply (reach_passPackets _ _ 8 0 ring3_new ring3 0 3 0 0%nat false false true).
  - exact ring3_reachable.
  - unfold SIZE_MAX1. lia.
  - reflexivity.
Defined.

(** The windows of the pipeline after the input passed 3 packets. *)
Lemma windows_invariant_witness :
  reachable 8 0 ring3_new ring3_passed
  /\ total_count (stages ring3_passed) = 8
  /\ forall i s n,
       stages ring3_passed !! i = Some s ->
       stages ring3_passed !! ringNext (length (stages ring3_passed)) i = Some n ->
       (pkt_first n + pkt_cnt n) mod 8 = pkt_first s.
Proof.
  split; [exact ring3_passed_reachable|].
  apply (windows_invariant 8 0 ring3_new ring3_passed).
  - exact buffer_fits_8.
  - lia.
  - cbn. lia.
  - exact ring3_passed_reachable.
Defined.

(** C2 as it is worded: after the input passed 3 packets to the processor,
    the counts add up to 8, the window of the processor is slots 0 to 2 and
    the window of the output, its next stage, starts at slot 0, not at
    slot 3. *)
Lemma windows_follow_counterexample :
  exists r,
    reachable 8 0 ring3_new r
    /\ total_count (stages r) = 8
    /\ stages r !! 1%nat = Some (exec PROCESSOR 8 0 3 false false)
    /\ stages r !! ringNext (length (stages r)) 1 = Some (exec OUTPUT 8 0 0 false false)
    /\ ~ next_follows 8 r.
Proof.
  exists ring3_passed.
  split; [exact ring3_passed_reachable|].
  do 3 (split; [reflexivity|]).
  intros Hfollows.
  specialize (Hfollows 1%nat (exec PROCESSOR 8 0 3 false false)
                (exec OUTPUT 8 0 0 false false) eq_refl eq_refl).
  vm_compute in Hfollows. discriminate Hfollows.
Qed.

(** Both flags of the processor are set.  The input then passes 2 packets,
    the processor passes 1 packet and waits for the next one, none of these
    calls carrying a flag: the window of the processor has moved and both
    its flags are still set. *)
Lemma flags_monotonic_witness :
  rtc (executor_step Infinite) ring3 ring3_flagged
  /\ stages ring3_flagged !! 1%nat = Some (exec PROCESSOR 8 0 3 true true)
  /\ exists r1 r2 w e',
       passPackets 0 2 0 0%nat false false ring3_flagged = Ok (false, r1)
       /\ passPackets 1 1 0 0%nat false false r1 = Ok (false, r2)
       /\ waitWork Infinite 1 1 [] r2 = Ok (w, r2)
       /\ stages r2 !! 1%nat = Some e'
       /\ pkt_first e' = 1
       /\ input_end e' = true
       /\ tsp_aborting e' = true.
Proof.
  pose (a1 := mkRing [exec INPUT 8 3 5 false false; exec PROCESSOR 8 0 3 true false;
                      exec OUTPUT 8 0 0 false false] [1%nat]).
  pose (a2 := mkRing [exec INPUT 8 3 5 false false; exec PROCESSOR 8 0 3 true false;
                      exec OUTPUT 8 0 0 false true] [1%nat; 1%nat]).
  pose (r1 := mkRing [exec INPUT 8 5 3 false true; exec PROCESSOR 8 0 5 true true;
                      exec OUTPUT 8 0 0 false true]
                [2%nat; 1%nat; 0%nat; 1%nat; 1%nat]).
  pose (r2 := mkRing [exec INPUT 8 5 3 false true; exec PROCESSOR 8 1 4 true true;
                      exec OUTPUT 8 0 1 false true]
                [0%nat; 2%nat; 2%nat; 1%nat; 0%nat; 1%nat; 1%nat]).
  pose (w := mkWork 1 4 0 0%nat true true false : Work Z nat).
  assert (Hraise : rtc (executor_step Infinite) ring3 ring3_flagged).
  { apply (rtc_l _ _ a1).
    { apply (step_passPackets Infinite ring3 a1 0 3 0 0%nat true false false).
      vm_compute. reflexivity. }
    apply (rtc_l _ _ a2).
    { apply (step_setAbort Infinite a1 a2 2). vm_compute. reflexivity. }
    apply (rtc_l _ _ ring3_flagged); [|apply rtc_refl].
    apply (step_passPackets Infinite a2 ring3_flagged 1 0 0 0%nat false false false).
    vm_compute. reflexivity. }
  assert (H1 : passPackets 0 2 0 0%nat false false ring3_flagged = Ok (false, r1))
    by (vm_compute; reflexivity).
  assert (H2 : passPackets 1 1 0 0%nat false false r1 = Ok (false, r2))
    by (vm_compute; reflexivity).
  assert (H3 : waitWork Infinite 1 1 [] r2 = Ok (w, r2))
    by (vm_compute; reflexivity).
  assert (Hrun : rtc (executor_step Infinite) ring3_flagged r2).
  { apply (rtc_l _ _ r1).
    { exact (step_passPackets Infinite ring3_flagged r1 0 2 0 0%nat false false false H1). }
    apply (rtc_l _ _ r2).
    { exact (step_passPackets Infinite r1 r2 1 1 0 0%nat false false false H2). }
    apply (rtc_l _ _ r2); [|apply rtc_refl].
    exact (step_waitWork Infinite r2 r2 1 1 [] w H3). }
  destruct (flags_monotonic Infinite ring3_flagged r2 1
              (exec PROCESSOR 8 0 3 true true) Hrun)
    as (e' & He' & Hie & Hab); [reflexivity|].
  split; [exact Hraise|]. split; [reflexivity|].
  exists r1, r2, w, e'.
  split; [exact H1|]. split; [exact H2|]. split; [exact H3|]. split; [exact He'|].
  split.
  - assert (Heq : Some (exec PROCESSOR 8 1 4 true true) = Some e') by exact He'.
    injection Heq as <-. reflexivity.
  - split; [apply Hie | apply Hab]; reflexivity.
Defined.

(** The processor owns slots 6, 7, 0, 1, 2 and asks for 2 packets: it gets
    the 2 packets up to the end of the buffer. *)
Lemma waitWork_returned_count_witness :
  exists w r',
    waitWork Infinite 1 2 [] ring3_wrapped = Ok (w, r')
    /\ w_timeout w = false
    /\ w_pkt_first w = 6
    /\ w_pkt_cnt w = 2.
Proof.
  pose (w := mkWork 6 2 0 0%nat false false false : Work Z nat).
  assert (Hrun : waitWork Infinite 1 2 [] ring3_wrapped = Ok (w, ring3_wrapped))
    by reflexivity.
  destruct (waitWork_returned_count Infinite 8 1 2 [] ring3_wrapped w ring3_wrapped
              (exec PROCESSOR 8 6 5 true false) (exec PROCESSOR 8 6 5 true false))
    as [Hfirst Hcnt].
  - exact buffer_fits_8.
  - lia.
  - reflexivity.
  - reflexivity.
  - exact Hrun.
  - reflexivity.
  - reflexivity.
  - apply window_fits_exec; lia.
  - exists w, ring3_wrapped. split; [exact Hrun|]. split; [reflexivity|].
    split; [exact Hfirst | exact Hcnt].
Defined.

(** The processor waits for one packet at most one second: a timeout which
    the plugin refuses ends the call. *)
Lemma waitWork_timeout_witness :
  tsp_timeout (exec PROCESSOR 8 0 0 false false) <> Infinite
  /\ waitWork Infinite 1 1 [TimedOut [] true] ring3 = Blocked
  /\ exists w,
       waitWork Infinite 1 1 [TimedOut [] false] ring3 = Ok (w, ring3)
       /\ w_timeout w = true /\ w_pkt_cnt w = 0.
Proof.
  assert (Hfin : tsp_timeout (exec PROCESSOR 8 0 0 false false) <> Infinite)
    by (intros Heq; vm_compute in Heq; discriminate Heq).
  destruct (waitWork_timeout Infinite 1 1 [] [] ring3
              (exec PROCESSOR 8 0 0 false false) (exec OUTPUT 8 0 0 false false))
    as [Hresume Habort].
  - reflexivity.
  - reflexivity.
  - reflexivity.
  - exact Hfin.
  - split; [exact Hfin|]. split.
    + rewrite Hresume. reflexivity.
    + apply (Habort ring3). reflexivity.
Defined.

(** The input has aborted and the output releases nothing: the output does
    not abort, the flags of the input stay, the call returns true, and the
    [waitWork] of the output does not report the abort.  The output has
    aborted and the processor passes the end of input: the processor aborts,
    the output gets the end of input, the call returns false, and the
    [waitWork] of the processor reports the abort. *)
Lemma output_edge_witness :
  (exists res r' s' n',
     passPackets 2 0 0 0%nat false false ring3_input_aborting = Ok (res, r')
     /\ stages r' !! 2%nat = Some s'
     /\ stages r' !! 0%nat = Some n'
     /\ input_end n' = false
     /\ tsp_aborting n' = true
     /\ tsp_aborting s' = false
     /\ res = true)
  /\ (exists res r' s' n',
        passPackets 1 0 0 0%nat true false ring3_aborting = Ok (res, r')
        /\ stages r' !! 1%nat = Some s'
        /\ stages r' !! 2%nat = Some n'
        /\ input_end n' = true
        /\ tsp_aborting s' = true
        /\ res = false)
  /\ (exists w,
        waitWork Infinite 2 1 [] ring3_input_aborting = Ok (w, ring3_input_aborting)
        /\ w_aborted w = false)
  /\ (exists w,
        waitWork Infinite 1 1 [] ring3_aborting = Ok (w, ring3_aborting)
        /\ w_aborted w = true).
Proof.
  destruct (output_edge (BitRate := Z) (BitRateConfidence := nat) Infinite)
    as (Hout & Hother & Hwait).
  split; [|split; [|split]].
  - destruct (Hout ring3_input_aborting 2%nat (exec OUTPUT 8 0 0 false false)
                (exec INPUT 8 0 8 false true) 0 0 0%nat false)
      as (res & r' & s' & n' & H1 & H2 & H3 & H4 & H5 & H6 & H7).
    + reflexivity.
    + reflexivity.
    + intros Heq. vm_compute in Heq. discriminate Heq.
    + cbn. lia.
    + cbn. lia.
    + reflexivity.
    + exists res, r', s', n'.
      split; [exact H1|]. split; [exact H2|]. split; [exact H3|].
      split; [exact H4|]. split; [exact H5|]. split; [exact H6 | exact H7].
  - destruct (Hother ring3_aborting 1%nat (exec PROCESSOR 8 0 3 false false)
                (exec OUTPUT 8 0 0 false true) 0 0 0%nat true false)
      as (res & r' & s' & n' & H1 & H2 & H3 & H4 & H5 & H6).
    + reflexivity.
    + reflexivity.
    + intros Heq. vm_compute in Heq. discriminate Heq.
    + cbn. lia.
    + cbn. lia.
    + intros Heq. discriminate Heq.
    + exists res, r', s', n'.
      split; [exact H1|]. split; [exact H2|]. split; [exact H3|].
      split; [exact H4|]. split; [exact H5 | exact H6].
  - pose (w := mkWork 0 0 0 0%nat false false false : Work Z nat).
    assert (Hrun : waitWork Infinite 2 1 [] ring3_input_aborting
                   = Ok (w, ring3_input_aborting)) by (vm_compute; reflexivity).
    exists w. split; [exact Hrun|].
    exact (Hwait 2%nat 1 [] w ring3_input_aborting ring3_input_aborting
             (exec OUTPUT 8 0 0 false false) (exec INPUT 8 0 8 false true)
             Hrun eq_refl eq_refl).
  - pose (w := mkWork 0 3 0 0%nat false true false : Work Z nat).
    assert (Hrun : waitWork Infinite 1 1 [] ring3_aborting = Ok (w, ring3_aborting))
      by (vm_compute; reflexivity).
    exists w. split; [exact Hrun|].
    exact (Hwait 1%nat 1 [] w ring3_aborting ring3_aborting
             (exec PROCESSOR 8 0 3 false false) (exec OUTPUT 8 0 0 false true)
             Hrun eq_refl eq_refl).
Defined.

(** The window of the processor wraps and its input has ended: the call
    returns the 2 packets of the head and does not report the end. *)
Lemma waitWork_input_end_witness :
  exists w r',
    waitWork Infinite 1 1 [] ring3_wrapped = Ok (w, r')
    /\ w_pkt_cnt w = 2
    /\ w_input_end w = false.
Proof.
  pose (w := mkWork 6 2 0 0%nat false false false : Work Z nat).
  assert (Hrun : waitWork Infinite 1 1 [] ring3_wrapped = Ok (w, ring3_wrapped))
    by reflexivity.
  destruct (waitWork_input_end Infinite 8 1 1 [] ring3_wrapped w ring3_wrapped
              (exec PROCESSOR 8 6 5 true false) (exec PROCESSOR 8 6 5 true false))
    as [_ Hwrap].
  - reflexivity.
  - exact Hrun.
  - reflexivity.
  - destruct Hwrap as (Hcnt & _ & Hend).
    + exact buffer_fits_8.
    + reflexivity.
    + apply window_fits_exec; lia.
    + lia.
    + reflexivity.
    + cbn. lia.
    + cbn. lia.
    + exists w, ring3_wrapped. split; [exact Hrun|]. split; [exact Hcnt | exact Hend].
Defined.

End ConcretePipelines.

Section ConcretePlugins.

Import Restart Restart.Toy.

(** The restart of the toy plugin with an option which it rejects: the
    record gets the error of the plugin, then the warning; the plugin runs
    again, with its previous arguments. *)
Lemma restart_falls_back_witness :
  exists x' d',
    processPendingRestart 16 32 (fun _ : nat => 0%nat) Toy.pending = ((true, true), x')
    /\ plugin x' = Toy.mkPlugin ["--ok"] 48 true
    /\ restart_data x' = None
    /\ records x' !! 0%nat = Some d'
    /\ completed d' = true
    /\ report d' = [(Verbose, "restarting plugin toy"); (Error, "unknown option");
                    restart_warning "toy"].
Proof.
  pose proof (restart_falls_back 16 32 nat (fun _ => 0%nat) Toy.pending 0
                (RestartData_new ["--invalid"] false []) true
                (Toy.mkPlugin ["--ok"] 0 false) []
                (Toy.mkPlugin ["--invalid"] 48 false) [(Error, "unknown option")]
                true (Toy.mkPlugin ["--ok"] 48 true) []
                eq_refl eq_refl eq_refl eq_refl eq_refl eq_refl eq_refl eq_refl) as Hrun.
  eexists _, _. split; [exact Hrun|]. repeat split.
Defined.

Import BitrateMonitor.

Lemma monitored_running : running monitor monitored.
Proof.
  pose (w0 := (start monitor 0 stopped).2).
  pose (w1 := after_timeout 1000000000 w0).
  pose (w2 := after_packet 0x100 1200000000 w1).
  pose (w3 := after_packet 0x100 1400000000 w2).
  pose (w4 := after_timeout 2000000000 w3).
  apply (run_packet monitor 0x100 0 2500000000 w4 0 monitored);
    [|vm_compute; reflexivity].
  apply (run_timeout monitor 2000000000 w3 w4); [|vm_compute; reflexivity].
  apply (run_packet monitor 0x100 0 1400000000 w2 0 w3); [|vm_compute; reflexivity].
  apply (run_packet monitor 0x100 0 1200000000 w1 0 w2); [|vm_compute; reflexivity].
  apply (run_timeout monitor 1000000000 w0 w1); [|vm_compute; reflexivity].
  apply (run_start monitor 0 stopped w0). vm_compute. reflexivity.
Defined.

(** At 3 s the window of two seconds is filled: 3 packets in 2000000
    microseconds are 2256 b/s, which is below the minimum. *)
Lemma bitrate_at_second_boundary_witness :
  running monitor monitored
  /\ NanoSecPerSec <= 3000000000 - last_second monitored
  /\ startup monitored = false
  /\ exists w',
       checkTime monitor 3000000000 monitored = Some w'
       /\ stats w' = [3 * 1504 * 1000000 / 2000000]
       /\ last_bitrate_status w' = LOWER.
Proof.
  assert (Hsec : NanoSecPerSec <= 3000000000 - last_second monitored)
    by (vm_compute; discriminate).
  destruct (bitrate_at_second_boundary monitor monitored 3000000000)
    as [(p & Hp & Hbody) _].
  - reflexivity.
  - exact monitored_running.
  - exact Hsec.
  - split; [exact monitored_running|]. split; [exact Hsec|].
    split; [reflexivity|].
    assert (p = mkPeriod 0 1 1) as -> by (vm_compute in Hp; congruence).
    cbv zeta in Hbody.
    change (startup monitored) with false in Hbody. cbv iota in Hbody.
    destruct Hbody as (_ & _ & _ & _ & _ & Hcheck).
    eexists. split; [exact Hcheck|]. split; reflexivity.
Defined.

Import LCN.

(** The store holds service 100 of TS 1 with an unspecified original
    network id: a search for original network id 5 does not find it. *)
Lemma findLCN_fallback_witness :
  store !! 0%nat = Some (100, mkLCN 7 1 0xFFFF true)
  /\ findLCN store 100 1 5 <> Some 0%nat
  /\ getLCN store 100 1 5 = 0xFFFF.
Proof.
  split; [reflexivity|].
  destruct (findLCN_fallback store 100 1 5 0%nat 100 (mkLCN 7 1 0xFFFF true))
    as [Hnot _].
  - reflexivity.
  - reflexivity.
  - lia.
  - split; [exact Hnot | reflexivity].
Defined.

End ConcretePlugins.

(** * More scenarios on the concrete pipeline *)

Section PipelineScenarios.

Import Tsp Examples.

(** The processor holds 3 packets and asks for 2: the call returns; it
    holds none and asks for 1, and nobody wakes it up: the call waits. *)
Lemma waitWork_returns_at_once_witness :
  (exists w,
     waitWork Infinite 1 2 [Notified []] ring3_passed = Ok (w, ring3_passed)
     /\ w_timeout w = false)
  /\ waitWork Infinite 1 1 [] ring3 = Blocked.
Proof.
  split.
  - apply (proj1 (waitWork_returns_at_once Infinite 1 2 [Notified []] ring3_passed
                    (exec PROCESSOR 8 0 3 false false)
                    (exec OUTPUT 8 0 0 false false) eq_refl eq_refl)).
    left. cbn. lia.
  - apply (proj2 (waitWork_returns_at_once Infinite 1 1 [] ring3
                    (exec PROCESSOR 8 0 0 false false)
                    (exec OUTPUT 8 0 0 false false) eq_refl eq_refl)).
    + cbn. lia.
    + reflexivity.
    + reflexivity.
Defined.

(** The processor owns slots 6, 7, 0, 1, 2 and asks for 2 packets. *)
Lemma waitWork_slice_witness :
  exists w,
    waitWork Infinite 1 2 [] ring3_wrapped = Ok (w, ring3_wrapped)
    /\ w_pkt_first w = 6
    /\ 0 <= w_pkt_cnt w <= 5
    /\ w_pkt_first w + w_pkt_cnt w <= 8.
Proof.
  pose (w := mkWork 6 2 0 0%nat false false false : Work Z nat).
  assert (Hrun : waitWork Infinite 1 2 [] ring3_wrapped = Ok (w, ring3_wrapped))
    by reflexivity.
  destruct (waitWork_slice Infinite 8 1 2 [] ring3_wrapped w ring3_wrapped
              (exec PROCESSOR 8 6 5 true false) (exec PROCESSOR 8 6 5 true false)
              (exec OUTPUT 8 5 1 false false))
    as (Hfirst & Hcnt & Hfit & _).
  - exact buffer_fits_8.
  - lia.
  - reflexivity.
  - reflexivity.
  - exact Hrun.
  - reflexivity.
  - reflexivity.
  - apply window_fits_exec; lia.
  - exists w. split; [exact Hrun|]. split; [exact Hfirst|]. split; [exact Hcnt|].
    apply Hfit. cbn. lia.
Defined.

(** While the processor waits, the input passes 3 packets: the state at the
    return of [waitWork] is the one which this call of the input left. *)
Lemma waitWork_reads_only_witness :
  exists w k,
    waitWork Infinite 1 1 [Notified [OpPassPackets 0 3 0 0%nat false false]] ring3
    = Ok (w, ring3_passed)
    /\ (k <= 1)%nat
    /\ run_ops
         (concat (wake_ops
                    <$> take k [Notified [OpPassPackets 0 3 0 0%nat false false]]))
         ring3
       = Ok (tt, ring3_passed).
Proof.
  pose (w := mkWork 0 3 0 0%nat false false false : Work Z nat).
  assert (Hrun : waitWork Infinite 1 1
                   [Notified [OpPassPackets 0 3 0 0%nat false false]] ring3
                 = Ok (w, ring3_passed)) by (vm_compute; reflexivity).
  destruct (waitWork_reads_only Infinite 1 1
              [Notified [OpPassPackets 0 3 0 0%nat false false]] ring3 w ring3_passed
              Hrun) as (k & Hk & Hops).
  exists w, k. split; [exact Hrun|]. split; [exact Hk | exact Hops].
Defined.

(** The wait of the processor times out and the plugin refuses to go on. *)
Lemma waitWork_timeout_refused_witness :
  exists w,
    waitWork Infinite 1 1 [TimedOut [] false] ring3 = Ok (w, ring3)
    /\ w_timeout w = true
    /\ exists os, TimedOut os false ∈ [TimedOut (BitRate := Z) (BitRateConfidence := nat) [] false].
Proof.
  pose (w := mkWork 0 0 0 0%nat false false true : Work Z nat).
  assert (Hrun : waitWork Infinite 1 1 [TimedOut [] false] ring3 = Ok (w, ring3))
    by (vm_compute; reflexivity).
  destruct (waitWork_timeout_refused Infinite 1 1 [TimedOut [] false] ring3 w ring3
              (exec PROCESSOR 8 0 0 false false) eq_refl Hrun) as [Hto _].
  exists w. split; [exact Hrun|]. split; [reflexivity|]. apply Hto. reflexivity.
Defined.

(** The output aborts: the processor is told so and aborts in turn. *)
Lemma setAbort_propagates_back_witness :
  exists r1,
    setAbort 2 ring3 = Ok (tt, r1)
    /\ (exists w,
          waitWork Infinite 1 1 [] r1 = Ok (w, r1) /\ w_aborted w = true)
    /\ exists r2 s',
         passPackets 1 0 0 0%nat false false r1 = Ok (false, r2)
         /\ stages r2 !! 1%nat = Some s'
         /\ tsp_aborting s' = true
         /\ head (notified r2) = Some 0%nat.
Proof.
  destruct (setAbort_propagates_back Infinite ring3 1
              (exec PROCESSOR 8 0 0 false false) (exec OUTPUT 8 0 0 false false))
    as (r1 & Hset & Hwait & Hpass).
  - reflexivity.
  - reflexivity.
  - intros Heq. vm_compute in Heq. discriminate Heq.
  - reflexivity.
  - exists r1. split; [exact Hset|]. split.
    + destruct (Hwait 1 []) as (w & Hw & Hab & _). exists w. by split.
    + destruct (Hpass 0 0 0%nat false false) as (r2 & s' & H1 & H2 & H3 & H4).
      * cbn. lia.
      * cbn. lia.
      * exists r2, s'. repeat split; assumption.
Defined.

(** The output has aborted: the processor, then the input, pass nothing and
    abort. *)
Lemma abort_reaches_input_witness :
  exists r',
    run_ops (pass_nothing_back 2 0 0%nat) ring3_aborting = Ok (tt, r')
    /\ forall i, (i <= 2)%nat ->
         exists e, stages r' !! i = Some e /\ tsp_aborting e = true.
Proof.
  apply (abort_reaches_input 0 0%nat 2 ring3_aborting (exec OUTPUT 8 0 0 false true)).
  - reflexivity.
  - reflexivity.
  - intros [|[|i]] e Hi He; [| |lia].
    + injection He as <-. cbn. repeat split; [lia | lia].
    + injection He as <-. cbn. repeat split; [lia | lia].
Defined.

(** The input passes 1 packet, then 2 packets: as if it had passed 3. *)
Lemma passPackets_twice_witness :
  exists res1 r1 res2 r2 r12,
    passPackets 0 1 5 1%nat false false ring3 = Ok (res1, r1)
    /\ passPackets 0 2 6 2%nat false false r1 = Ok (res2, r2)
    /\ passPackets 0 (1 + 2) 6 2%nat (false || false) (false || false) ring3
       = Ok (res1 && res2, r12)
    /\ stages r12 = stages r2.
Proof.
  apply (passPackets_twice 8 ring3 0 (exec INPUT 8 0 8 false false)
           (exec PROCESSOR 8 0 0 false false) 1 2 5 1%nat 6 2%nat false false false false).
  - exact buffer_fits_8.
  - reflexivity.
  - reflexivity.
  - intros Heq. vm_compute in Heq. discriminate Heq.
  - apply window_fits_exec; lia.
  - apply window_fits_exec; lia.
  - lia.
  - lia.
  - cbn. lia.
Defined.

(** After the input passed 3 packets, its fifth packet is in slot 7 and
    the third packet of the processor in slot 2. *)
Lemma windows_disjoint_witness :
  slot 8 (exec INPUT 8 3 5 false false) 4 = 7
  /\ slot 8 (exec PROCESSOR 8 0 3 false false) 2 = 2
  /\ slot 8 (exec INPUT 8 3 5 false false) 4
     <> slot 8 (exec PROCESSOR 8 0 3 false false) 2.
Proof.
  split; [reflexivity|]. split; [reflexivity|].
  apply (windows_disjoint 8 0 ring3_new ring3_passed 0 1).
  - exact buffer_fits_8.
  - lia.
  - cbn. lia.
  - exact ring3_passed_reachable.
  - reflexivity.
  - reflexivity.
  - lia.
  - cbn. lia.
  - cbn. lia.
Defined.

(** The processor waits for 2 packets; the input passes 3 at bitrate 5. *)
Lemma passPackets_wakes_next_witness :
  waitWork Infinite 1 2 [] ring3 = Blocked
  /\ exists res r1 w,
       passPackets 0 3 5 1%nat false false ring3 = Ok (res, r1)
       /\ waitWork Infinite 1 2
            [Notified [OpPassPackets 0 3 5 1%nat false false]] ring3
          = Ok (w, r1)
       /\ w_timeout w = false
       /\ w_pkt_first w = 0
       /\ 0 < w_pkt_cnt w <= 0 + 3
       /\ w_bitrate w = 5 /\ w_br_confidence w = 1%nat.
Proof.
  apply (passPackets_wakes_next Infinite 8 ring3 0
           (exec INPUT 8 0 8 false false) (exec PROCESSOR 8 0 0 false false)
           (exec OUTPUT 8 0 0 false false) 3 5 1%nat false false 2 []).
  - exact buffer_fits_8.
  - reflexivity.
  - reflexivity.
  - reflexivity.
  - intros Heq. vm_compute in Heq. discriminate Heq.
  - apply window_fits_exec; lia.
  - apply window_fits_exec; lia.
  - cbn. lia.
  - cbn. lia.
  - lia.
  - reflexivity.
  - reflexivity.
Defined.

End PipelineScenarios.

(** * More scenarios on the concrete plugins *)

Section PluginScenarios.

Import Restart Restart.Toy.

(** The restart of the toy plugin with an option which it rejects is
    answered all the same. *)
Lemma restart_always_answered_witness :
  exists ok x' d',
    processPendingRestart 16 32 (fun _ : nat => 0%nat) Toy.pending = ((ok, true), x')
    /\ records x' !! 0%nat = Some d'
    /\ completed d' = true
    /\ notifications d' = 1%nat
    /\ restart_completed 0 x' = true
    /\ fst (pendingRestart x') = false.
Proof.
  destruct (restart_always_answered 16 32 nat (fun _ => 0%nat) Toy.pending 0
              (RestartData_new ["--invalid"] false [])
              eq_refl eq_refl eq_refl eq_refl)
    as (ok & x' & d' & H1 & H2 & H3 & H4 & H5 & H6 & _).
  exists ok, x', d'. repeat split; assumption.
Defined.

(** A second request while the first one is pending. *)
Lemma restart_superseded_witness :
  exists x1 ok x2 d,
    restart_rd 1 Toy.pending_two = (tt, x1)
    /\ records x1 !! 0%nat = Some d
    /\ completed d = true
    /\ report d = [restart_interrupted]
    /\ processPendingRestart 16 32 (fun _ : nat => 0%nat) x1 = ((ok, true), x2)
    /\ records x2 !! 0%nat = Some d
    /\ restart_completed 1 x2 = true.
Proof.
  destruct (restart_superseded 16 32 nat (fun _ => 0%nat) Toy.pending_two 0
              (RestartData_new ["--invalid"] false []) 1 (RestartData_new [] true []))
    as (x1 & ok & x2 & H1 & H2 & _ & _ & _ & _ & H3 & H4 & H5).
  - reflexivity.
  - reflexivity.
  - reflexivity.
  - lia.
  - reflexivity.
  - exists x1, ok, x2, (mkRestartData [restart_interrupted] false ["--invalid"] true 1).
    split; [exact H1|]. split; [exact H2|]. split; [reflexivity|].
    split; [reflexivity|]. split; [exact H3|].
    split; [by rewrite H4 | exact H5].
Defined.

(** A restart with new arguments is asked for, then carried out. *)
Lemma restart_params_answered_witness :
  exists rd x1 ok x2,
    restart_params ["--new"] [] Toy.idle = (rd, x1)
    /\ fst (pendingRestart x1) = true
    /\ restart_completed rd x1 = false
    /\ processPendingRestart 16 32 (fun _ : nat => 0%nat) x1 = ((ok, true), x2)
    /\ restart_completed rd x2 = true
    /\ fst (pendingRestart x2) = false.
Proof.
  apply (restart_params_answered 16 32 nat (fun _ => 0%nat) Toy.idle ["--new"] []).
  - reflexivity.
  - intros previous Hprev. discriminate Hprev.
Defined.

(** The toy plugin is restarted with the arguments it has. *)
Lemma restart_same_args_witness :
  exists x',
    processPendingRestart 16 32 (fun _ : nat => 0%nat) Toy.pending_same
    = ((true, true), x')
    /\ plugin x' = Toy.mkPlugin ["--ok"] 0 true.
Proof.
  pose proof (restart_same_args 16 32 nat (fun _ => 0%nat) Toy.pending_same 0
                (RestartData_new [] true []) true
                (Toy.mkPlugin ["--ok"] 0 false) []
                true (Toy.mkPlugin ["--ok"] 0 true) []
                eq_refl eq_refl eq_refl eq_refl eq_refl eq_refl eq_refl) as Hrun.
  eexists. split; [exact Hrun | reflexivity].
Defined.

(** The toy plugin is restarted with arguments which it knows. *)
Lemma restart_new_args_accepted_witness :
  exists x' d',
    processPendingRestart 16 32 (fun _ : nat => 0%nat) Toy.pending_valid
    = ((true, true), x')
    /\ plugin x' = Toy.mkPlugin ["--new"] 48 true
    /\ records x' !! 0%nat = Some d'
    /\ report d' = [(Verbose, "restarting plugin toy")].
Proof.
  pose proof (restart_new_args_accepted 16 32 nat (fun _ => 0%nat) Toy.pending_valid 0
                (RestartData_new ["--new"] false []) true
                (Toy.mkPlugin ["--ok"] 0 false) []
                (Toy.mkPlugin ["--new"] 48 true) []
                eq_refl eq_refl eq_refl eq_refl eq_refl eq_refl eq_refl) as Hrun.
  eexists _, _. split; [exact Hrun|]. repeat split.
Defined.

Import LCN.

Lemma store_sorted : sorted store.
Proof. split; [apply Forall_nil_2 | exact I]. Defined.

(** Service 100 gets a channel on original network 5: a second entry. *)
Lemma addLCN_keeps_store_witness :
  sorted (addLCN 9 100 1 5 false store)
  /\ NoDup (triplets (addLCN 9 100 1 5 false store))
  /\ size (addLCN 9 100 1 5 false store)
     = size store + (if decide ((100, 1, 5) ∈ triplets store) then 0 else 1).
Proof.
  apply (addLCN_keeps_store 9 100 1 5 false store).
  - exact store_sorted.
  - change (triplets store) with [(100, 1, 0xFFFF)].
    apply NoDup_singleton.
Defined.

Lemma addLCN_then_get_witness :
  getLCN (addLCN 9 100 1 5 false store) 100 1 5 = 9
  /\ getVisible (addLCN 9 100 1 5 false store) 100 1 5 = false.
Proof. apply (addLCN_then_get 9 100 1 5 false store). exact store_sorted. Defined.

(** The store knows no service 200. *)
Lemma getLCN_unknown_witness :
  getLCN store 200 1 5 = 0xFFFF /\ getVisible store 200 1 5 = true.
Proof.
  apply (getLCN_unknown store 200 1 5).
  intros k e Hin Hk.
  change store with [(100, mkLCN 7 1 0xFFFF true)] in Hin.
  apply list_elem_of_singleton in Hin. injection Hin as Hk' _. lia.
Defined.

(** A channel for service 200 leaves the channel of service 100. *)
Lemma addLCN_frame_witness :
  getLCN (addLCN 9 200 1 5 false store) 100 1 0xFFFF = getLCN store 100 1 0xFFFF
  /\ getVisible (addLCN 9 200 1 5 false store) 100 1 0xFFFF
     = getVisible store 100 1 0xFFFF.
Proof.
  apply (addLCN_frame 9 200 1 5 false store 100 1 0xFFFF).
  - exact store_sorted.
  - left. lia.
Defined.

(** A descriptor names service 100 twice: the second entry is kept. *)
Lemma addFromAbstractLCN_last_witness :
  exists m',
    addFromAbstractLCN true [mkEntry 100 true 3; mkEntry 100 false 4] 1 5 store
    = (2, m')
    /\ getLCN m' 100 1 5 = 4
    /\ getVisible m' 100 1 5 = false.
Proof.
  destruct (addFromAbstractLCN_last [mkEntry 100 true 3; mkEntry 100 false 4] 1 5
              store store_sorted) as (_ & m' & Hrun & _ & Hget).
  exists m'. split; [exact Hrun|]. exact (Hget 100).
Defined.

Import BitrateMonitor.

(** The monitor of the two-second window at 2.6 s. *)
Lemma monitor_in_window_witness :
  (exists l w',
     processPacket monitor 0x100 0 2600000000 monitored = Some (l, w')
     /\ running monitor w')
  /\ (exists w',
        handlePacketTimeout monitor 2600000000 monitored = Some (true, w')
        /\ running monitor w').
Proof.
  apply (monitor_in_window monitor monitored 0x100 0 2600000000).
  - reflexivity.
  - exact monitored_running.
Defined.

(** The monitor with no window, started at 0: a packet at 0.5 s. *)
Lemma zero_window_out_of_range_witness :
  processPacket monitor_no_window 0x100 0 500000000
    (start monitor_no_window 0 stopped).2 = None.
Proof.
  destruct (zero_window_out_of_range monitor_no_window 0 stopped
              (start monitor_no_window 0 stopped).2 0x100 0 500000000)
    as (Hpid & _ & _).
  - reflexivity.
  - reflexivity.
  - apply Hpid. reflexivity.
Defined.

Lemma labelled_running : running monitor_labels labelled.
Proof.
  pose (w0 := (start monitor_labels 0 stopped).2).
  pose (w1 := match handlePacketTimeout monitor_labels 1000000000 w0 with
              | Some (_, w) => w
              | None => stopped
              end).
  apply (run_timeout monitor_labels 2000000000 w1 labelled);
    [|vm_compute; reflexivity].
  apply (run_timeout monitor_labels 1000000000 w0 w1); [|vm_compute; reflexivity].
  apply (run_start monitor_labels 0 stopped w0). vm_compute. reflexivity.
Defined.

(** The monitor with labels sees its first packet at 3 s: the bitrate of the
    window, 752 b/s, is below the minimum.  This packet gets label 3 (the
    bitrate goes below) and label 0 (the bitrate is below), that is 9; the
    packet at 3.5 s, which comes with label 6, leaves with labels 6 and 0,
    that is 65, and not with label 3. *)
Lemma go_labels_once_witness :
  exists w1 w2,
    last_bitrate_status labelled = IN_RANGE
    /\ processPacket monitor_labels 0x100 0 3000000000 labelled = Some (9, w1)
    /\ last_bitrate_status w1 = LOWER
    /\ processPacket monitor_labels 0x100 64 3500000000 w1 = Some (65, w2)
    /\ labels_next w2 = 0.
Proof.
  pose (w1 := mkWork 0 0 LOWER 3000000000 false 1
                [mkPeriod 1000000000 1 1; mkPeriod 0 0 0] 0 [752] [752] 1000
                [AlarmWarning LOWER 752] : Work Z).
  assert (Hp1 : processPacket monitor_labels 0x100 0 3000000000 labelled
                = Some (9, w1)) by (vm_compute; reflexivity).
  destruct (go_labels_once monitor_labels labelled 0x100 0 3000000000 9 w1
              0x100 64 3500000000)
    as (_ & w2 & Hp2 & _ & Hl).
  - reflexivity.
  - exact labelled_running.
  - exact Hp1.
  - vm_compute. reflexivity.
  - exists w1, w2. split; [reflexivity|]. split; [exact Hp1|].
    split; [reflexivity|]. split; [exact Hp2 | exact Hl].
Defined.

(** With [--periodic-bitrate 3], the third computation displays. *)
Lemma periodic_display_witness :
  exists b nb,
    InfoBitrate b nb
    ∈ drop
        (length (outputs (Nat.iter 2 (computeBitrate monitor_periodic)
                            (start monitor_periodic 0 stopped).2)))
        (outputs (computeBitrate monitor_periodic
                    (Nat.iter 2 (computeBitrate monitor_periodic)
                       (start monitor_periodic 0 stopped).2))).
Proof.
  apply (periodic_display monitor_periodic (start monitor_periodic 0 stopped).2 2).
  - reflexivity.
  - reflexivity.
  - reflexivity.
Defined.

End PluginScenarios.
